(** * goscript: a shallow embedding of [main.go] and of the earlier [goscripts] driver

    Go strings are byte sequences, so source text, file contents, paths and
    tool diagnostics are all [string] (a list of 8-bit [ascii]).  Maps
    ([util.ImportsMap], the user table of [imports.json], the file store)
    are [gmap string _].  The external world (the Go toolchain, the
    formatter, the template engine, the child process) is a record of
    oracles indexed by the history of external commands run so far. *)

From Stdlib Require Import ZArith NArith Ascii String List Lia Bool.
From Stdlib Require Import Numbers.DecimalString.
From stdpp Require Import base tactics option list sorting gmap strings fin_maps.

Local Open Scope char_scope.
Local Open Scope stdpp_scope.

(** * The Go library, as far as the program uses it *)

(** ** Bytes and strings *)

Definition byte_in (lo hi : N) (c : ascii) : bool :=
  ((lo <=? N_of_ascii c) && (N_of_ascii c <=? hi))%N.

(** RE2's [\w] is the ASCII class [0-9A-Za-z_]. *)
Definition isWordChar (c : ascii) : bool :=
  byte_in 48 57 c || byte_in 65 90 c || byte_in 97 122 c || Ascii.eqb c "_".

Definition newline : ascii := "010".
Definition carriage_return : ascii := "013".
Definition slash : ascii := "/".
Definition dot : ascii := ".".
Definition dquote : ascii := "034".

Definition chars (s : string) : list ascii := list_ascii_of_string s.
Definition text (l : list ascii) : string := string_of_list_ascii l.

(** [strings.HasPrefix] and [strings.HasSuffix]. *)
Definition HasPrefix (s pre : string) : bool := String.prefix pre s.

Definition HasSuffix (s suf : string) : bool :=
  String.prefix (String.rev suf) (String.rev s).

(** [s[:len(s)-n]]; callers guard it with [HasSuffix]. *)
Definition dropRight (n : nat) (s : string) : string :=
  String.substring 0 (String.length s - n) s.

(** Longest prefix of [s] whose bytes satisfy [p], and what follows it. *)
Fixpoint span (p : ascii -> bool) (s : string) : string * string :=
  match s with
  | "" => ("", "")
  | String c s' =>
      if p c then let '(a, b) := span p s' in (String c a, b) else ("", s)
  end.

Definition all_chars (p : ascii -> bool) (s : string) : bool :=
  forallb p (chars s).

Definition notSlash (c : ascii) : bool := negb (Ascii.eqb c slash).

(** ** [path/filepath.Base] (Unix: the separator is [/], no volume name) *)

Fixpoint drop_seps (l : list ascii) : list ascii :=
  match l with
  | c :: l' => if Ascii.eqb c slash then drop_seps l' else l
  | [] => []
  end.

Fixpoint take_elem (l : list ascii) : list ascii :=
  match l with
  | c :: l' => if Ascii.eqb c slash then [] else c :: take_elem l'
  | [] => []
  end.

Definition Base (path : string) : string :=
  if String.eqb path "" then "."
  else
    (* strip trailing slashes, then keep what follows the last slash *)
    let stripped := drop_seps (rev (chars path)) in
    let last := text (rev (take_elem stripped)) in
    if String.eqb last "" then "/" else last.

(** ** [regexp]: the two patterns of the program

    [FindAll...(s, -1)] returns the successive leftmost matches, each search
    resuming where the previous match ended; a quantifier is greedy. *)

(** [(\w+)\.] at the start of [s]: the capture and the text after the match. *)
Definition matchWordDot (s : string) : option (string * string) :=
  match span isWordChar s with
  | (String c w, String d rest) =>
      if Ascii.eqb d dot then Some (String c w, rest) else None
  | _ => None
  end.

Fixpoint findAllFrom (matchAt : string -> option (string * string))
    (fuel : nat) (s : string) : list string :=
  match fuel, s with
  | S fuel', String _ s' =>
      match matchAt s with
      | Some (capture, rest) => capture :: findAllFrom matchAt fuel' rest
      | None => findAllFrom matchAt fuel' s'
      end
  | _, _ => []
  end.

(** [pkgMatcher.FindAllStringSubmatch(code, -1)], keeping [m[1]] of each match. *)
Definition pkgMatches (code : string) : list string :=
  findAllFrom matchWordDot (String.length code) code.

(** ** The import resolver of [assembleSourceFile] *)

(** [fmt.Sprintf("\"%s\"", v)] *)
Definition quoted (v : string) : string := String dquote (v +:+ String dquote "").

(** [fmt.Sprintf("%s \"%s\"", k, v)] *)
Definition aliased (k v : string) : string := k +:+ String " " (quoted v).

(** Indexing a Go map with an absent key yields the zero value. *)
Definition mapIndex (m : gmap string string) (k : string) : string :=
  default "" (m !! k).

(** Lines 50-56: the user's entries are stored into the global table. *)
Definition mergeUserImports (userImports : option (gmap string string))
    (base : gmap string string) : gmap string string :=
  match userImports with
  | Some u => map_fold (fun key value (acc : gmap string string) => <[key := value]> acc) base u
  | None => base
  end.

(** Lines 65-72: the declaration for identifier [k] whose table value is [v]. *)
Definition formatImport (k v : string) : string :=
  if bool_decide (Base v <> k) then aliased k v else quoted v.

(** Lines 73-76: append unless already present. *)
Definition appendNew (formattedImports : list string) (v : string) : list string :=
  if bool_decide (v ∈ formattedImports) then formattedImports
  else formattedImports ++ [v].

(** Lines 60-79: one iteration of the loop over the matches. *)
Definition importStep (table : gmap string string)
    (formattedImports : list string) (k : string) : list string :=
  let v := mapIndex table k in
  if bool_decide (v <> "") then appendNew formattedImports (formatImport k v)
  else formattedImports.

Definition resolveImports (table : gmap string string) (code : string) : list string :=
  foldl (importStep table) [] (pkgMatches code).

(** ** [strings.TrimSpace]

    [unicode.IsSpace] holds of the runes U+0009 to U+000D, U+0020, U+0085,
    U+00A0, U+1680, U+2000 to U+200A, U+2028, U+2029, U+202F, U+205F and
    U+3000.  These are their UTF-8 encodings; no byte sequence other than
    these decodes to a space, and none of them begins another. *)

Definition rune1 (b1 : nat) : string := String (ascii_of_nat b1) "".
Definition rune2 (b1 b2 : nat) : string := String (ascii_of_nat b1) (rune1 b2).
Definition rune3 (b1 b2 b3 : nat) : string := String (ascii_of_nat b1) (rune2 b2 b3).

Definition spaceRunes : list string :=
  (rune1 <$> seq 9 5) ++ [rune1 32; rune2 194 133; rune2 194 160; rune3 225 154 128]
  ++ (rune3 226 128 <$> seq 128 11)
  ++ [rune3 226 128 168; rune3 226 128 169; rune3 226 128 175;
      rune3 226 129 159; rune3 227 128 128].

(** Width in bytes of the space rune that [s] starts with, 0 when none. *)
Definition leadingSpaceWidth (s : string) : nat :=
  match find (fun r => String.prefix r s) spaceRunes with
  | Some r => String.length r
  | None => 0
  end.

(** The same for the rune that a string ends with, given the string
    reversed. *)
Definition trailingSpaceWidth (reversed : string) : nat :=
  match find (fun r => String.prefix (String.rev r) reversed) spaceRunes with
  | Some r => String.length r
  | None => 0
  end.

Fixpoint dropChars (n : nat) (s : string) : string :=
  match n, s with
  | S n', String _ s' => dropChars n' s'
  | _, _ => s
  end.

Fixpoint trimWith (width : string -> nat) (fuel : nat) (s : string) : string :=
  match fuel with
  | S fuel' =>
      match width s with
      | 0 => s
      | n => trimWith width fuel' (dropChars n s)
      end
  | 0 => s
  end.

Definition TrimLeftSpace (s : string) : string :=
  trimWith leadingSpaceWidth (String.length s) s.

Definition TrimRightSpace (s : string) : string :=
  String.rev (trimWith trailingSpaceWidth (String.length s) (String.rev s)).

Definition TrimSpace (s : string) : string := TrimRightSpace (TrimLeftSpace s).

(** [go get (.+)] at the start of [s]: [.] is any byte but a newline. *)
Definition notNewline (c : ascii) : bool := negb (Ascii.eqb c newline).

Definition matchGoGet (s : string) : option (string * string) :=
  if HasPrefix s "go get " then
    match span notNewline (dropChars 7 s) with
    | (String c w, rest) => Some (String c w, rest)
    | _ => None
    end
  else None.

(** [re.FindAllSubmatch(out, -1)], keeping [m[1]] of each match. *)
Definition goGetMatches (out : string) : list string :=
  findAllFrom matchGoGet (String.length out) out.

(** ** [bufio.Scanner] with the default [ScanLines] split

    A line ends at a newline, or at the end of the input when bytes remain;
    one trailing carriage return is dropped.  A line of [MaxScanTokenSize]
    bytes or more does not fit the scanner's buffer: [Scan] then returns
    false and [Err] reports [ErrTooLong]. *)

Definition MaxScanTokenSize : N := 64 * 1024.

Definition tooLong (raw : string) : bool :=
  (MaxScanTokenSize <=? N.of_nat (String.length raw))%N.

Definition ErrTooLong : string := "bufio.Scanner: token too long".

Definition dropCR (line : string) : string :=
  match String.rev line with
  | String c r => if Ascii.eqb c carriage_return then String.rev r else line
  | "" => line
  end.

(** The lines [Scan] yields, in order, and the final [scanner.Err()]. *)
Fixpoint scanLines (fuel : nat) (data : string) : list string * option string :=
  match fuel, data with
  | S fuel', String _ _ =>
      let '(raw, rest) := span notNewline data in
      if tooLong raw then ([], Some ErrTooLong)
      else
        let '(ls, err) :=
          scanLines fuel' match rest with String _ rest' => rest' | "" => "" end in
        (dropCR raw :: ls, err)
  | _, _ => ([], None)
  end.

Definition scanFile (data : string) : list string * option string :=
  scanLines (String.length data) data.

(** [sort.Strings]: ascending byte-wise order. *)
Definition sortStrings (l : list string) : list string := merge_sort String.le l.

(** [fmt.Sprintf("%d", n)] *)
Definition formatInt (n : Z) : string := NilZero.string_of_int (Z.to_int n).

(** * The external world

    Regular files are a finite map from path to contents.  Paths are
    compared as strings and directories are not modelled: the entries of a
    directory are the files whose path is the directory, a slash and a
    name without slash.  A file operation fails only when its file is
    absent.  Every external command appends an event to the history; what
    it answers is given by an oracle that sees the history so far.

    The store holds the files the program itself reads and writes: the
    sources and binaries of the commands, [imports.json], and what is
    copied out of the project.  What the Go tools keep for themselves
    ([go.mod], [go.sum], the module cache and the build cache) is outside
    it: the program opens none of these files, and the one thing it asks
    about them, the modification time of [go.mod], is an oracle. *)

Inductive Event :=
| EvBuild (binFilename srcFilename : string)   (* go build -o bin src *)
| EvGet (pkgName : string)                     (* go get pkg *)
| EvTidy                                       (* go mod tidy *)
| EvRun (binFilename : string) (args : list string).

(** [cmd.CombinedOutput()]: the output, and the error when there is one. *)
Inductive CmdResult :=
| CmdOk (out : string)
| CmdFail (err out : string).

Inductive BuildResult :=
| BuildOk (binary : string)
| BuildFail (err out : string).

Inductive ChildResult :=
| StartFail (err : string)   (* cmd.Start returns an error *)
| Exited (code : Z)          (* cmd.Wait returns *)
| Interrupted.               (* SIGINT or SIGTERM reaches the parent while it waits *)

(** The programs and library calls whose results the program only passes on. *)
Record Toolchain := {
  go_build : list Event -> gmap string string -> string -> string -> BuildResult;
  go_get : list Event -> string -> CmdResult;
  go_mod_tidy : list Event -> CmdResult;
  (* os.Stat of go.mod: the error, or its modification time in ns *)
  stat_go_mod : list Event -> string + Z;
  (* time.Now(), in ns *)
  time_Now : list Event -> Z;
  (* go/format.Source: the error, or the formatted source *)
  format_Source : string -> string + string;
  (* text/template: template text, .Imports, .Code *)
  template_Execute : string -> list string -> string -> string + string;
  (* encoding/json on a map[string]string; None leaves the map nil *)
  json_Unmarshal : string -> option (gmap string string);
  json_MarshalIndent : gmap string string -> string;
  run_child : list Event -> gmap string string -> string -> list string -> ChildResult
}.

(** What reached [os.Stderr]: text, or a text handed to [Fprintf] as its
    format string (main.go:447 and 453), or the usage message. *)
Inductive ErrWrite :=
| Plain (s : string)
| AsFormat (s : string)
| UsageText.

Record World := {
  files : gmap string string;
  ImportsMap : gmap string string;     (* util.ImportsMap *)
  stdout : string;
  stderr : list ErrWrite;
  savedErrors : list string;
  history : list Event
}.

Definition set_files (f : gmap string string -> gmap string string) (w : World) : World :=
  {| files := f (files w); ImportsMap := ImportsMap w; stdout := stdout w;
     stderr := stderr w; savedErrors := savedErrors w; history := history w |}.

Definition set_ImportsMap (m : gmap string string) (w : World) : World :=
  {| files := files w; ImportsMap := m; stdout := stdout w;
     stderr := stderr w; savedErrors := savedErrors w; history := history w |}.

Definition add_stdout (s : string) (w : World) : World :=
  {| files := files w; ImportsMap := ImportsMap w; stdout := stdout w +:+ s;
     stderr := stderr w; savedErrors := savedErrors w; history := history w |}.

Definition add_stderr (e : ErrWrite) (w : World) : World :=
  {| files := files w; ImportsMap := ImportsMap w; stdout := stdout w;
     stderr := stderr w ++ [e]; savedErrors := savedErrors w; history := history w |}.

Definition add_savedError (msg : string) (w : World) : World :=
  {| files := files w; ImportsMap := ImportsMap w; stdout := stdout w;
     stderr := stderr w; savedErrors := savedErrors w ++ [msg]; history := history w |}.

Definition add_event (e : Event) (w : World) : World :=
  {| files := files w; ImportsMap := ImportsMap w; stdout := stdout w;
     stderr := stderr w; savedErrors := savedErrors w; history := history w ++ [e] |}.

(** * The monad of the program: state, [os.Exit], [panic], and running
    out of fuel (only [compileBinary] can loop) *)

Inductive Outcome (A : Type) :=
| Ret (a : A) (w : World)
| Exit (code : Z) (w : World)
| Panic (e : string) (w : World)
| OutOfFuel (w : World).

Arguments Ret {A} a w.
Arguments Exit {A} code w.
Arguments Panic {A} e w.
Arguments OutOfFuel {A} w.

Definition M (A : Type) : Type := World -> Outcome A.

Definition ret {A} (a : A) : M A := fun w => Ret a w.

Definition bind {A B} (m : M A) (k : A -> M B) : M B :=
  fun w =>
    match m w with
    | Ret a w' => k a w'
    | Exit c w' => Exit c w'
    | Panic e w' => Panic e w'
    | OutOfFuel w' => OutOfFuel w'
    end.

Notation "'let*' x ':=' m 'in' k" := (bind m (fun x => k))
  (at level 10, x pattern, m at level 100, k at level 200).
Notation "m >> k" := (bind m (fun _ => k))
  (at level 90, right associativity).

Definition modify (f : World -> World) : M unit := fun w => Ret tt (f w).
Definition gets {A} (f : World -> A) : M A := fun w => Ret (f w) w.
Definition os_Exit {A} (code : Z) : M A := fun w => Exit code w.
Definition panic {A} (e : string) : M A := fun w => Panic e w.

(** The world an outcome ends in. *)
Definition world_of {A} (o : Outcome A) : World :=
  match o with
  | Ret _ w | Exit _ w | Panic _ w | OutOfFuel w => w
  end.

Fixpoint forM_ {A} (l : list A) (f : A -> M unit) : M unit :=
  match l with
  | [] => ret tt
  | x :: l' => f x >> forM_ l' f
  end.

Definition when (b : bool) (m : M unit) : M unit := if b then m else ret tt.

Definition nl : string := String newline "".

(** * main.go *)

Section Program.

Variable tc : Toolchain.
Variable projectDir : string.
(** [os.Args[0]] *)
Variable argv0 : string.

(** [check], lines 433-463: [e] is [None] for a nil error. *)
Definition check (e : option string) (errLevel : Z) (customMsg : string) : M bool :=
  match e with
  | Some msg =>
      if (errLevel =? 0)%Z then
        modify (add_savedError
          (if bool_decide (customMsg <> "")
           then TrimSpace customMsg +:+ nl +:+ msg +:+ nl
           else msg)) >>
        ret true
      else if (errLevel =? 1)%Z then
        modify (add_stderr
          (if bool_decide (customMsg <> "")
           then Plain (TrimSpace customMsg +:+ nl +:+ msg +:+ nl)
           else AsFormat (msg +:+ nl))) >>
        ret true
      else if (errLevel =? 2)%Z then
        modify (add_stderr
          (if bool_decide (customMsg <> "")
           then Plain (TrimSpace customMsg +:+ nl +:+ msg +:+ nl)
           else AsFormat (msg +:+ nl))) >>
        os_Exit 1
      else if (errLevel =? 3)%Z then panic msg
      else ret true
  | None => ret false
  end.

(** [checkFileExists], lines 427-431: [os.Stat] answers not-exist exactly
    when the store has no file of that path.  Its other errors (a name
    longer than the file system allows, a path through something that is
    not a directory), on which the function answers true, are outside the
    model, as are directories. *)
Definition checkFileExists (filePath : string) : M bool :=
  gets (fun w => bool_decide (is_Some (files w !! filePath))).

Definition errNotExist (op path : string) : string :=
  op +:+ " " +:+ path +:+ ": no such file or directory".

(** [os.Open] followed by reading the whole file. *)
Definition os_Open (filename : string) : M (option string * string) :=
  gets (fun w =>
    match files w !! filename with
    | Some data => (None, data)
    | None => (Some (errNotExist "open" filename), "")
    end).

(** [os.Rename]: an existing destination file is replaced. *)
Definition os_Rename (oldpath newpath : string) : M (option string) :=
  fun w =>
    match files w !! oldpath with
    | Some data =>
        Ret None (set_files (fun fs => <[newpath := data]> (delete oldpath fs)) w)
    | None =>
        Ret (Some ("rename " +:+ oldpath +:+ " " +:+ newpath
                   +:+ ": no such file or directory")) w
    end.

Definition os_Remove (path : string) : M (option string) :=
  fun w =>
    match files w !! path with
    | Some _ => Ret None (set_files (delete path) w)
    | None => Ret (Some (errNotExist "remove" path)) w
    end.

(** The body of the scanning loop, lines 191-198. *)
Definition keepLine (buf line : string) : string :=
  if HasPrefix line "#!" then buf else buf +:+ line +:+ nl.

(** [readSourceFile], lines 181-204. *)
Definition readSourceFile (filename : string) : M string :=
  let* (err, data) := os_Open filename in
  check err 2 "" >>
  let '(lines, scanErr) := scanFile data in
  let buf := foldl keepLine "" lines in
  check scanErr 2 "" >>
  ret buf.

(** [readUserImports], lines 100-112. *)
Definition readUserImports : M (option (gmap string string)) :=
  let filename := projectDir +:+ "/imports.json" in
  let* isExist := checkFileExists filename in
  if isExist then
    let* (err, byteValue) := os_Open filename in
    check err 2 "" >>
    ret (json_Unmarshal tc byteValue)
  else ret None.

(** [writeUserImports], lines 114-120. *)
Definition writeUserImports (userImports : gmap string string) : M unit :=
  let filename := projectDir +:+ "/imports.json" in
  let jsonData := json_MarshalIndent tc userImports in
  check None 2 "Unable to marshal content for imports.json file." >>
  modify (set_files (fun fs => <[filename := jsonData]> fs)) >>
  check None 2 "" >>
  ret tt.

(** [processTemplate], lines 206-221. *)
Definition processTemplate (imports : list string) (code : string) : M string :=
  let tmplFile := projectDir +:+ "/script.tmpl" in
  let* (err, tmpl) := os_Open tmplFile in
  check err 2 "" >>
  let '(rendered, err) :=
    match template_Execute tc tmpl imports code with
    | inr r => (r, None)
    | inl e => ("", Some e)
    end in
  check err 2 "" >>
  ret rendered.

(** [formatCode], lines 91-98: the buffer after the call. *)
Definition formatCode (buf : string) : M string :=
  let '(formatted, err) :=
    match format_Source tc buf with
    | inr f => (f, None)
    | inl e => ("", Some e)
    end in
  let* failed := check err 1 "Code formatting failed" in
  if negb failed then ret formatted else ret buf.

(** [assembleSourceFile], lines 38-89. *)
Definition assembleSourceFile (code : string) : M string :=
  let* isFile := checkFileExists code in
  let* code := (if isFile then readSourceFile code else ret code) in
  let* userImports := readUserImports in
  let* base := gets ImportsMap in
  let table := mergeUserImports userImports base in
  modify (set_ImportsMap table) >>
  let formattedImports := resolveImports table code in
  let* buf := processTemplate formattedImports code in
  formatCode buf.

(** [writeSourceFile], lines 223-237. *)
Definition writeSourceFile (filename buf : string) : M bool :=
  modify (set_files (fun fs => <[filename := buf]> fs)) >>
  check None 2 "" >>
  check None 2 "" >>
  ret true.

(** Run an external command: ask the oracle, then record the event.
    What [go mod tidy] and [go get] write is in files of their own, which
    the store does not hold. *)
Definition run_go_mod_tidy : M CmdResult :=
  let* h := gets history in
  modify (add_event EvTidy) >>
  ret (go_mod_tidy tc h).

Definition run_go_get (pkgName : string) : M CmdResult :=
  let* h := gets history in
  modify (add_event (EvGet pkgName)) >>
  ret (go_get tc h pkgName).

(** A successful [go build -o bin src] writes the binary. *)
Definition run_go_build (binFilename srcFilename : string) : M BuildResult :=
  let* h := gets history in
  let* fs := gets files in
  let r := go_build tc h fs binFilename srcFilename in
  modify (add_event (EvBuild binFilename srcFilename)) >>
  match r with
  | BuildOk binary => modify (set_files (fun fs => <[binFilename := binary]> fs))
  | BuildFail _ _ => ret tt
  end >>
  ret r.

(** [fmt.Sprintf("%v: %s", err, out)] *)
Definition errOut (err out : string) : string := err +:+ ": " +:+ out.

Definition cmdErr (r : CmdResult) : option string :=
  match r with CmdOk _ => None | CmdFail err _ => Some err end.

Definition cmdOut (r : CmdResult) : string :=
  match r with CmdOk out => out | CmdFail _ out => out end.

(** [%v] prints a nil error as [<nil>]. *)
Definition errText (e : option string) : string := default "<nil>" e.

(** [goTidy], lines 149-155. *)
Definition goTidy : M unit :=
  let* r := run_go_mod_tidy in
  check (cmdErr r) 2 (errOut (errText (cmdErr r)) (cmdOut r) +:+ nl) >>
  ret tt.

Definition week_ns : Z := 7 * 24 * 3600 * 1000000000.

(** [goGet], lines 122-147. *)
Definition goGet (pkgName : string) : M unit :=
  let* h := gets history in
  let '(modTime, err) :=
    match stat_go_mod tc h with
    | inr t => (t, None)
    | inl e => (0%Z, Some e)
    end in
  check err 2 "Could not stat go.mod file." >>
  when (modTime <? time_Now tc h - week_ns)%Z goTidy >>
  let* r := run_go_get pkgName in
  check (cmdErr r) 2 (errOut (errText (cmdErr r)) (cmdOut r)) >>
  let pkgAlias := Base pkgName in
  let* userImports := readUserImports in
  let userImports := default ∅ userImports in
  writeUserImports (<[pkgAlias := pkgName]> userImports).

(** [compileBinary], lines 331-352.  The recursion is not bounded by the
    code, so the model takes fuel: one unit per build. *)
Fixpoint compileBinary (fuel : nat) (srcFilename binFilename : string) : M bool :=
  match fuel with
  | 0 => fun w => OutOfFuel w
  | S fuel' =>
      let* r := run_go_build binFilename srcFilename in
      match r with
      | BuildFail err out =>
          let matches := goGetMatches out in
          if (0 <? length matches)%nat then
            forM_ matches (fun m => goGet (TrimSpace m)) >>
            compileBinary fuel' srcFilename binFilename >>
            ret true
          else
            let* failed := check (Some err) 1 out in
            if failed then ret false else ret true
      | BuildOk _ => ret true
      end
  end.

(** [getSourceList], lines 280-292: the regular files directly in
    [projectDir/src], sorted.  A directory is there as soon as it is
    asked for: the error of [os.ReadDir] on a missing directory, which
    [check] reports at level 1 before an empty list is returned, is
    outside the model. *)
Definition entryName (dir path : string) : option string :=
  if HasPrefix path (dir +:+ "/") then
    let e := dropChars (String.length dir + 1) path in
    if bool_decide (e <> "") && all_chars notSlash e then Some e else None
  else None.

Definition ReadDir (dir : string) (fs : gmap string string) : list string :=
  omap (entryName dir) (fst <$> map_to_list fs).

Definition getSourceList : M (list string) :=
  let srcDir := projectDir +:+ "/src" in
  let* list := gets (fun w => ReadDir srcDir (files w)) in
  check None 1 "" >>
  ret (sortStrings list).

(** [deleteCommand], lines 295-304. *)
Definition deleteCommand (cmd : string) : M unit :=
  let sansGoExt := projectDir +:+ "/src/" +:+ cmd in
  let srcFilename := sansGoExt +:+ ".go" in
  let binFilename := projectDir +:+ "/bin/" +:+ cmd in
  let* err := os_Rename srcFilename sansGoExt in
  check err 1 "" >>
  let* err := os_Remove binFilename in
  check err 1 "" >>
  goTidy.

(** [restoreCommand], lines 307-314. *)
Definition restoreCommand (fuel : nat) (cmd : string) : M unit :=
  let sansGoExt := projectDir +:+ "/src/" +:+ cmd in
  let srcFilename := sansGoExt +:+ ".go" in
  let binFilename := projectDir +:+ "/bin/" +:+ cmd in
  let* err := os_Rename sansGoExt srcFilename in
  check err 2 "" >>
  compileBinary fuel srcFilename binFilename >>
  ret tt.

(** [cleanTemporaryFiles], lines 414-425. *)
Definition cleanTemporaryFiles (name : string) : M unit :=
  let srcFilename := projectDir +:+ "/src/" +:+ name +:+ ".go" in
  let binFilename := projectDir +:+ "/bin/" +:+ name in
  let* srcExists := checkFileExists srcFilename in
  when srcExists (let* err := os_Remove srcFilename in check err 1 "" >> ret tt) >>
  let* binExists := checkFileExists binFilename in
  when binExists (let* err := os_Remove binFilename in check err 1 "" >> ret tt).

Definition fmt_Print (s : string) : M unit := modify (add_stdout s).
Definition fmt_Println (s : string) : M unit := modify (add_stdout (s +:+ nl)).

Definition shebang : string := "#!/usr/bin/env -S " +:+ argv0.

(** The [--list] branch of [main], lines 630-640: how an entry of the
    source directory is shown. *)
Inductive Listed :=
| Runnable (name : string)
| RequiresRestore (entry : string).

Definition classify (cmd : string) : Listed :=
  if negb (HasSuffix cmd ".go") then RequiresRestore cmd
  else Runnable (dropRight 3 cmd).

Definition listingLine (l : Listed) : string :=
  match l with
  | RequiresRestore cmd => cmd +:+ " (requires --restore)" +:+ nl
  | Runnable name => name +:+ nl
  end.

Definition main_list : M unit :=
  let* cmds := getSourceList in
  forM_ cmds (fun cmd => fmt_Print (listingLine (classify cmd))).

(** The [--export] branch of [main], lines 701-709. *)
Definition main_export (toExport : string) : M unit :=
  let srcFilename := projectDir +:+ "/src/" +:+ toExport +:+ ".go" in
  let* buf := readSourceFile srcFilename in
  fmt_Println shebang >>
  fmt_Print buf >>
  check None 2 ("Failed to export " +:+ srcFilename) >>
  deleteCommand toExport.

(** The flags that reach the end of [main]. *)
Record Flags := {
  name : string;
  code : string;
  inputFile : string;
  execCode : bool;
  subprocessArgs : list string
}.

(** [cmd.Start] and [cmd.Wait], with the signal goroutine of lines 767-775.
    The child sees the store; what it writes there is outside the model. *)
Definition run_binary (binFilename : string) (args : list string) : M ChildResult :=
  let* h := gets history in
  let* fs := gets files in
  modify (add_event (EvRun binFilename args)) >>
  ret (run_child tc h fs binFilename args).

(** Lines 732-746 of [main]: where the source comes from. *)
Definition chooseSource (fl : Flags) : M string :=
  if bool_decide (inputFile fl <> "") then readSourceFile (inputFile fl)
  else if bool_decide (code fl <> "") then assembleSourceFile (code fl)
  else if bool_decide (name fl <> "") then
    readSourceFile (projectDir +:+ "/src/" +:+ name fl +:+ ".go")
  else modify (add_stderr UsageText) >> os_Exit 1.

(** The end of [main], lines 732-799: choose the source, save it, build
    it, run it when asked, and remove what a generated name left. *)
Definition main_build (fuel : nat) (fl : Flags) : M unit :=
  let* buf := chooseSource fl in
  let* h := gets history in
  let '(name, isTemporary) :=
    if bool_decide (name fl = "")
    then ("gocmd-" +:+ formatInt (time_Now tc h), true)
    else (name fl, false) in
  let srcFilename := projectDir +:+ "/src/" +:+ name +:+ ".go" in
  let binFilename := projectDir +:+ "/bin/" +:+ name in
  writeSourceFile srcFilename buf >>
  let* compiled := compileBinary fuel srcFilename binFilename in
  if negb compiled then
    when isTemporary (cleanTemporaryFiles name) >>
    os_Exit 1
  else if execCode fl then
    let* r := run_binary binFilename (subprocessArgs fl) in
    match r with
    | StartFail err =>
        modify (add_stderr (Plain (err +:+ nl))) >>
        when isTemporary (cleanTemporaryFiles name) >>
        os_Exit 1
    | Interrupted =>
        when isTemporary (cleanTemporaryFiles name) >>
        os_Exit 1
    | Exited exitCode =>
        when isTemporary (cleanTemporaryFiles name) >>
        os_Exit exitCode
    end
  else when isTemporary (cleanTemporaryFiles name).

End Program.

(** * The earlier driver (the second source file)

    Its [readSourceFile] has the same loop; its [check] panics. *)

Module Goscripts.

Definition check (e : option string) : M unit :=
  match e with
  | Some msg => panic msg
  | None => ret tt
  end.

(** [readSourceFile], lines 44-69. *)
Definition readSourceFile (filename : string) : M string :=
  let* (err, data) := os_Open filename in
  check err >>
  let '(lines, scanErr) := scanFile data in
  let buf := foldl keepLine "" lines in
  check scanErr >>
  ret buf.

(** [stdin.ReadString('\n')]: the bytes up to and including the first
    newline and what remains; at the end of the input, the bytes left and
    [io.EOF]. *)
Definition ReadString (input : string) : string * option string * string :=
  let '(line, rest) := span notNewline input in
  match rest with
  | String c rest' => (line +:+ String c "", None, rest')
  | "" => (line, Some "EOF", "")
  end.

(** The forwarding goroutine, lines 315-324: what it writes to the child's
    input, given what the terminal still holds. *)
Fixpoint forwardInput (fuel : nat) (stdin : string) (cmdStdin : string) : string :=
  match fuel with
  | S fuel' =>
      let '(line, err, rest) := ReadString stdin in
      if bool_decide (err <> None) || (String.length (TrimSpace line) =? 0)%nat
      then cmdStdin
      else forwardInput fuel' rest (cmdStdin +:+ line)
  | 0 => cmdStdin
  end.

(** A child fed [input] on its standard input: [cmd.CombinedOutput()]. *)
Definition Child : Type := string -> CmdResult.

(** The piped execution, lines 310-331: the text printed once
    [CombinedOutput] has returned. *)
Definition execPiped (child : Child) (stdin : string) : M unit :=
  let fed := forwardInput (S (String.length stdin)) stdin "" in
  match child fed with
  | CmdFail err out => fmt_Print (errOut err out +:+ nl)
  | CmdOk out => fmt_Print out
  end.

End Goscripts.

(** * The other commands of main.go *)

(** A relative path names a file of the working directory; the paths the
    program builds from the project directory are absolute when the project
    directory is. *)
Definition absPath (cwd path : string) : string :=
  if HasPrefix path "/" then path else cwd +:+ "/" +:+ path.

Section Commands.

Variable tc : Toolchain.
Variable projectDir : string.
Variable argv0 : string.
(** [os.Getwd()] *)
Variable cwd : string.

(** [recompileCommands], lines 316-329. *)
Definition recompileCommands (fuel : nat) : M unit :=
  let* commands := getSourceList projectDir in
  forM_ commands (fun name =>
    if negb (HasSuffix name ".go") then ret tt
    else
      let srcFilename := projectDir +:+ "/src/" +:+ name in
      let binFilename := projectDir +:+ "/bin/" +:+ dropRight 3 name in
      let* compiled := compileBinary tc projectDir fuel srcFilename binFilename in
      if negb compiled then os_Exit 1 else ret tt).

(** [copyFile], lines 239-253.  The source is opened before the
    destination is created and read after it: [os.Create] truncates an
    existing file, so a file copied onto itself is read empty.  File modes
    are not modelled. *)
Definition copyFile (orig dest : string) : M unit :=
  let* err := gets (fun w =>
    match files w !! absPath cwd orig with
    | Some _ => None
    | None => Some (errNotExist "open" orig)
    end) in
  check err 2 "" >>
  modify (set_files (fun fs => <[absPath cwd dest := ""]> fs)) >>
  check None 2 "" >>
  let* data := gets (fun w => default "" (files w !! absPath cwd orig)) in
  modify (set_files (fun fs => <[absPath cwd dest := data]> fs)) >>
  check None 2 ("Failed to copy " +:+ orig +:+ " to " +:+ dest) >>
  check None 2 ("Failed to set permissions on " +:+ dest) >>
  ret tt.

(** The [--cat] branch of [main], lines 683-697. *)
Definition main_cat (toCat name : string) : M unit :=
  let srcFilename := projectDir +:+ "/src/" +:+ toCat +:+ ".go" in
  let* buf := readSourceFile srcFilename in
  if bool_decide (name <> "") then
    let copy := projectDir +:+ "/src/" +:+ name +:+ ".go" in
    let* written := writeSourceFile copy buf in
    when written
      (fmt_Print ("A copy of " +:+ toCat +:+ " was saved as " +:+ name +:+ nl))
  else
    fmt_Println (shebang argv0) >>
    fmt_Print buf >>
    check None 2 "" >>
    ret tt.

(** The [--export-bin] branch of [main], lines 713-718. *)
Definition main_export_bin (binToExport : string) : M unit :=
  let binFilename := projectDir +:+ "/bin/" +:+ binToExport in
  copyFile binFilename binToExport >>
  deleteCommand tc projectDir binToExport.

(** The [--template] branch of [main], lines 661-674. *)
Definition main_template (code name : string) : M unit :=
  let* buf := assembleSourceFile tc projectDir code in
  if bool_decide (name <> "") then
    let srcFilename := projectDir +:+ "/src/" +:+ name +:+ ".go" in
    writeSourceFile srcFilename buf >>
    fmt_Print ("Source file written to: " +:+ srcFilename +:+ nl)
  else
    fmt_Println (shebang argv0) >>
    fmt_Print buf >>
    check None 2 "" >>
    ret tt.

End Commands.

(** * The rest of the earlier driver *)

(** [strings.Contains]: some suffix of [s] begins with [substr]. *)
Fixpoint Contains (s substr : string) : bool :=
  String.prefix substr s
  || match s with
     | String _ s' => Contains s' substr
     | "" => false
     end.

(** [strings.Split(s, sep)] for a separator of one byte: the pieces
    between the separators, one more than there are separators. *)
Fixpoint splitOn (sep : ascii) (cur s : string) : list string :=
  match s with
  | "" => [cur]
  | String c s' =>
      if Ascii.eqb c sep then cur :: splitOn sep "" s'
      else splitOn sep (cur +:+ String c "") s'
  end.

Definition Split (s : string) (sep : ascii) : list string := splitOn sep "" s.

Module GoscriptsMain.

(** The flags of the earlier driver after [flag.Parse]; [args] is
    [flag.Args()]. *)
Record Options := {
  name : string;           (* "gocmd" when not given *)
  imports : string;
  code : string;
  inputFile : string;
  saveSource : bool;
  listCommands : bool;
  path : string;
  printDir : bool;
  printTemplate : bool;
  execCode : bool;
  args : list string
}.

Section Driver.

Variable tc : Toolchain.
(** [getProjectPath()], lines 98-104: the directory of the executable. *)
Variable dir : string.
(** The program found at a path of a store, given its arguments. *)
Variable spawn : gmap string string -> string -> list string -> Goscripts.Child.
(** What the terminal holds. *)
Variable stdin : string.

(** [processTemplate], lines 71-81. *)
Definition processTemplate (imports : list string) (code : string) : M string :=
  let tmplFile := dir +:+ "/script.tmpl" in
  let* (err, tmpl) := os_Open tmplFile in
  Goscripts.check err >>
  let '(rendered, err) :=
    match template_Execute tc tmpl imports code with
    | inr r => (r, None)
    | inl e => ("", Some e)
    end in
  Goscripts.check err >>
  ret rendered.

(** [writeFile], lines 83-96. *)
Definition writeFile (filename buf : string) : M bool :=
  modify (set_files (fun fs => <[filename := buf]> fs)) >>
  Goscripts.check None >>
  Goscripts.check None >>
  ret true.

(** [getCommandList], lines 106-117. *)
Definition getCommandList (dir : string) : M (list string) :=
  let* list := gets (fun w => ReadDir dir (files w)) in
  Goscripts.check None >>
  ret (sortStrings list).

(** Lines 257-267 of [main]: the import list handed to the template. *)
Definition theImports (code imports : string) : list string :=
  let imports :=
    if Contains code "script." then
      if negb (Contains imports "github.com/bitfield/script") then
        if (0 <? String.length imports)%nat
        then imports +:+ ",github.com/bitfield/script"
        else "github.com/bitfield/script"
      else imports
    else imports in
  Split imports ",".

(** Lines 198-213 of [main]: the input file, the arguments of the
    subprocess and the run flag, once the arguments left by the flags are
    examined. *)
Definition shebangArgs (o : Options) : M (string * list string * bool) :=
  match args o with
  | arg0 :: rest =>
      if bool_decide (inputFile o = "") then
        let* isFileExists := checkFileExists arg0 in
        if isFileExists then ret (arg0, rest, true)
        else ret (inputFile o, args o, execCode o)
      else ret (inputFile o, args o, execCode o)
  | [] => ret (inputFile o, [], execCode o)
  end.

(** Lines 249-290 of [main]: the source to build; [None] when the
    template was printed and [main] has returned. *)
Definition chooseSource (o : Options) (inputFile : string) : M (option string) :=
  if bool_decide (inputFile <> "") then
    let* buf := Goscripts.readSourceFile inputFile in
    ret (Some buf)
  else if printTemplate o || bool_decide (code o <> "") then
    let* buf := processTemplate (theImports (code o) (imports o)) (code o) in
    if printTemplate o then
      fmt_Print buf >> Goscripts.check None >> ret None
    else ret (Some buf)
  else if bool_decide (name o <> "gocmd") then
    let* buf := Goscripts.readSourceFile (dir +:+ "/src/" +:+ name o +:+ ".go") in
    ret (Some buf)
  else modify (add_stderr UsageText) >> os_Exit 1.

(** [main], lines 190-334, after [flag.Parse]. *)
Definition main (o : Options) : M unit :=
  let* (inputFile, subprocessArgs, execCode) := shebangArgs o in
  if printDir o then fmt_Println dir
  else if bool_decide (path o <> "") then
    let srcFile := dir +:+ "/src/" +:+ path o +:+ ".go" in
    let* isFileExists := checkFileExists srcFile in
    when isFileExists (fmt_Println srcFile)
  else if listCommands o then
    let* cmds := getCommandList (dir +:+ "/bin") in
    fmt_Println "Commands:" >>
    forM_ cmds (fun cmd => fmt_Print (String "009" cmd +:+ nl))
  else
    let* source := chooseSource o inputFile in
    match source with
    | None => ret tt
    | Some buf =>
        let srcFilename := dir +:+ "/src/" +:+ name o +:+ ".go" in
        let binFilename := dir +:+ "/bin/" +:+ name o in
        writeFile srcFilename buf >>
        let* r := run_go_build tc binFilename srcFilename in
        match r with
        | BuildFail err out => fmt_Print (errOut err out +:+ nl)
        | BuildOk _ => ret tt
        end >>
        if execCode then
          if bool_decide (inputFile <> "") then
            let* fs := gets files in
            Goscripts.execPiped (spawn fs binFilename subprocessArgs) stdin
          else ret tt
        else ret tt
    end.

End Driver.

End GoscriptsMain.

(** * The command line of main.go *)

Module Cli.

(** The variables of [main] that the flags set, lines 467-486. *)
Inductive StringVar :=
| v_name | v_toEdit | v_toCat | v_toExport | v_binToExport | v_toDelete
| v_toRestore | v_code | v_inputFile | v_setupProject | v_toGoGet | v_path.

Inductive BoolVar :=
| v_listCommands | v_recompile | v_doTidy | v_printDir | v_printTemplate
| v_execCode | v_printShebang | v_printVersion.

Inductive FlagVar :=
| StringFlag (v : StringVar)
| BoolFlag (v : BoolVar).

#[global] Instance StringVar_eq_dec : EqDecision StringVar.
Proof. solve_decision. Defined.

#[global] Instance BoolVar_eq_dec : EqDecision BoolVar.
Proof. solve_decision. Defined.

(** The flags defined at lines 488-526. *)
Definition flagSet : list (string * FlagVar) :=
  [("name", StringFlag v_name); ("n", StringFlag v_name);
   ("cat", StringFlag v_toCat);
   ("export", StringFlag v_toExport);
   ("export-bin", StringFlag v_binToExport);
   ("edit", StringFlag v_toEdit); ("e", StringFlag v_toEdit);
   ("code", StringFlag v_code); ("c", StringFlag v_code);
   ("file", StringFlag v_inputFile); ("f", StringFlag v_inputFile);
   ("delete", StringFlag v_toDelete);
   ("restore", StringFlag v_toRestore);
   ("path", StringFlag v_path); ("p", StringFlag v_path);
   ("dir", BoolFlag v_printDir); ("d", BoolFlag v_printDir);
   ("template", BoolFlag v_printTemplate); ("t", BoolFlag v_printTemplate);
   ("bang", BoolFlag v_printShebang); ("b", BoolFlag v_printShebang);
   ("list", BoolFlag v_listCommands); ("l", BoolFlag v_listCommands);
   ("setup", StringFlag v_setupProject);
   ("recompile", BoolFlag v_recompile);
   ("goget", StringFlag v_toGoGet); ("g", StringFlag v_toGoGet);
   ("gotidy", BoolFlag v_doTidy);
   ("exec", BoolFlag v_execCode); ("x", BoolFlag v_execCode);
   ("version", BoolFlag v_printVersion); ("v", BoolFlag v_printVersion)].

Definition lookupFlag (name : string) : option FlagVar :=
  snd <$> find (fun f => String.eqb (fst f) name) flagSet.

(** The values of the variables; every flag has the default [""] or [false]. *)
Record Vars := {
  strings : StringVar -> string;
  bools : BoolVar -> bool
}.

Definition defaults : Vars := {| strings := fun _ => ""; bools := fun _ => false |}.

Definition setString (v : StringVar) (value : string) (vars : Vars) : Vars :=
  {| strings := fun v' => if decide (v' = v) then value else strings vars v';
     bools := bools vars |}.

Definition setBool (v : BoolVar) (value : bool) (vars : Vars) : Vars :=
  {| strings := strings vars;
     bools := fun v' => if decide (v' = v) then value else bools vars v' |}.

(** ** The [flag] package: [FlagSet.Parse] *)

(** [strconv.ParseBool] *)
Definition ParseBool (s : string) : option bool :=
  if bool_decide (s ∈ ["1"; "t"; "T"; "TRUE"; "true"; "True"]) then Some true
  else if bool_decide (s ∈ ["0"; "f"; "F"; "FALSE"; "false"; "False"]) then Some false
  else None.

Inductive FlagError :=
| BadSyntax (arg : string)            (* bad flag syntax: arg *)
| NotDefined (name : string)          (* flag provided but not defined: -name *)
| InvalidBoolean (value name : string)(* invalid boolean value "value" for -name *)
| NeedsArgument (name : string).      (* flag needs an argument: -name *)

(** How [parseOne] reads one argument. *)
Inductive Arg :=
| NonFlag                             (* shorter than two bytes, or no leading [-] *)
| Terminator                          (* [--] *)
| Malformed                           (* an empty name, or one that begins with [-] or [=] *)
| Flag (name : string) (value : option string).

Definition notEquals (c : ascii) : bool := negb (Ascii.eqb c "=").

Definition readArg (s : string) : Arg :=
  match s with
  | String c0 (String c1 s2) =>
      if negb (Ascii.eqb c0 "-") then NonFlag
      else
        let name := if Ascii.eqb c1 "-" then s2 else String c1 s2 in
        if Ascii.eqb c1 "-" && String.eqb s2 "" then Terminator
        else
          match name with
          | "" => Malformed
          | String n0 rest =>
              if Ascii.eqb n0 "-" || Ascii.eqb n0 "=" then Malformed
              else
                match span notEquals rest with
                | (a, String _ value) => Flag (String n0 a) (Some value)
                | (a, "") => Flag (String n0 a) None
                end
          end
  | _ => NonFlag
  end.

Inductive Parsed :=
| ParseOk (vars : Vars) (args : list string)   (* [args] is [flag.Args()] *)
| ParseFailed (e : FlagError)
| ParseHelp.                                   (* [-h] or [-help], not defined *)

Fixpoint Parse (arguments : list string) (vars : Vars) : Parsed :=
  match arguments with
  | [] => ParseOk vars []
  | s :: rest =>
      match readArg s with
      | NonFlag => ParseOk vars arguments
      | Terminator => ParseOk vars rest
      | Malformed => ParseFailed (BadSyntax s)
      | Flag name value =>
          match lookupFlag name with
          | None =>
              if String.eqb name "help" || String.eqb name "h" then ParseHelp
              else ParseFailed (NotDefined name)
          | Some (BoolFlag v) =>
              match value with
              | Some x =>
                  match ParseBool x with
                  | Some b => Parse rest (setBool v b vars)
                  | None => ParseFailed (InvalidBoolean x name)
                  end
              | None => Parse rest (setBool v true vars)
              end
          | Some (StringFlag v) =>
              match value with
              | Some x => Parse rest (setString v x vars)
              | None =>
                  match rest with
                  | next :: rest' => Parse rest' (setString v next vars)
                  | [] => ParseFailed (NeedsArgument name)
                  end
              end
          end
      end
  end.

(** ** [main], lines 465-730 *)

(** What [main] goes on to do once the flags are read. *)
Inductive Command :=
| Version | Dir | Path (path : string) | Setup (dir : string) | Bang | List
| GoGet (pkg : string) | Tidy | Recompile
| Template (code name : string) | Edit (cmd : string)
| Cat (toCat name : string) | Export (cmd : string) | ExportBin (cmd : string)
| Delete (cmd : string) | Restore (cmd : string)
| Build (fl : Flags).

(** The chain of conditions of lines 595-746. *)
Definition selectCommand (vars : Vars) (subprocessArgs : list string) : Command :=
  if bools vars v_printVersion then Version
  else if bools vars v_printDir then Dir
  else if bool_decide (strings vars v_path <> "") then Path (strings vars v_path)
  else if bool_decide (strings vars v_setupProject <> "") then
    Setup (strings vars v_setupProject)
  else if bools vars v_printShebang then Bang
  else if bools vars v_listCommands then List
  else if bool_decide (strings vars v_toGoGet <> "") then GoGet (strings vars v_toGoGet)
  else if bools vars v_doTidy then Tidy
  else if bools vars v_recompile then Recompile
  else if bools vars v_printTemplate then
    Template (strings vars v_code) (strings vars v_name)
  else if bool_decide (strings vars v_toEdit <> "") then Edit (strings vars v_toEdit)
  else if bool_decide (strings vars v_toCat <> "") then
    Cat (strings vars v_toCat) (strings vars v_name)
  else if bool_decide (strings vars v_toExport <> "") then Export (strings vars v_toExport)
  else if bool_decide (strings vars v_binToExport <> "") then
    ExportBin (strings vars v_binToExport)
  else if bool_decide (strings vars v_toDelete <> "") then Delete (strings vars v_toDelete)
  else if bool_decide (strings vars v_toRestore <> "") then
    Restore (strings vars v_toRestore)
  else
    Build {| name := strings vars v_name; code := strings vars v_code;
             inputFile := strings vars v_inputFile;
             execCode := bools vars v_execCode;
             subprocessArgs := subprocessArgs |}.

Section Main.

Variable tc : Toolchain.
(** [getProjectPath()], lines 255-278, is taken to have returned this. *)
Variable projectDir : string.
(** [os.Getwd()] *)
Variable cwd : string.
(** The text of a flag error, and the two functions of the file that are
    not modelled. *)
Variable flagErrorText : FlagError -> string.
Variable createNewProject : string -> M unit.
Variable editCommand : string -> M unit.

Definition version : string := "goscript v1.2.3".

(** Lines 571-589: a first argument that names an existing file becomes
    the input file and is taken out of the arguments; then the flags are
    parsed, with [flag.ExitOnError]. *)
Definition readCommandLine (argv : list string) : M (Vars * list string) :=
  let* nonFlagFirstArg :=
    match argv with
    | _ :: arg1 :: _ => checkFileExists arg1
    | _ => ret false
    end in
  let '(vars, arguments) :=
    match argv with
    | _ :: arg1 :: rest =>
        if nonFlagFirstArg then (setString v_inputFile arg1 defaults, rest)
        else (defaults, arg1 :: rest)
    | _ => (defaults, [])
    end in
  match Parse arguments vars with
  | ParseOk vars args =>
      let vars :=
        if nonFlagFirstArg && negb (bools vars v_execCode)
        then setBool v_execCode true vars else vars in
      ret (vars, args)
  | ParseFailed e =>
      modify (add_stderr (Plain (flagErrorText e +:+ nl))) >>
      modify (add_stderr UsageText) >>
      os_Exit 2
  | ParseHelp =>
      modify (add_stderr UsageText) >>
      os_Exit 0
  end.

(** Lines 595-799: the command that was selected, carried out. *)
Definition runCommand (fuel : nat) (argv0 : string) (c : Command) : M unit :=
  match c with
  | Version => fmt_Println version
  | Dir => fmt_Println projectDir
  | Path path =>
      let srcFile := projectDir +:+ "/src/" +:+ path +:+ ".go" in
      let* isFileExists := checkFileExists srcFile in
      when isFileExists (fmt_Println srcFile)
  | Setup dir => createNewProject dir
  | Bang => fmt_Println (shebang argv0)
  | List => main_list projectDir
  | GoGet pkg => goGet tc projectDir pkg
  | Tidy => goTidy tc
  | Recompile => recompileCommands tc projectDir fuel
  | Template code name => main_template tc projectDir argv0 code name
  | Edit cmd => editCommand cmd
  | Cat toCat name => main_cat projectDir argv0 toCat name
  | Export cmd => main_export tc projectDir argv0 cmd
  | ExportBin cmd => main_export_bin tc projectDir cwd cmd
  | Delete cmd => deleteCommand tc projectDir cmd
  | Restore cmd => restoreCommand tc projectDir fuel cmd
  | Build fl => main_build tc projectDir fuel fl
  end.

(** [main], for the arguments [os.Args]. *)
Definition main (fuel : nat) (argv : list string) : M unit :=
  let* (vars, args) := readCommandLine argv in
  runCommand fuel (hd "" argv) (selectCommand vars args).

End Main.

End Cli.

(** * Vocabulary of the properties *)

(** ** Import resolution *)

(** An identifier: one or more word characters. *)
Definition isWord (k : string) : Prop :=
  k <> "" /\ all_chars isWordChar k = true.

(** The declaration the resolver forms for identifier [k]. *)
Definition declFor (table : gmap string string) (k : string) : string :=
  formatImport k (mapIndex table k).

(** An identifier is resolvable when the table gives it a path. *)
Definition resolvable (table : gmap string string) (k : string) : Prop :=
  mapIndex table k <> "".

(** The distinct elements of a list, each at its first occurrence. *)
Fixpoint firstSeen (l : list string) : list string :=
  match l with
  | [] => []
  | x :: l' => x :: filter (fun y => y <> x) (firstSeen l')
  end.

(** ** The text of a fragment and of a declaration, read without the program.
    What the claims on import resolution say, in their own words: where an
    identifier stands in a text, what the last segment of a path is, and
    how a declaration is written.  None of these uses the scanner or the
    formatting of the program. *)

(** The characters of an identifier. *)
Definition identChars : string :=
  "abcdefghijklmnopqrstuvwxyzABCDEFGHIJKLMNOPQRSTUVWXYZ0123456789_".

Definition isIdentChar (c : ascii) : Prop := c ∈ chars identChars.

Definition isIdent (k : string) : Prop := k <> "" /\ Forall isIdentChar (chars k).

Definition endsInIdentChar (pre : string) : Prop :=
  exists p c, pre = p +:+ String c "" /\ isIdentChar c.

(** The identifier [k] stands at offset [n] of [code] as a qualifier: it
    is followed by a dot, and no character of an identifier precedes it. *)
Definition qualifierAt (code : string) (n : nat) (k : string) : Prop :=
  exists pre post,
    code = pre +:+ k +:+ String "." post
    /\ String.length pre = n /\ isIdent k /\ ~ endsInIdentChar pre.

Definition references (code k : string) : Prop := exists n, qualifierAt code n k.

(** The offset at which [code] first references [k]. *)
Definition firstReference (code k : string) (n : nat) : Prop :=
  qualifierAt code n k /\ forall m, qualifierAt code m k -> n <= m.

(** The order of two references by their offsets. *)
Definition byOffset (a b : nat * string) : Prop := a.1 < b.1.

(** The table gives the identifier [k] the path [v]; an empty path is no
    path. *)
Definition hasPath (table : gmap string string) (k v : string) : Prop :=
  table !! k = Some v /\ v <> "".

(** The last segment of a path that is not empty: what stands between
    slashes, or at an end, read from the left. *)
Fixpoint lastSegment (cur best s : string) : string :=
  match s with
  | "" => if bool_decide (cur = "") then best else cur
  | String c s' =>
      if Ascii.eqb c "/"
      then lastSegment "" (if bool_decide (cur = "") then best else cur) s'
      else lastSegment (cur +:+ String c "") best s'
  end.

Definition trailingSegment (v : string) : string := lastSegment "" "" v.

(** A path between double quotes, and the declaration of [k] for the path
    [v]: the path alone when its trailing segment is [k], and [k], a
    space and the path otherwise. *)
Definition inQuotes (v : string) : string :=
  text ("034"%char :: chars v ++ ["034"%char]).

Definition importDeclaration (k v : string) : string :=
  if bool_decide (trailingSegment v = k) then inQuotes v
  else text (chars k ++ " "%char :: chars (inQuotes v)).

(** The matches of the scanner with their offsets, for the proofs. *)
Fixpoint scanFrom (off fuel : nat) (s : string) : list (nat * string) :=
  match fuel, s with
  | S fuel', String _ s' =>
      match matchWordDot s with
      | Some (k, rest) => (off, k) :: scanFrom (off + String.length k + 1) fuel' rest
      | None => scanFrom (S off) fuel' s'
      end
  | _, _ => []
  end.

(** What the scanner keeps true of the text before it and the text left:
    inside a run of identifier characters, the run is not followed by a
    dot. *)
Definition scanInv (pre s : string) : Prop :=
  endsInIdentChar pre ->
  match span isWordChar s with
  | (_, String d _) => d <> "."%char
  | _ => True
  end.

(** The separator of the segments of a path. *)
Definition isSlash (c : ascii) : bool := Ascii.eqb c "/".


(** ** Lines of a source file *)

(** Newline-terminated lines, joined. *)
Definition joinLines (ls : list string) : string :=
  foldr (fun l acc => l +:+ nl +:+ acc) "" ls.

(** The lines of a text: its pieces between newlines, the last one only
    when it is not empty. *)
Fixpoint splitLines (cur : string) (s : string) : list string :=
  match s with
  | "" => if bool_decide (cur = "") then [] else [cur]
  | String c s' =>
      if Ascii.eqb c newline then cur :: splitLines "" s'
      else splitLines (cur +:+ String c "") s'
  end.

Definition linesOf (s : string) : list string := splitLines "" s.

(** A line that begins with [#!]. *)
Definition isShebang (l : string) : Prop := HasPrefix l "#!" = true.

#[local] Instance isShebang_dec l : Decision (isShebang l).
Proof. unfold isShebang. apply _. Defined.

Definition noNewline (l : string) : Prop := all_chars notNewline l = true.

(** ** Messages *)

(** What [check] writes at levels 1 and 2. *)
Definition checkMessage (customMsg msg : string) : ErrWrite :=
  if bool_decide (customMsg <> "")
  then Plain (TrimSpace customMsg +:+ nl +:+ msg +:+ nl)
  else AsFormat (msg +:+ nl).

(** ** External commands in a history *)

Definition isFetch (e : Event) : bool :=
  match e with EvGet _ => true | _ => false end.

Definition isBuild (e : Event) : bool :=
  match e with EvBuild _ _ => true | _ => false end.

Fixpoint countEvents (p : Event -> bool) (h : list Event) : nat :=
  match h with
  | [] => 0
  | e :: h' => (if p e then 1 else 0) + countEvents p h'
  end.

(** The events an outcome added to the history of the world it started in. *)
Definition eventsSince {A} (w : World) (o : Outcome A) : list Event :=
  drop (length (history w)) (history (world_of o)).

(** The events that precede the first build of a list. *)
Fixpoint untilBuild (h : list Event) : list Event :=
  match h with
  | [] => []
  | e :: h' => if isBuild e then [] else e :: untilBuild h'
  end.

(** In the events of a run of [compileBinary]: what happens between the
    first build and the retry, and the fetch attempts among it. *)
Definition firstBatch (evs : list Event) : list Event :=
  match evs with
  | EvBuild _ _ :: evs' => untilBuild evs'
  | _ => []
  end.

Definition fetchesBeforeRetry (evs : list Event) : nat :=
  countEvents isFetch (firstBatch evs).

(** The package paths a diagnostic asks to fetch, and how many distinct
    ones there are. *)
Definition missingPackages (out : string) : list string :=
  TrimSpace <$> goGetMatches out.

Definition distinctMissing (out : string) : nat :=
  length (remove_dups (missingPackages out)).

(** Every [go get] among the events [evs], run after history [h], succeeded. *)
Fixpoint fetchesOk (tc : Toolchain) (h evs : list Event) : bool :=
  match evs with
  | [] => true
  | e :: evs' =>
      match e with
      | EvGet pkg => bool_decide (cmdErr (go_get tc h pkg) = None)
      | _ => true
      end && fetchesOk tc (h ++ [e]) evs'
  end.

(** ** The command store *)

Definition srcPath (projectDir name : string) : string :=
  projectDir +:+ "/src/" +:+ name +:+ ".go".

Definition softPath (projectDir name : string) : string :=
  projectDir +:+ "/src/" +:+ name.

Definition binPath (projectDir name : string) : string :=
  projectDir +:+ "/bin/" +:+ name.

(** Active: the source, with its extension, is an entry of the source
    directory and the binary is present. *)
Definition Active (projectDir : string) (w : World) (name : string) : Prop :=
  (name +:+ ".go") ∈ ReadDir (projectDir +:+ "/src") (files w)
  /\ is_Some (files w !! binPath projectDir name).

(** Soft-deleted: the source is there without its extension, and there is
    no binary. *)
Definition SoftDeleted (projectDir : string) (w : World) (name : string) : Prop :=
  files w !! srcPath projectDir name = None
  /\ is_Some (files w !! softPath projectDir name)
  /\ files w !! binPath projectDir name = None.

(** What [--list] shows for the world [w], entry by entry. *)
Definition listing (projectDir : string) (w : World) : list Listed :=
  classify <$> sortStrings (ReadDir (projectDir +:+ "/src") (files w)).

Definition listingText (ls : list Listed) : string :=
  foldr (fun l acc => listingLine l +:+ acc) "" ls.

(** The files after a delete of a command whose source and binary exist. *)
Definition deletedFiles (projectDir name content : string)
    (fs : gmap string string) : gmap string string :=
  delete (binPath projectDir name)
    (<[softPath projectDir name := content]> (delete (srcPath projectDir name) fs)).

(** The files once [restoreCommand] has renamed the source back. *)
Definition restoredFiles (projectDir name content : string)
    (fs : gmap string string) : gmap string string :=
  <[srcPath projectDir name := content]> (delete (softPath projectDir name) fs).

(** ** What a computation leaves unchanged *)

(** A computation keeps the relation [R] between the world it starts in
    and the world it ends in, however it ends. *)
Definition preserves {A} (R : World -> World -> Prop) (m : M A) : Prop :=
  forall w, R w (world_of (m w)).

(** The file at [p] is left as it was. *)
Definition keepsFile (p : string) (w w' : World) : Prop :=
  files w' !! p = files w !! p.

(** Nothing is added to the deferred messages. *)
Definition keepsSaved (w w' : World) : Prop := savedErrors w' = savedErrors w.

(** Neither the files nor the history change. *)
Definition keepsStore (w w' : World) : Prop :=
  files w' = files w /\ history w' = history w.

(** ** Lines of the terminal input *)

(** A text made of white-space runes only. *)
Inductive allSpace : string -> Prop :=
| allSpace_nil : allSpace ""
| allSpace_rune r s : r ∈ spaceRunes -> allSpace s -> allSpace (r +:+ s).

(** The newline-terminated lines of an input, each with its newline; what
    follows the last newline is not a line. *)
Fixpoint completeLinesFrom (cur : string) (s : string) : list string :=
  match s with
  | "" => []
  | String c s' =>
      if Ascii.eqb c newline
      then (cur +:+ String c "") :: completeLinesFrom "" s'
      else completeLinesFrom (cur +:+ String c "") s'
  end.

Definition completeLines (s : string) : list string := completeLinesFrom "" s.

Definition concatStrings (ls : list string) : string := foldr String.append "" ls.

(** What [execPiped] prints for a result of the child. *)
Definition childReport (r : CmdResult) : string :=
  match r with
  | CmdOk out => out
  | CmdFail err out => errOut err out +:+ nl
  end.

(** ** Recompiling *)

(** The entries of the source directory that [recompileCommands] builds,
    in the order in which it builds them, and the build of an entry. *)
Definition goEntries (projectDir : string) (w : World) : list string :=
  filter (fun e => HasSuffix e ".go" = true)
    (sortStrings (ReadDir (projectDir +:+ "/src") (files w))).

Definition buildOf (projectDir e : string) : Event :=
  EvBuild (projectDir +:+ "/bin/" +:+ dropRight 3 e) (projectDir +:+ "/src/" +:+ e).

(** Events that are fetches, tidies, or builds that [allowed] admits; no
    program is run. *)
Definition buildsOnly (allowed : string -> string -> Prop) (evs : list Event) : Prop :=
  Forall (fun e =>
    match e with
    | EvBuild bin src => allowed bin src
    | EvRun _ _ => False
    | EvGet _ | EvTidy => True
    end) evs.

(** The user table as [readUserImports] finds it in a store. *)
Definition storedImports (tc : Toolchain) (projectDir : string)
    (fs : gmap string string) : option (gmap string string) :=
  match fs !! (projectDir +:+ "/imports.json") with
  | Some data => json_Unmarshal tc data
  | None => None
  end.

(** The imports file after a fetch of [pkg] over a store. *)
Definition recordedImports (tc : Toolchain) (projectDir pkg : string)
    (fs : gmap string string) : gmap string string :=
  <[projectDir +:+ "/imports.json" :=
      json_MarshalIndent tc
        (<[Base pkg := pkg]> (default ∅ (storedImports tc projectDir fs)))]> fs.

(** The path of the package that the earlier driver adds by itself. *)
Definition scriptPath : string := "github.com/bitfield/script".

Definition notComma (c : ascii) : bool := negb (Ascii.eqb c ",").

(** * Sample worlds and toolchains *)

Definition emptyWorld : World :=
  {| files := ∅; ImportsMap := ∅; stdout := ""; stderr := [];
     savedErrors := []; history := [] |}.

Definition withFiles (fs : gmap string string) : World := set_files (fun _ => fs) emptyWorld.

(** A toolchain given by its builds, its fetches and its formatter: the
    module file is fresh, tidying succeeds, the template puts the code
    after a package line, children exit with 0. *)
Definition mkToolchain (build : list Event -> BuildResult)
    (get : list Event -> string -> CmdResult)
    (fmt : string -> string + string) : Toolchain :=
  {| go_build := fun h _ _ _ => build h;
     go_get := get;
     go_mod_tidy := fun _ => CmdOk "";
     stat_go_mod := fun _ => inr 0%Z;
     time_Now := fun _ => 42%Z;
     format_Source := fmt;
     template_Execute := fun _ _ code => inr ("package main" +:+ nl +:+ code);
     json_Unmarshal := fun _ => None;
     json_MarshalIndent := fun _ => "{}";
     run_child := fun _ _ _ _ => Exited 0 |}.

(** A formatter that rejects every source, and one that accepts every source. *)
Definition rejectAll (src : string) : string + string := inl "1:1: expected declaration".
Definition acceptAll (src : string) : string + string := inr src.

(** Every build succeeds. *)
Definition tcBuilds : Toolchain :=
  mkToolchain (fun _ => BuildOk "ELF") (fun _ _ => CmdOk "") acceptAll.

(** As [tcBuilds], with the formatter that rejects. *)
Definition tcNoFormat : Toolchain :=
  mkToolchain (fun _ => BuildOk "ELF") (fun _ _ => CmdOk "") rejectAll.

Definition tab : string := String "009" "".

(** The diagnostic of a build that misses one module. *)
Definition diagOnce : string :=
  "a.go:4:2: no required module provides package example.com/m; to add it:"
  +:+ nl +:+ tab +:+ "go get example.com/m" +:+ nl.

(** The diagnostic of a build in which two import lines miss that module. *)
Definition diagTwice : string :=
  diagOnce
  +:+ "a.go:5:2: no required module provides package example.com/m; to add it:"
  +:+ nl +:+ tab +:+ "go get example.com/m" +:+ nl.

(** The first build fails with [diagTwice]; fetches and later builds succeed. *)
Definition tcTwice : Toolchain :=
  mkToolchain
    (fun h => if bool_decide (countEvents isBuild h = 0)
              then BuildFail "exit status 1" diagTwice else BuildOk "ELF")
    (fun _ _ => CmdOk "") acceptAll.

(** Every build fails with [diagOnce], and no fetch succeeds. *)
Definition tcOffline : Toolchain :=
  mkToolchain (fun _ => BuildFail "exit status 1" diagOnce)
    (fun _ _ => CmdFail "exit status 1" "dial tcp: network is unreachable")
    acceptAll.

(** Every build fails with [diagOnce] although every fetch succeeds. *)
Definition tcStuck : Toolchain :=
  mkToolchain (fun _ => BuildFail "exit status 1" diagOnce) (fun _ _ => CmdOk "") acceptAll.

(** A script with an interpreter line at the top and another further down;
    its last line has no newline. *)
Definition sampleScript : string :=
  "#!/usr/bin/env -S goscript" +:+ nl +:+ "package main" +:+ nl
  +:+ "#!again" +:+ nl +:+ "func main() {}".

(** A project with one active command, [hello]. *)
Definition helloSource : string :=
  "package main" +:+ nl +:+ "func main() { println(42) }" +:+ nl.

Definition helloFiles : gmap string string :=
  <[srcPath "/p" "hello" := helloSource]> (<[binPath "/p" "hello" := "ELF"]> ∅).

Definition helloWorld : World := withFiles helloFiles.

(** A project whose one command is named [x.go]. *)
Definition dotGoFiles : gmap string string :=
  <[srcPath "/p" "x.go" := helloSource]> (<[binPath "/p" "x.go" := "ELF"]> ∅).

Definition dotGoWorld : World := withFiles dotGoFiles.

(** A project whose one command has a source line of [MaxScanTokenSize] bytes. *)
Definition longLine : string := text (repeat "a"%char (N.to_nat MaxScanTokenSize)).

Definition longFiles : gmap string string :=
  <[srcPath "/p" "big" := longLine]> (<[binPath "/p" "big" := "ELF"]> ∅).

(** A project with its template and nothing else, and a one-liner run
    without a name. *)
Definition tmplWorld : World := withFiles {["/p/script.tmpl" := "template"]}.

Definition oneLiner : Flags :=
  {| name := ""; code := "m.Hello()"; inputFile := "";
     execCode := true; subprocessArgs := [] |}.

(** A child that echoes its input. *)
Definition echoChild : Goscripts.Child := fun input => CmdOk input.

(** A build that first asks for a module and then fails for another reason. *)
Definition tcRetryFails : Toolchain :=
  mkToolchain
    (fun h => if bool_decide (countEvents isBuild h = 0)
              then BuildFail "exit status 1" diagOnce
              else BuildFail "exit status 1" "a.go:3:1: syntax error")
    (fun _ _ => CmdOk "") acceptAll.

(** A named one-liner, compiled and not run. *)
Definition namedLiner : Flags :=
  {| name := "tool"; code := "m.Hello()"; inputFile := "";
     execCode := false; subprocessArgs := [] |}.

(** As [tcBuilds], with a module file last changed more than a week ago. *)
Definition tcStale : Toolchain :=
  {| go_build := fun _ _ _ _ => BuildOk "ELF";
     go_get := fun _ _ => CmdOk "";
     go_mod_tidy := fun _ => CmdOk "";
     stat_go_mod := fun _ => inr 0%Z;
     time_Now := fun _ => (week_ns + 1)%Z;
     format_Source := acceptAll;
     template_Execute := fun _ _ code => inr ("package main" +:+ nl +:+ code);
     json_Unmarshal := fun _ => None;
     json_MarshalIndent := fun _ => "{}";
     run_child := fun _ _ _ _ => Exited 0 |}.

(** A one-liner that is compiled under a name and run. *)
Definition namedRun : Flags :=
  {| name := "tool"; code := "m.Hello()"; inputFile := "";
     execCode := true; subprocessArgs := ["-v"] |}.

(** A toolchain whose children exit with status 3. *)
Definition tcExit3 : Toolchain :=
  {| go_build := fun _ _ _ _ => BuildOk "ELF";
     go_get := fun _ _ => CmdOk "";
     go_mod_tidy := fun _ => CmdOk "";
     stat_go_mod := fun _ => inr 0%Z;
     time_Now := fun _ => 42%Z;
     format_Source := acceptAll;
     template_Execute := fun _ _ code => inr ("package main" +:+ nl +:+ code);
     json_Unmarshal := fun _ => None;
     json_MarshalIndent := fun _ => "{}";
     run_child := fun _ _ _ _ => Exited 3 |}.

(** A script run as [goscripts script.go a b], with no flag. *)
Definition shebangRun : GoscriptsMain.Options :=
  {| GoscriptsMain.name := "gocmd"; GoscriptsMain.imports := "";
     GoscriptsMain.code := ""; GoscriptsMain.inputFile := "";
     GoscriptsMain.saveSource := false; GoscriptsMain.listCommands := false;
     GoscriptsMain.path := ""; GoscriptsMain.printDir := false;
     GoscriptsMain.printTemplate := false; GoscriptsMain.execCode := false;
     GoscriptsMain.args := ["/tmp/s.go"; "a"; "b"] |}.

(** A one-liner given with [--exec --code]. *)
Definition execLiner : GoscriptsMain.Options :=
  {| GoscriptsMain.name := "gocmd"; GoscriptsMain.imports := "";
     GoscriptsMain.code := "script.Stdin().Stdout()"; GoscriptsMain.inputFile := "";
     GoscriptsMain.saveSource := false; GoscriptsMain.listCommands := false;
     GoscriptsMain.path := ""; GoscriptsMain.printDir := false;
     GoscriptsMain.printTemplate := false; GoscriptsMain.execCode := true;
     GoscriptsMain.args := [] |}.

(** A program that prints its arguments and then its input. *)
Definition argsChild (fs : gmap string string) (bin : string) (args : list string)
    : Goscripts.Child :=
  fun input => CmdOk (concatStrings args +:+ input).

(** Every build fails. *)
Definition tcBroken : Toolchain :=
  mkToolchain (fun _ => BuildFail "exit status 1" "s.go:1:1: syntax error")
    (fun _ _ => CmdOk "") acceptAll.




(** A project with a soft-deleted command and two commands. *)
Definition threeFiles : gmap string string :=
  <[softPath "/p" "a" := helloSource]>
    (<[srcPath "/p" "b" := helloSource]> (<[srcPath "/p" "c" := helloSource]> ∅)).

(** The flags of a script run by its interpreter line. *)
Definition scriptRun (script : string) (args : list string) : Flags :=
  {| name := ""; code := ""; inputFile := script;
     execCode := true; subprocessArgs := args |}.

(** * Properties *)

(** ** Strings *)

Lemma append_cons c a b : String c a +:+ b = String c (a +:+ b).
Proof. reflexivity. Qed.

Lemma append_nil_l s : "" +:+ s = s.
Proof. reflexivity. Qed.

Lemma append_nil_r s : s +:+ "" = s.
Proof. induction s as [|c s IH]; [done|]. by rewrite append_cons, IH. Qed.

Lemma append_assoc a b c : (a +:+ b) +:+ c = a +:+ b +:+ c.
Proof. induction a as [|x a IH]; [done|]. by rewrite !append_cons, IH. Qed.

Lemma length_append a b :
  String.length (a +:+ b) = String.length a + String.length b.
Proof. induction a as [|x a IH]; [done|]. rewrite append_cons. simpl. by rewrite IH. Qed.

Lemma chars_append a b : chars (a +:+ b) = chars a ++ chars b.
Proof.
  induction a as [|x a IH]; [done|].
  rewrite append_cons. unfold chars in *. simpl. by rewrite IH.
Qed.

Lemma text_chars s : text (chars s) = s.
Proof. apply string_of_list_ascii_of_string. Qed.

Lemma chars_text l : chars (text l) = l.
Proof. apply list_ascii_of_string_of_list_ascii. Qed.

Lemma chars_inj a b : chars a = chars b -> a = b.
Proof. intros H. by rewrite <- (text_chars a), <- (text_chars b), H. Qed.

Lemma all_chars_cons p c s : all_chars p (String c s) = p c && all_chars p s.
Proof. reflexivity. Qed.

Lemma all_chars_append p a b :
  all_chars p (a +:+ b) = all_chars p a && all_chars p b.
Proof. unfold all_chars. by rewrite chars_append, forallb_app. Qed.

Lemma span_spec p s a b :
  span p s = (a, b) ->
  s = a +:+ b /\ all_chars p a = true
  /\ match b with String c _ => p c = false | "" => True end.
Proof.
  revert a b. induction s as [|c s IH]; intros a b; simpl.
  - intros [= <- <-]. done.
  - destruct (p c) eqn:Hc.
    + destruct (span p s) as [a' b'] eqn:Hs. intros [= <- <-].
      destruct (IH a' b' eq_refl) as (-> & Ha & Hb).
      rewrite all_chars_cons, Hc, Ha. done.
    + intros [= <- <-]. rewrite Hc. done.
Qed.

Lemma span_length p s a b :
  span p s = (a, b) -> String.length s = String.length a + String.length b.
Proof. intros (-> & _)%span_spec. apply length_append. Qed.

(** ** The matches of [(\w+)\.] *)

Lemma matchWordDot_Some s k rest :
  matchWordDot s = Some (k, rest) ->
  isWord k /\ s = k +:+ String dot rest.
Proof.
  unfold matchWordDot. destruct (span isWordChar s) as [a b] eqn:Hs.
  apply span_spec in Hs as (-> & Ha & _).
  destruct a as [|c w]; [done|]. destruct b as [|d r]; [done|].
  destruct (Ascii.eqb d dot) eqn:Hd; [|done].
  apply Ascii.eqb_eq in Hd as ->. intros [= <- <-]. by split.
Qed.

Lemma matchWordDot_shorter s k rest :
  matchWordDot s = Some (k, rest) -> String.length rest < String.length s.
Proof.
  intros [_ ->]%matchWordDot_Some. rewrite length_append. simpl. lia.
Qed.

Lemma findAllFrom_Forall (P : string -> Prop) matchAt :
  (forall s k rest, matchAt s = Some (k, rest) -> P k) ->
  forall fuel s, Forall P (findAllFrom matchAt fuel s).
Proof.
  intros HP. induction fuel as [|fuel IH]; intros s; simpl; [by constructor|].
  destruct s as [|c s']; [by constructor|].
  destruct (matchAt (String c s')) as [[k rest]|] eqn:Hm; [|apply IH].
  constructor; [by eapply HP|apply IH].
Qed.

(** Fuel equal to the length of the text is never exhausted: more fuel
    finds the same matches. *)
Lemma findAllFrom_fuel matchAt :
  (forall s k rest, matchAt s = Some (k, rest) ->
     String.length rest < String.length s) ->
  forall fuel s, String.length s <= fuel ->
    findAllFrom matchAt fuel s = findAllFrom matchAt (String.length s) s.
Proof.
  intros Hlt fuel. induction fuel as [fuel IH] using lt_wf_ind.
  intros s Hle. destruct s as [|c s']; [by destruct fuel|].
  destruct fuel as [|fuel]; [simpl in Hle; lia|].
  simpl in Hle. simpl.
  destruct (matchAt (String c s')) as [[k rest]|] eqn:Hm.
  - apply Hlt in Hm. simpl in Hm. f_equal.
    rewrite (IH fuel) by lia.
    symmetry. apply (IH (String.length s')); simpl; lia.
  - apply IH; lia.
Qed.

Lemma pkgMatches_words code : Forall isWord (pkgMatches code).
Proof.
  apply findAllFrom_Forall. intros s k rest H.
  by apply matchWordDot_Some in H as [? _].
Qed.

(** ** Import declarations *)

Lemma isWordChar_not_space c : isWordChar c = true -> c <> " "%char.
Proof. intros H ->. discriminate. Qed.

Lemma isWordChar_not_dquote c : isWordChar c = true -> c <> dquote.
Proof. intros H ->. discriminate. Qed.

Lemma word_before_space k1 k2 r1 r2 :
  all_chars isWordChar k1 = true -> all_chars isWordChar k2 = true ->
  k1 +:+ String " " r1 = k2 +:+ String " " r2 -> k1 = k2.
Proof.
  revert k2. induction k1 as [|c k1 IH]; intros [|d k2] H1 H2 Heq.
  - done.
  - rewrite append_nil_l, append_cons in Heq. injection Heq as <- _.
    rewrite all_chars_cons in H2. apply andb_true_iff in H2 as [H2 _].
    by apply isWordChar_not_space in H2.
  - rewrite append_nil_l, append_cons in Heq. injection Heq as -> _.
    rewrite all_chars_cons in H1. apply andb_true_iff in H1 as [H1 _].
    by apply isWordChar_not_space in H1.
  - rewrite !append_cons in Heq. injection Heq as -> Heq.
    rewrite all_chars_cons in H1, H2.
    apply andb_true_iff in H1 as [_ H1]. apply andb_true_iff in H2 as [_ H2].
    f_equal. by apply IH.
Qed.

Lemma quoted_inj v1 v2 : quoted v1 = quoted v2 -> v1 = v2.
Proof.
  unfold quoted. intros [= H]. revert v2 H.
  induction v1 as [|c v1 IH]; intros [|d v2] H.
  - done.
  - rewrite append_nil_l, append_cons in H. injection H as <- H.
    by destruct v2.
  - rewrite append_nil_l, append_cons in H. injection H as -> H.
    by destruct v1.
  - rewrite !append_cons in H. injection H as -> H. f_equal. by apply IH.
Qed.

(** Distinct identifiers never share a declaration. *)
Lemma formatImport_inj k1 k2 v1 v2 :
  isWord k1 -> isWord k2 ->
  formatImport k1 v1 = formatImport k2 v2 -> k1 = k2.
Proof.
  intros [Hne1 Hw1] [Hne2 Hw2]. unfold formatImport.
  repeat case_bool_decide; unfold aliased.
  - by apply word_before_space.
  - destruct k1 as [|c k1]; [done|]. rewrite append_cons. unfold quoted.
    intros [= -> _]. rewrite all_chars_cons in Hw1.
    apply andb_true_iff in Hw1 as [Hw1 _]. by apply isWordChar_not_dquote in Hw1.
  - destruct k2 as [|c k2]; [done|]. rewrite append_cons. unfold quoted.
    intros [= <- _]. rewrite all_chars_cons in Hw2.
    apply andb_true_iff in Hw2 as [Hw2 _]. by apply isWordChar_not_dquote in Hw2.
  - intros Hv%quoted_inj. subst v2.
    destruct (decide (Base v1 = k1)) as [<-|]; [|contradiction].
    destruct (decide (Base v1 = k2)) as [<-|]; [done|contradiction].
Qed.

Lemma declFor_inj table k1 k2 :
  isWord k1 -> isWord k2 -> declFor table k1 = declFor table k2 -> k1 = k2.
Proof. apply formatImport_inj. Qed.

Lemma declFor_elem_of table k seen :
  isWord k -> Forall isWord seen ->
  declFor table k ∈ declFor table <$> seen <-> k ∈ seen.
Proof.
  intros Hk Hseen. split; [|apply list_elem_of_fmap_2].
  intros (k' & Heq & Hin)%list_elem_of_fmap.
  rewrite Forall_forall in Hseen.
  by rewrite (declFor_inj table k k' Hk (Hseen _ Hin) Heq).
Qed.

(** The loop of lines 60-79, started with the declarations of [seen]. *)
Lemma importLoop_firstSeen table ids seen :
  Forall isWord ids -> Forall isWord seen ->
  foldl (importStep table) (declFor table <$> seen) ids
  = declFor table <$>
      (seen ++ filter (fun k => k ∉ seen) (firstSeen (filter (resolvable table) ids))).
Proof.
  intros Hids. revert seen. induction Hids as [|k ids Hk Hids IH]; intros seen Hseen.
  - simpl. by rewrite app_nil_r.
  - simpl. unfold importStep at 2. fold (resolvable table k).
    rewrite filter_cons. destruct (decide (resolvable table k)) as [Hr|Hr].
    + rewrite bool_decide_true by done. fold (declFor table k).
      unfold appendNew. simpl firstSeen. rewrite filter_cons.
      destruct (decide (k ∈ seen)) as [Hin|Hin].
      * rewrite bool_decide_true by (by apply declFor_elem_of).
        rewrite IH by done. do 2 f_equal.
        destruct (decide (k ∉ seen)); [done|].
        rewrite list_filter_filter. apply list_filter_iff.
        intros x. simpl. split; [|by intros [? _]].
        intros Hx. split; [done|]. by intros ->.
      * rewrite bool_decide_false by (by rewrite declFor_elem_of).
        replace ((declFor table <$> seen) ++ [declFor table k])
          with (declFor table <$> (seen ++ [k])) by (by rewrite fmap_app).
        rewrite IH by (apply Forall_app; auto).
        f_equal. rewrite <- app_assoc. f_equal. simpl.
        destruct (decide (k ∉ seen)); [|done].
        f_equal. rewrite list_filter_filter. apply list_filter_iff.
        intros x. simpl. rewrite elem_of_app, list_elem_of_singleton. tauto.
    + rewrite bool_decide_false by done. by apply IH.
Qed.

Lemma firstSeen_elem_of l x : x ∈ firstSeen l <-> x ∈ l.
Proof.
  induction l as [|y l IH]; [done|]. simpl firstSeen.
  rewrite !elem_of_cons, list_elem_of_filter, IH.
  destruct (decide (x = y)); tauto.
Qed.

Lemma firstSeen_NoDup l : NoDup (firstSeen l).
Proof.
  induction l as [|y l IH]; simpl; constructor.
  - rewrite list_elem_of_filter. by intros [? _].
  - by apply NoDup_filter.
Qed.

Lemma filter_not_in_nil (l : list string) : filter (fun k => k ∉ @nil string) l = l.
Proof.
  induction l as [|x l IH]; [done|].
  rewrite filter_cons, IH. destruct (decide (x ∉ [])) as [|H]; [done|].
  destruct H. apply not_elem_of_nil.
Qed.

Lemma resolveImports_firstSeen table code :
  resolveImports table code
  = declFor table <$> firstSeen (filter (resolvable table) (pkgMatches code)).
Proof.
  unfold resolveImports.
  change (@nil string) with (declFor table <$> []) at 1.
  rewrite importLoop_firstSeen; [|apply pkgMatches_words|done].
  simpl. f_equal. apply filter_not_in_nil.
Qed.

Lemma mergeUserImports_union u base : mergeUserImports (Some u) base = u ∪ base.
Proof.
  unfold mergeUserImports.
  apply (map_fold_weak_ind (fun r (m : gmap string string) => r = m ∪ base)).
  - by rewrite (left_id_L ∅ (∪)).
  - intros i x m r _ ->. by rewrite insert_union_l.
Qed.

Lemma mergeUserImports_lookup_user u base k v :
  u !! k = Some v -> mergeUserImports (Some u) base !! k = Some v.
Proof. intros H. rewrite mergeUserImports_union. by apply lookup_union_Some_l. Qed.

Lemma mergeUserImports_lookup_base u base k :
  u !! k = None -> mergeUserImports (Some u) base !! k = base !! k.
Proof. intros H. rewrite mergeUserImports_union. by apply lookup_union_r. Qed.

(** ** [filepath.Base] on a path that ends in a plain element *)

Lemma take_elem_app l r :
  forallb notSlash l = true -> take_elem (l ++ slash :: r) = l.
Proof.
  induction l as [|c l IH]; simpl; [done|].
  intros [Hc Hl]%andb_true_iff. unfold notSlash in Hc.
  destruct (Ascii.eqb c slash); [done|]. by rewrite IH.
Qed.

Lemma take_elem_all l : forallb notSlash l = true -> take_elem l = l.
Proof.
  induction l as [|c l IH]; simpl; [done|].
  intros [Hc Hl]%andb_true_iff. unfold notSlash in Hc.
  destruct (Ascii.eqb c slash); [done|]. by rewrite IH.
Qed.

Lemma drop_seps_id l r :
  l <> [] -> forallb notSlash l = true -> drop_seps (l ++ r) = l ++ r.
Proof.
  destruct l as [|c l]; [done|]. simpl. intros _ [Hc _]%andb_true_iff.
  unfold notSlash in Hc. by destruct (Ascii.eqb c slash).
Qed.

Lemma forallb_rev {A} (p : A -> bool) l : forallb p (rev l) = forallb p l.
Proof.
  induction l as [|x l IH]; [done|]. simpl.
  rewrite forallb_app, IH. simpl. rewrite andb_true_r. apply andb_comm.
Qed.

Lemma chars_nonempty k : k <> "" -> chars k <> [].
Proof. by destruct k. Qed.

Lemma eqb_nonempty s : s <> "" -> String.eqb s "" = false.
Proof. by destruct s. Qed.

(** After a directory part, [Base] is the last element. *)
Lemma Base_dir_elem d k :
  k <> "" -> all_chars notSlash k = true ->
  Base (d +:+ String slash k) = k.
Proof.
  intros Hne Hk. unfold Base.
  rewrite eqb_nonempty by (by destruct d).
  rewrite chars_append. change (chars (String slash k)) with (slash :: chars k).
  rewrite rev_app_distr. simpl rev. rewrite <- !app_assoc. simpl app.
  assert (rev (chars k) <> []) as Hr.
  { intros H%(f_equal (@rev ascii)). rewrite rev_involutive in H.
    by apply chars_nonempty in Hne. }
  rewrite drop_seps_id by (by rewrite ?forallb_rev).
  rewrite take_elem_app by (by rewrite forallb_rev).
  rewrite rev_involutive, text_chars. by rewrite eqb_nonempty.
Qed.

(** Without a directory part, [Base] is the whole path. *)
Lemma Base_elem k :
  k <> "" -> all_chars notSlash k = true -> Base k = k.
Proof.
  intros Hne Hk. unfold Base. rewrite eqb_nonempty by done.
  assert (rev (chars k) <> []) as Hr.
  { intros H%(f_equal (@rev ascii)). rewrite rev_involutive in H.
    by apply chars_nonempty in Hne. }
  rewrite <- (app_nil_r (rev (chars k))).
  rewrite drop_seps_id by (by rewrite ?forallb_rev).
  rewrite app_nil_r, take_elem_all by (by rewrite forallb_rev).
  rewrite rev_involutive, text_chars. by rewrite eqb_nonempty.
Qed.

(** ** Identifiers in a text *)

Lemma isWordChar_decide c : isWordChar c = bool_decide (isIdentChar c).
Proof.
  unfold isIdentChar.
  destruct c as [[] [] [] [] [] [] [] []]; vm_compute; reflexivity.
Qed.

Lemma isWordChar_isIdentChar c : isWordChar c = true <-> isIdentChar c.
Proof. rewrite isWordChar_decide. apply bool_decide_eq_true. Qed.

Lemma isWord_isIdent k : isWord k <-> isIdent k.
Proof.
  unfold isWord, isIdent, all_chars.
  enough (forallb isWordChar (chars k) = true <-> Forall isIdentChar (chars k)) by tauto.
  induction (chars k) as [|c l IH]; simpl.
  - split; [constructor|done].
  - rewrite andb_true_iff, Forall_cons, IH, isWordChar_isIdentChar. done.
Qed.

Lemma append_split a b c d :
  a +:+ b = c +:+ d -> String.length a <= String.length c ->
  exists m, c = a +:+ m /\ b = m +:+ d.
Proof.
  revert c. induction a as [|x a IH]; intros c Heq Hlen.
  - exists c. by rewrite append_nil_l in *.
  - destruct c as [|y c]; [simpl in Hlen; lia|].
    rewrite !append_cons in Heq. injection Heq as -> Heq.
    simpl in Hlen. destruct (IH c Heq) as (m & -> & ->); [lia|].
    by exists m.
Qed.

Lemma append_inv a b c d :
  a +:+ b = c +:+ d -> String.length a = String.length c -> a = c /\ b = d.
Proof.
  intros Heq Hlen. destruct (append_split a b c d Heq) as (m & -> & ->); [lia|].
  rewrite length_append in Hlen. destruct m; [|simpl in Hlen; lia].
  by rewrite append_nil_r, append_nil_l.
Qed.

Lemma append_last_inj p p' c c' :
  p +:+ String c "" = p' +:+ String c' "" -> p = p' /\ c = c'.
Proof.
  intros H%(f_equal chars). rewrite !chars_append in H.
  change (chars (String c "")) with [c] in H.
  change (chars (String c' "")) with [c'] in H.
  apply app_inj_tail in H as [H ->]. split; [by apply chars_inj|done].
Qed.

Lemma nonempty_last s : s <> "" -> exists p c, s = p +:+ String c "".
Proof.
  induction s as [|x s IH]; [done|]. intros _.
  destruct s as [|y s].
  - by exists "", x.
  - destruct IH as (p & c & ->); [done|]. by exists (String x p), c.
Qed.

Lemma endsInIdentChar_nil : ~ endsInIdentChar "".
Proof. intros ([|x p] & c & H & _); discriminate H. Qed.

Lemma endsInIdentChar_last p c : endsInIdentChar (p +:+ String c "") <-> isIdentChar c.
Proof.
  split.
  - intros (p' & c' & H & Hc). by apply append_last_inj in H as [_ ->].
  - intros Hc. by exists p, c.
Qed.

Lemma endsInIdentChar_app p s :
  s <> "" -> Forall isIdentChar (chars s) -> endsInIdentChar (p +:+ s).
Proof.
  intros (q & c & ->)%nonempty_last Hs.
  rewrite chars_append, Forall_app in Hs. destruct Hs as [_ Hc].
  change (chars (String c "")) with [c] in Hc. rewrite Forall_singleton in Hc.
  exists (p +:+ q), c. split; [by rewrite append_assoc|done].
Qed.

Lemma chars_cons c s : chars (String c s) = c :: chars s.
Proof. reflexivity. Qed.

Lemma span_ident k post :
  Forall isIdentChar (chars k) ->
  span isWordChar (k +:+ String "." post) = (k, String "." post).
Proof.
  induction k as [|c k IH]; intros Hk.
  - reflexivity.
  - rewrite chars_cons in Hk. apply Forall_cons in Hk as [Hc Hk].
    rewrite append_cons. simpl.
    apply isWordChar_isIdentChar in Hc. rewrite Hc. by rewrite IH.
Qed.

(** Two identifiers that are followed by a dot at the same place are one. *)
Lemma ident_dot_inj k1 k2 r1 r2 :
  Forall isIdentChar (chars k1) -> Forall isIdentChar (chars k2) ->
  k1 +:+ String "." r1 = k2 +:+ String "." r2 -> k1 = k2 /\ r1 = r2.
Proof.
  intros H1 H2 Heq.
  pose proof (span_ident k1 r1 H1) as S1. pose proof (span_ident k2 r2 H2) as S2.
  rewrite Heq in S1. rewrite S1 in S2. by injection S2 as -> ->.
Qed.

Lemma matchWordDot_ident s k rest :
  matchWordDot s = Some (k, rest) -> isIdent k /\ s = k +:+ String "." rest.
Proof.
  intros [Hk ->]%matchWordDot_Some. split; [by apply isWord_isIdent|done].
Qed.

Lemma matchWordDot_at k post :
  isIdent k -> matchWordDot (k +:+ String "." post) = Some (k, post).
Proof.
  intros [Hne Hk]. unfold matchWordDot. rewrite span_ident by done.
  destruct k; [done|]. reflexivity.
Qed.

Lemma qualifierAt_offset code n k :
  qualifierAt code n k -> n + String.length k + 1 <= String.length code.
Proof.
  intros (pre & post & -> & <- & _). rewrite !length_append. simpl. lia.
Qed.

Lemma dot_not_ident : ~ isIdentChar ".".
Proof.
  intros H%isWordChar_isIdentChar. discriminate H.
Qed.

Lemma scanFrom_spec fuel pre s :
  String.length s <= fuel -> scanInv pre s ->
  let qs := scanFrom (String.length pre) fuel s in
  StronglySorted byOffset qs
  /\ forall n k, (n, k) ∈ qs <-> String.length pre <= n /\ qualifierAt (pre +:+ s) n k.
Proof.
  revert pre s. induction fuel as [|fuel IH]; intros pre s Hfuel Hinv.
  { destruct s; [|simpl in Hfuel; lia]. simpl. split; [constructor|].
    intros n k. rewrite elem_of_nil. split; [done|].
    intros [Hn Hq%qualifierAt_offset]. rewrite append_nil_r in Hq. lia. }
  destruct s as [|c s'].
  { simpl. split; [constructor|].
    intros n k. rewrite elem_of_nil. split; [done|].
    intros [Hn Hq%qualifierAt_offset]. rewrite append_nil_r in Hq. lia. }
  cbn [scanFrom].
  destruct (matchWordDot (String c s')) as [[k rest]|] eqn:Hm.
  - pose proof Hm as Hm'. apply matchWordDot_ident in Hm' as [Hk Hs].
    pose proof Hk as [Hkne HkF].
    assert (~ endsInIdentChar pre) as Hpre.
    { intros He. specialize (Hinv He). rewrite Hs, span_ident in Hinv by done. done. }
    set (pre' := pre +:+ k +:+ String "." "").
    assert (String.length pre' = String.length pre + String.length k + 1) as Hlen.
    { unfold pre'. rewrite !length_append. simpl. lia. }
    assert (pre +:+ String c s' = pre' +:+ rest) as Hcode.
    { unfold pre'. rewrite Hs, !append_assoc. reflexivity. }
    destruct (IH pre' rest) as [Hsorted Hmem].
    { rewrite Hs, length_append in Hfuel. simpl in Hfuel. lia. }
    { intros He. exfalso. unfold pre' in He. rewrite <- append_assoc in He.
      apply endsInIdentChar_last in He. by apply dot_not_ident. }
    rewrite Hlen in Hsorted, Hmem.
    split.
    + constructor; [done|]. apply Forall_forall. intros [n' k'] Hin.
      apply Hmem in Hin as [Hn _]. unfold byOffset. simpl. lia.
    + intros n k'. rewrite elem_of_cons, Hmem, Hcode. split.
      * intros [[= -> ->] | [Hn Hq]].
        -- split; [done|]. rewrite <- Hcode, Hs. by exists pre, rest.
        -- split; [lia|done].
      * intros [Hn Hq].
        destruct (decide (n = String.length pre)) as [->|Hne].
        -- left. destruct Hq as (pre2 & post2 & Heq & Hl & [_ Hk'] & _).
           rewrite <- Hcode, Hs in Heq.
           apply append_inv in Heq as [_ Heq]; [|done].
           apply ident_dot_inj in Heq as [-> _]; done.
        -- right. split; [|done].
           destruct (decide (String.length pre + String.length k + 1 <= n)); [done|].
           exfalso. destruct Hq as (pre2 & post2 & Heq & Hl & Hk' & Hnot).
           rewrite <- Hcode, Hs in Heq.
           apply append_split in Heq as (mid & -> & Heq); [|lia].
           rewrite length_append in Hl.
           symmetry in Heq.
           apply append_split in Heq as (m2 & -> & _); [|lia].
           apply Hnot. apply endsInIdentChar_app.
           ++ intros ->. simpl in Hl. lia.
           ++ rewrite chars_append, Forall_app in HkF. tauto.
  - destruct (IH (pre +:+ String c "") s') as [Hsorted Hmem].
    { simpl in Hfuel. lia. }
    { intros He%endsInIdentChar_last. apply isWordChar_isIdentChar in He.
      unfold matchWordDot in Hm. simpl in Hm. rewrite He in Hm.
      destruct (span isWordChar s') as [a b]. destruct b as [|d b]; [done|].
      intros ->. discriminate Hm. }
    rewrite length_append in Hsorted, Hmem. simpl in Hsorted, Hmem.
    replace (String.length pre + 1) with (S (String.length pre)) in * by lia.
    rewrite append_assoc in Hmem. simpl in Hmem.
    split; [done|]. intros n k. rewrite Hmem. split.
    + intros [Hn Hq]. split; [lia|done].
    + intros [Hn Hq]. split; [|done].
      destruct (decide (n = String.length pre)) as [->|]; [|lia].
      exfalso. destruct Hq as (pre2 & post2 & Heq & Hl & Hk' & _).
      apply append_inv in Heq as [_ Heq]; [|done].
      rewrite Heq, matchWordDot_at in Hm by done. done.
Qed.

Lemma scanFrom_snd off fuel s :
  (scanFrom off fuel s).*2 = findAllFrom matchWordDot fuel s.
Proof.
  revert off s. induction fuel as [|fuel IH]; intros off s; [done|].
  destruct s as [|c s']; [done|]. cbn [scanFrom findAllFrom].
  destruct (matchWordDot (String c s')) as [[k rest]|]; [|apply IH].
  rewrite fmap_cons. simpl. f_equal. apply IH.
Qed.

(** The matches of the scanner are the qualifiers of the text, in the
    order of their offsets. *)
Lemma pkgMatches_qualifiers code :
  exists qs,
    pkgMatches code = qs.*2
    /\ StronglySorted byOffset qs
    /\ forall n k, (n, k) ∈ qs <-> qualifierAt code n k.
Proof.
  exists (scanFrom 0 (String.length code) code).
  split; [symmetry; apply scanFrom_snd|].
  destruct (scanFrom_spec (String.length code) "" code) as [Hs Hm]; [done| |].
  { intros He. by apply endsInIdentChar_nil in He. }
  simpl in Hs, Hm. split; [done|].
  intros n k. rewrite Hm. split; [tauto|]. intros H. split; [lia|done].
Qed.

Lemma filter_fmap_snd (P : string -> Prop) `{!forall k, Decision (P k)}
    (l : list (nat * string)) :
  filter P l.*2 = (filter (fun q => P q.2) l).*2.
Proof.
  induction l as [|q l IH]; [done|].
  rewrite fmap_cons, !filter_cons. simpl.
  destruct (decide (P q.2)); [rewrite fmap_cons|]; by rewrite IH.
Qed.

Lemma StronglySorted_filter {A} (R : A -> A -> Prop) (P : A -> Prop)
    `{!forall x, Decision (P x)} (l : list A) :
  StronglySorted R l -> StronglySorted R (filter P l).
Proof.
  induction 1 as [|x l Hl IH Hx]; [constructor|].
  rewrite filter_cons. destruct (decide (P x)); [|done].
  constructor; [done|]. apply Forall_forall. intros y [_ Hy]%list_elem_of_filter.
  by apply (proj1 (Forall_forall _ _) Hx).
Qed.

(** The first-seen elements of a list of matches, with the offset of
    each: the matches of least offset. *)
Lemma firstSeen_offsets (res : string -> Prop) `{!forall k, Decision (res k)}
    (qs : list (nat * string)) :
  StronglySorted byOffset qs ->
  exists refs,
    firstSeen (filter res qs.*2) = refs.*2
    /\ StronglySorted byOffset refs
    /\ forall n k, (n, k) ∈ refs
         <-> (n, k) ∈ qs /\ res k /\ forall m, (m, k) ∈ qs -> n <= m.
Proof.
  induction 1 as [|[n0 k0] qs Hqs IH Hhd].
  { exists []. split; [done|]. split; [constructor|].
    intros n k. rewrite elem_of_nil. tauto. }
  destruct IH as (refs & Hfs & Hsorted & Hmem).
  rewrite Forall_forall in Hhd.
  rewrite fmap_cons, filter_cons. cbn [snd].
  destruct (decide (res k0)) as [Hr|Hr].
  - exists ((n0, k0) :: filter (fun q => q.2 <> k0) refs).
    split; [|split].
    + simpl firstSeen. rewrite fmap_cons. cbn [snd]. f_equal.
      rewrite Hfs. apply filter_fmap_snd.
    + constructor; [by apply StronglySorted_filter|].
      apply Forall_forall. intros [n k] [_ Hin]%list_elem_of_filter.
      apply Hmem in Hin as (Hin & _). by apply Hhd.
    + intros n k. rewrite elem_of_cons, list_elem_of_filter, Hmem. cbn [snd]. split.
      * intros [[= -> ->] | (Hk & Hin & Hres & Hmin)].
        -- split; [by left|]. split; [done|].
           intros m [[= ->] | Hin]%elem_of_cons; [done|].
           apply Hhd in Hin. unfold byOffset in Hin. simpl in Hin. lia.
        -- split; [by right|]. split; [done|].
           intros m [[= -> ->] | Hin']%elem_of_cons; [done|]. by apply Hmin.
      * intros (Hin & Hres & Hmin).
        destruct (decide (k = k0)) as [->|Hk].
        -- left. apply elem_of_cons in Hin as [[= ->] | Hin]; [done|].
           apply Hhd in Hin. unfold byOffset in Hin. simpl in Hin.
           assert (n <= n0) by (apply Hmin; by left). lia.
        -- right. split; [done|].
           apply elem_of_cons in Hin as [[= -> ->] | Hin]; [done|].
           split; [done|]. split; [done|]. intros m Hm. apply Hmin. by right.
  - exists refs. split; [done|]. split; [done|].
    intros n k. rewrite Hmem. split.
    + intros (Hin & Hres & Hmin). split; [by right|]. split; [done|].
      intros m [[= -> ->] | Hin']%elem_of_cons; [done|]. by apply Hmin.
    + intros (Hin & Hres & Hmin).
      apply elem_of_cons in Hin as [[= -> ->] | Hin]; [done|].
      split; [done|]. split; [done|]. intros m Hm. apply Hmin. by right.
Qed.

(** ** The trailing segment of a path *)

Lemma lastSegment_slashes t cur best :
  all_chars isSlash t = true ->
  lastSegment cur best t = if bool_decide (cur = "") then best else cur.
Proof.
  revert cur best. induction t as [|c t IH]; intros cur best Ht; [done|].
  rewrite all_chars_cons in Ht. apply andb_true_iff in Ht as [Hc Ht].
  unfold isSlash in Hc. simpl. rewrite Hc. rewrite IH by done. done.
Qed.

Lemma lastSegment_elem e cur best rest :
  all_chars notSlash e = true ->
  lastSegment cur best (e +:+ rest) = lastSegment (cur +:+ e) best rest.
Proof.
  revert cur. induction e as [|c e IH]; intros cur He.
  - by rewrite append_nil_l, append_nil_r.
  - rewrite all_chars_cons in He. apply andb_true_iff in He as [Hc He].
    rewrite append_cons. simpl. unfold notSlash, slash in Hc.
    destruct (Ascii.eqb c "/"); [done|].
    rewrite IH by done. by rewrite append_assoc.
Qed.

Lemma lastSegment_dir d cur best rest :
  exists best', lastSegment cur best ((d +:+ String "/" "") +:+ rest)
                = lastSegment "" best' rest.
Proof.
  revert cur best. induction d as [|c d IH]; intros cur best.
  - simpl. eauto.
  - rewrite !append_cons. simpl. destruct (Ascii.eqb c "/"); apply IH.
Qed.

(** A path is made of slashes only, or it has a last segment that is not
    empty: a directory part, the segment, and slashes after it. *)
Lemma path_segments v :
  all_chars isSlash v = true
  \/ exists d e t,
       v = d +:+ e +:+ t /\ e <> "" /\ all_chars notSlash e = true
       /\ all_chars isSlash t = true
       /\ (d = "" \/ exists d', d = d' +:+ String "/" "").
Proof.
  induction v as [|c v IH]; [by left|].
  destruct (Ascii.eqb c "/") eqn:Hc.
  - apply Ascii.eqb_eq in Hc as ->.
    destruct IH as [Hv | (d & e & t & -> & He & Hes & Ht & Hd)].
    + left. by rewrite all_chars_cons, Hv.
    + right. exists (String "/" d), e, t. repeat split; try done.
      right. destruct Hd as [-> | [d' ->]]; [by exists ""|by exists (String "/" d')].
  - right. destruct IH as [Hv | (d & e & t & -> & He & Hes & Ht & Hd)].
    + exists "", (String c ""), v. repeat split; try done; [|by left].
      rewrite all_chars_cons. unfold notSlash, slash. by rewrite Hc.
    + destruct Hd as [-> | [d' ->]].
      * exists "", (String c e), t. repeat split; try done; [|by left].
        rewrite all_chars_cons, Hes. unfold notSlash, slash. by rewrite Hc.
      * exists (String c d' +:+ String "/" ""), e, t. repeat split; try done.
        right. by exists (String c d').
Qed.

Lemma trailingSegment_slashes v :
  all_chars isSlash v = true -> trailingSegment v = "".
Proof. intros Hv. unfold trailingSegment. by rewrite lastSegment_slashes. Qed.

Lemma trailingSegment_segments d e t :
  e <> "" -> all_chars notSlash e = true -> all_chars isSlash t = true ->
  d = "" \/ (exists d', d = d' +:+ String "/" "") ->
  trailingSegment (d +:+ e +:+ t) = e.
Proof.
  intros He Hes Ht Hd. unfold trailingSegment.
  assert (forall best, lastSegment "" best (e +:+ t) = e) as Hrest.
  { intros best. rewrite lastSegment_elem by done. rewrite append_nil_l.
    rewrite lastSegment_slashes by done. by rewrite bool_decide_false. }
  destruct Hd as [-> | [d' ->]].
  - rewrite append_nil_l. apply Hrest.
  - destruct (lastSegment_dir d' "" "" (e +:+ t)) as [best' ->]. apply Hrest.
Qed.

Lemma drop_seps_slashes l r :
  forallb isSlash l = true -> drop_seps (l ++ r) = drop_seps r.
Proof.
  induction l as [|c l IH]; [done|]. simpl.
  intros [Hc Hl]%andb_true_iff. unfold isSlash in Hc. unfold slash.
  rewrite Hc. by apply IH.
Qed.

Lemma drop_seps_all l : forallb isSlash l = true -> drop_seps l = [].
Proof.
  intros H. rewrite <- (app_nil_r l). by rewrite drop_seps_slashes.
Qed.

Lemma Base_slashes v :
  all_chars isSlash v = true -> Base v = "." \/ Base v = "/".
Proof.
  intros Hv. unfold Base. destruct v as [|c v]; [by left|]. right.
  rewrite eqb_nonempty by done.
  rewrite drop_seps_all; [done|]. by rewrite forallb_rev.
Qed.

Lemma Base_segments d e t :
  e <> "" -> all_chars notSlash e = true -> all_chars isSlash t = true ->
  d = "" \/ (exists d', d = d' +:+ String "/" "") ->
  Base (d +:+ e +:+ t) = e.
Proof.
  intros He Hes Ht Hd. unfold Base.
  rewrite eqb_nonempty; cycle 1.
  { intros H%(f_equal String.length). rewrite !length_append in H.
    destruct e; [done|]. simpl in H. lia. }
  rewrite !chars_append, !rev_app_distr, <- app_assoc.
  rewrite drop_seps_slashes by (by rewrite forallb_rev).
  assert (rev (chars e) <> []) as Hr.
  { intros H%(f_equal (@rev ascii)). rewrite rev_involutive in H.
    by apply chars_nonempty in He. }
  rewrite drop_seps_id by (by rewrite ?forallb_rev).
  assert (take_elem (rev (chars e) ++ rev (chars d)) = rev (chars e)) as ->.
  { destruct Hd as [-> | [d' ->]].
    - simpl. rewrite app_nil_r. apply take_elem_all. by rewrite forallb_rev.
    - rewrite chars_append, rev_app_distr. simpl.
      apply take_elem_app. by rewrite forallb_rev. }
  rewrite rev_involutive, text_chars. by rewrite eqb_nonempty.
Qed.

(** [filepath.Base] gives the trailing segment, and [.] or [/] when
    there is none. *)
Lemma Base_trailingSegment v :
  (trailingSegment v <> "" /\ Base v = trailingSegment v)
  \/ (trailingSegment v = "" /\ (Base v = "." \/ Base v = "/")).
Proof.
  destruct (path_segments v) as [Hv | (d & e & t & -> & He & Hes & Ht & Hd)].
  - right. split; [by apply trailingSegment_slashes|by apply Base_slashes].
  - left. rewrite trailingSegment_segments, Base_segments by done. done.
Qed.

Lemma ident_not_dot_slash k : isIdent k -> k <> "." /\ k <> "/".
Proof.
  intros [_ Hk]. split; intros ->; apply Forall_cons in Hk as [Hc _];
    apply isWordChar_isIdentChar in Hc; discriminate Hc.
Qed.

Lemma Base_is_ident v k : isIdent k -> Base v = k <-> trailingSegment v = k.
Proof.
  intros Hk. pose proof (ident_not_dot_slash k Hk) as [H1 H2].
  destruct Hk as [Hne _].
  destruct (Base_trailingSegment v) as [[Ht Hb] | [Ht [Hb | Hb]]]; rewrite ?Hb, ?Ht.
  - done.
  - split; intros H; congruence.
  - split; intros H; congruence.
Qed.

Lemma quoted_inQuotes v : quoted v = inQuotes v.
Proof.
  unfold quoted, inQuotes. apply chars_inj.
  rewrite chars_text. rewrite chars_cons, chars_append. reflexivity.
Qed.

(** The declaration the program formats is the declaration as the claim
    words it. *)
Lemma formatImport_declaration k v :
  isIdent k -> formatImport k v = importDeclaration k v.
Proof.
  intros Hk. unfold formatImport, importDeclaration.
  destruct (decide (trailingSegment v = k)) as [Ht|Ht].
  - rewrite bool_decide_false by (rewrite Base_is_ident by done; tauto).
    rewrite bool_decide_true by done. apply quoted_inQuotes.
  - rewrite bool_decide_true by (by rewrite Base_is_ident).
    rewrite bool_decide_false by done.
    unfold aliased. rewrite quoted_inQuotes. apply chars_inj.
    by rewrite chars_text, chars_append, chars_cons.
Qed.

(** ** The import list, entry by entry *)

Lemma resolvable_hasPath table k :
  resolvable table k <-> exists v, hasPath table k v.
Proof.
  unfold resolvable, hasPath, mapIndex. destruct (table !! k) as [v|]; simpl.
  - split; [by exists v|]. by intros (v' & [= <-] & H).
  - split; [done|]. by intros (v' & H & _).
Qed.

Lemma declFor_hasPath table k v :
  isIdent k -> hasPath table k v -> declFor table k = importDeclaration k v.
Proof.
  intros Hk [Hv _]. unfold declFor, mapIndex. rewrite Hv. simpl.
  by apply formatImport_declaration.
Qed.

(** The import list, entry by entry: the first references of the
    identifiers that have a path, in the order of their offsets. *)
Lemma resolveImports_offsets table code :
  exists refs : list (nat * string),
    resolveImports table code = declFor table <$> refs.*2
    /\ StronglySorted byOffset refs
    /\ NoDup refs.*2
    /\ forall n k, (n, k) ∈ refs <-> firstReference code k n /\ resolvable table k.
Proof.
  destruct (pkgMatches_qualifiers code) as (qs & Hqs & Hsorted & Hmem).
  destruct (firstSeen_offsets (resolvable table) qs Hsorted) as (refs & Hfs & Hs & Hin).
  exists refs. rewrite resolveImports_firstSeen, Hqs, Hfs.
  split; [done|]. split; [done|].
  split; [rewrite <- Hfs; apply firstSeen_NoDup|].
  intros n k. rewrite Hin, Hmem. unfold firstReference.
  split.
  - intros (Hq & Hr & Hmin). split; [split; [done|]|done].
    intros m Hm. apply Hmin. by apply Hmem.
  - intros ((Hq & Hmin) & Hr). split; [done|]. split; [done|].
    intros m Hm. apply Hmin. by apply Hmem.
Qed.

Lemma elem_of_resolveImports table code d :
  d ∈ resolveImports table code
  <-> exists k, references code k /\ resolvable table k /\ d = declFor table k.
Proof.
  destruct (pkgMatches_qualifiers code) as (qs & Hqs & _ & Hmem).
  rewrite resolveImports_firstSeen, list_elem_of_fmap.
  split.
  - intros (k & -> & Hk). exists k.
    apply firstSeen_elem_of, list_elem_of_filter in Hk as [Hr Hk].
    rewrite Hqs in Hk. apply list_elem_of_fmap in Hk as ([n k'] & -> & Hk).
    split; [|done]. exists n. by apply Hmem.
  - intros (k & [n Hn] & Hr & ->). exists k. split; [done|].
    apply firstSeen_elem_of, list_elem_of_filter. split; [done|].
    rewrite Hqs. apply list_elem_of_fmap. exists (n, k). split; [done|]. by apply Hmem.
Qed.

Lemma references_ident code k : references code k -> isIdent k.
Proof. by intros (n & pre & post & _ & _ & Hk & _). Qed.

Lemma formatImport_inj_path k v1 v2 :
  isWord k -> formatImport k v1 = formatImport k v2 -> v1 = v2.
Proof.
  intros [Hne Hw]. unfold formatImport.
  repeat case_bool_decide; unfold aliased.
  - intros Heq. apply append_inv in Heq as [_ Heq]; [|done].
    apply quoted_inj. congruence.
  - destruct k as [|c k]; [done|]. rewrite append_cons. unfold quoted.
    intros [= -> _]. rewrite all_chars_cons in Hw.
    apply andb_true_iff in Hw as [Hw _]. by apply isWordChar_not_dquote in Hw.
  - destruct k as [|c k]; [done|]. rewrite append_cons. unfold quoted.
    intros [= <- _]. rewrite all_chars_cons in Hw.
    apply andb_true_iff in Hw as [Hw _]. by apply isWordChar_not_dquote in Hw.
  - apply quoted_inj.
Qed.

(** ** The claims on import resolution *)

(** C5: the import list of a fragment is made of the declarations of the
    identifiers that the fragment references and that have a path in the
    table, one for each such identifier however many times it is
    referenced, in the order of the offsets at which the fragment text
    first references them. *)
Theorem C5_one_import_per_identifier (table : gmap string string) (code : string) :
  exists refs : list (nat * string),
    Forall2 (fun d r => exists v, hasPath table r.2 v /\ d = importDeclaration r.2 v)
      (resolveImports table code) refs
    /\ StronglySorted byOffset refs
    /\ (forall n k, (n, k) ∈ refs
          <-> firstReference code k n /\ exists v, hasPath table k v)
    /\ (forall k v, references code k -> hasPath table k v ->
          exists n, (n, k) ∈ refs)
    /\ NoDup refs.*2
    /\ NoDup (resolveImports table code).
Proof.
  destruct (resolveImports_offsets table code) as (refs & Heq & Hsorted & Hnodup & Hmem).
  assert (forall n k, (n, k) ∈ refs -> isIdent k) as Hident.
  { intros n k [[Hq _] _]%Hmem. apply (references_ident code). by exists n. }
  assert (forall k, k ∈ refs.*2 -> isWord k) as Hword.
  { intros k ([n k'] & -> & Hin)%list_elem_of_fmap. apply isWord_isIdent. eauto. }
  exists refs. split; [|split; [done|split; [|split; [|split; [done|]]]]].
  - assert (Forall (fun r => isIdent r.2 /\ exists v, hasPath table r.2 v) refs) as HF.
    { apply Forall_forall. intros [n k] Hin. split; [eauto|].
      apply Hmem in Hin as [_ Hr]. by apply resolvable_hasPath. }
    rewrite Heq. clear -HF.
    induction HF as [|[n k] refs [Hk [v Hv]] _ IH]; [constructor|].
    rewrite !fmap_cons. constructor; [|done].
    exists v. split; [done|]. by apply declFor_hasPath.
  - intros n k. rewrite Hmem. by rewrite resolvable_hasPath.
  - intros k v Href Hv.
    assert (declFor table k ∈ resolveImports table code) as Hd.
    { apply elem_of_resolveImports. exists k. split; [done|]. split; [|done].
      apply resolvable_hasPath. by exists v. }
    rewrite Heq in Hd. apply list_elem_of_fmap in Hd as (k' & Hd & Hin).
    apply declFor_inj in Hd;
      [|by apply isWord_isIdent, (references_ident code)|by apply Hword].
    subst k'. apply list_elem_of_fmap in Hin as ([n k'] & -> & Hin). by exists n.
  - rewrite Heq. apply NoDup_fmap_2_strong; [|done].
    intros k1 k2 H1 H2. apply declFor_inj; by apply Hword.
Qed.

(** C6: when an identifier that a fragment references is a key of both
    the built-in table and the user's table, the merged table holds the
    user's path for it, the import list of the fragment has the
    declaration written with the user's path, and it has no declaration
    of that identifier written with the path of the built-in table. *)
Theorem C6_user_alias_precedence (u base : gmap string string)
    (k vu vb code : string) :
  u !! k = Some vu -> base !! k = Some vb -> references code k ->
  let merged := mergeUserImports (Some u) base in
  merged !! k = Some vu
  /\ (vu <> "" -> importDeclaration k vu ∈ resolveImports merged code)
  /\ (vb <> vu -> importDeclaration k vb ∉ resolveImports merged code).
Proof.
  intros Hu Hb Href merged.
  pose proof (references_ident code k Href) as Hk.
  assert (merged !! k = Some vu) as Hm by (by apply mergeUserImports_lookup_user).
  assert (declFor merged k = importDeclaration k vu) as Hd.
  { unfold declFor, mapIndex. rewrite Hm. by apply formatImport_declaration. }
  split; [done|]. split.
  - intros Hne. apply elem_of_resolveImports. exists k.
    split; [done|]. split; [|done].
    unfold resolvable, mapIndex. by rewrite Hm.
  - intros Hne (k' & Href' & _ & Heq)%elem_of_resolveImports.
    rewrite <- formatImport_declaration in Heq by done.
    pose proof (references_ident code k' Href') as Hk'.
    assert (k = k') as <-.
    { apply (formatImport_inj k k' vb (mapIndex merged k'));
        [by apply isWord_isIdent|by apply isWord_isIdent|exact Heq]. }
    unfold declFor, mapIndex in Heq. rewrite Hm in Heq. simpl in Heq.
    apply formatImport_inj_path in Heq; [done|by apply isWord_isIdent].
Qed.

Lemma references_here k post : isIdent k -> references (k +:+ String "." post) k.
Proof.
  intros Hk. exists 0, "", post. split; [done|]. split; [done|]. split; [done|].
  apply endsInIdentChar_nil.
Qed.

Lemma C6_user_alias_precedence_witness :
  let merged := mergeUserImports (Some {["re" := "example.com/re2"]}) {["re" := "regexp"]} in
  merged !! "re" = Some "example.com/re2"
  /\ ("example.com/re2" <> "" ->
      importDeclaration "re" "example.com/re2" ∈ resolveImports merged "re.Match(x)")
  /\ ("regexp" <> "example.com/re2" ->
      importDeclaration "re" "regexp" ∉ resolveImports merged "re.Match(x)").
Proof.
  apply (C6_user_alias_precedence {["re" := "example.com/re2"]} {["re" := "regexp"]}
           "re" "example.com/re2" "regexp" "re.Match(x)").
  - reflexivity.
  - reflexivity.
  - apply (references_here "re" "Match(x)"), isWord_isIdent. split; [done|reflexivity].
Defined.

(** C7: for an identifier that the alias table maps to a path, the
    declaration the resolver forms is the path between double quotes when
    the trailing segment of the path is the identifier, and the
    identifier, a space and the path between double quotes otherwise; it
    is the declaration that stands in the import list of every fragment
    that references the identifier. *)
Theorem C7_declaration_format (table : gmap string string) (k v : string) :
  table !! k = Some v -> v <> "" -> isIdent k ->
  let decl :=
    if bool_decide (trailingSegment v = k)
    then text ("034"%char :: chars v ++ ["034"%char])
    else text (chars k ++ " "%char :: "034"%char :: chars v ++ ["034"%char]) in
  importStep table [] k = [decl]
  /\ forall code, references code k -> decl ∈ resolveImports table code.
Proof.
  intros Hk Hv Hident decl.
  assert (mapIndex table k = v) as Hm by (unfold mapIndex; by rewrite Hk).
  assert (declFor table k = decl) as Hd.
  { unfold declFor. rewrite Hm, formatImport_declaration by done.
    unfold decl, importDeclaration, inQuotes. case_bool_decide; [done|].
    by rewrite chars_text. }
  split.
  - unfold importStep. rewrite Hm, bool_decide_true by done.
    unfold appendNew. rewrite bool_decide_false by apply not_elem_of_nil.
    simpl. f_equal. unfold declFor in Hd. by rewrite Hm in Hd.
  - intros code Href. apply elem_of_resolveImports. exists k.
    split; [done|]. split; [|done]. unfold resolvable. by rewrite Hm.
Qed.

Lemma C7_declaration_format_witness :
  let decl :=
    if bool_decide (trailingSegment "regexp" = "re")
    then text ("034"%char :: chars "regexp" ++ ["034"%char])
    else text (chars "re" ++ " "%char :: "034"%char :: chars "regexp" ++ ["034"%char]) in
  importStep {["re" := "regexp"]} [] "re" = [decl]
  /\ forall code, references code "re" -> decl ∈ resolveImports {["re" := "regexp"]} code.
Proof.
  apply (C7_declaration_format {["re" := "regexp"]} "re" "regexp").
  - reflexivity.
  - done.
  - apply isWord_isIdent. split; [done|reflexivity].
Defined.

(** Both forms, on the two kinds of entry, and a path that ends in a
    slash. *)
Example declaration_texts :
  resolveImports {["script" := "github.com/bitfield/script"]} "script.Echo()"
    = [text ("034"%char :: chars "github.com/bitfield/script" ++ ["034"%char])]
  /\ resolveImports {["re" := "regexp"]} "re.Match()"
    = [text (chars "re " ++ "034"%char :: chars "regexp" ++ ["034"%char])]
  /\ resolveImports {["script" := "github.com/bitfield/script/"]} "script.Echo()"
    = [text ("034"%char :: chars "github.com/bitfield/script/" ++ ["034"%char])].
Proof. repeat split; vm_compute; reflexivity. Qed.

(** A fragment that references [script] three times and [re] twice. *)
Example resolveImports_repeated :
  resolveImports
    (<["script" := "github.com/bitfield/script"]> (<["re" := "regexp"]> ∅))
    "re.Match(x); script.Echo(script.Args()).Stdout(); re.Y; script.Z"
  = [aliased "re" "regexp"; quoted "github.com/bitfield/script"].
Proof. vm_compute. reflexivity. Qed.

(** Both forms, on the two kinds of entry. *)
Example declaration_forms :
  declFor {["script" := "github.com/bitfield/script"]} "script"
    = quoted "github.com/bitfield/script"
  /\ declFor {["re" := "regexp"]} "re" = aliased "re" "regexp".
Proof. split; vm_compute; reflexivity. Qed.

(** ** Reading a source file *)

Lemma keepLoop_joinLines buf lines :
  foldl keepLine buf lines
  = buf +:+ joinLines (filter (fun l => ~ isShebang l) lines).
Proof.
  revert buf. induction lines as [|l lines IH]; intros buf; simpl.
  - by rewrite append_nil_r.
  - rewrite IH, filter_cons. unfold keepLine.
    destruct (decide (~ isShebang l)) as [H|H]; unfold isShebang in H.
    + destruct (HasPrefix l "#!"); [done|]. simpl. by rewrite !append_assoc.
    + destruct (HasPrefix l "#!"); [done|]. by destruct H.
Qed.

Lemma splitLines_line cur l rest :
  noNewline l ->
  splitLines cur (l +:+ nl +:+ rest) = (cur +:+ l) :: splitLines "" rest.
Proof.
  revert cur. induction l as [|c l IH]; intros cur Hl.
  - rewrite append_nil_l, append_nil_r. simpl. done.
  - unfold noNewline in Hl. rewrite all_chars_cons in Hl.
    apply andb_true_iff in Hl as [Hc Hl]. rewrite append_cons. simpl.
    unfold notNewline in Hc. destruct (Ascii.eqb c newline); [done|].
    rewrite IH by done. by rewrite append_assoc.
Qed.

Lemma linesOf_joinLines ls : Forall noNewline ls -> linesOf (joinLines ls) = ls.
Proof.
  unfold linesOf. induction 1 as [|l ls Hl _ IH]; [done|].
  simpl. by rewrite splitLines_line, IH.
Qed.

Lemma all_chars_rev_app p s acc :
  all_chars p (String.rev_app s acc) = all_chars p s && all_chars p acc.
Proof.
  revert acc. induction s as [|c s IH]; intros acc; simpl; [done|].
  rewrite IH, !all_chars_cons. by destruct (p c), (all_chars p s).
Qed.

Lemma all_chars_rev p s : all_chars p (String.rev s) = all_chars p s.
Proof. unfold String.rev. rewrite all_chars_rev_app. apply andb_true_r. Qed.

Lemma dropCR_noNewline raw : noNewline raw -> noNewline (dropCR raw).
Proof.
  unfold noNewline, dropCR. intros H.
  destruct (String.rev raw) as [|c r] eqn:Hr; [done|].
  destruct (Ascii.eqb c carriage_return); [|done].
  rewrite all_chars_rev. rewrite <- all_chars_rev, Hr, all_chars_cons in H.
  by apply andb_true_iff in H as [_ H].
Qed.

Lemma scanLines_noNewline fuel data :
  Forall noNewline (scanLines fuel data).1.
Proof.
  revert data. induction fuel as [|fuel IH]; intros data; [by constructor|].
  destruct data as [|c data]; [by constructor|].
  cbn [scanLines].
  destruct (span notNewline (String c data)) as [raw rest] eqn:Hs.
  destruct (tooLong raw); [by constructor|].
  specialize (IH match rest with String _ rest' => rest' | "" => "" end).
  destruct (scanLines fuel _) as [ls err]. cbn [fst] in *.
  constructor; [|done]. apply dropCR_noNewline.
  by apply span_spec in Hs as (_ & ? & _).
Qed.

(** ** Errors *)

Lemma check_nil errLevel customMsg w : check None errLevel customMsg w = Ret false w.
Proof. reflexivity. Qed.

Lemma check_report msg customMsg w :
  check (Some msg) 1 customMsg w = Ret true (add_stderr (checkMessage customMsg msg) w).
Proof. reflexivity. Qed.

Lemma check_fatal msg customMsg w :
  check (Some msg) 2 customMsg w = Exit 1 (add_stderr (checkMessage customMsg msg) w).
Proof. reflexivity. Qed.

Lemma check_deferred msg customMsg w :
  check (Some msg) 0 customMsg w
  = Ret true (add_savedError
      (if bool_decide (customMsg <> "")
       then TrimSpace customMsg +:+ nl +:+ msg +:+ nl else msg) w).
Proof. reflexivity. Qed.

(** What [readSourceFile] does, case by case. *)
Lemma readSourceFile_missing filename w :
  files w !! filename = None ->
  readSourceFile filename w
  = Exit 1 (add_stderr (AsFormat (errNotExist "open" filename +:+ nl)) w).
Proof.
  intros H. unfold readSourceFile, bind, os_Open, gets. rewrite H. reflexivity.
Qed.

Lemma readSourceFile_read filename data lines w :
  files w !! filename = Some data -> scanFile data = (lines, None) ->
  readSourceFile filename w
  = Ret (joinLines (filter (fun l => ~ isShebang l) lines)) w.
Proof.
  intros H Hs. unfold readSourceFile, bind, os_Open, gets. rewrite H.
  rewrite check_nil, Hs, check_nil. unfold ret.
  by rewrite keepLoop_joinLines.
Qed.

Lemma readSourceFile_too_long filename data lines e w :
  files w !! filename = Some data -> scanFile data = (lines, Some e) ->
  readSourceFile filename w = Exit 1 (add_stderr (AsFormat (e +:+ nl)) w).
Proof.
  intros H Hs. unfold readSourceFile, bind, os_Open, gets. rewrite H.
  rewrite check_nil, Hs. reflexivity.
Qed.

Lemma readSourceFile_Ret filename w buf w' :
  readSourceFile filename w = Ret buf w' ->
  exists data lines,
    files w !! filename = Some data /\ scanFile data = (lines, None)
    /\ buf = joinLines (filter (fun l => ~ isShebang l) lines) /\ w' = w.
Proof.
  intros H. destruct (files w !! filename) as [data|] eqn:Hf.
  - destruct (scanFile data) as [lines [e|]] eqn:Hs.
    + by rewrite (readSourceFile_too_long _ _ _ _ _ Hf Hs) in H.
    + rewrite (readSourceFile_read _ _ _ _ Hf Hs) in H.
      injection H as <- <-. eauto 6.
  - by rewrite readSourceFile_missing in H.
Qed.

Lemma Goscripts_readSourceFile_Ret filename w buf w' :
  Goscripts.readSourceFile filename w = Ret buf w' ->
  exists data lines,
    files w !! filename = Some data /\ scanFile data = (lines, None)
    /\ buf = joinLines (filter (fun l => ~ isShebang l) lines) /\ w' = w.
Proof.
  unfold Goscripts.readSourceFile, bind, os_Open, gets.
  destruct (files w !! filename) as [data|] eqn:Hf; [|done].
  simpl. destruct (scanFile data) as [lines [e|]] eqn:Hs; [done|].
  simpl. unfold ret. intros [= <- <-].
  exists data, lines. by rewrite keepLoop_joinLines.
Qed.

Lemma scanFile_noNewline data : Forall noNewline (scanFile data).1.
Proof. apply scanLines_noNewline. Qed.

(** The fragment read from scanned lines. *)
Lemma fragment_lines lines :
  Forall noNewline lines ->
  let buf := joinLines (filter (fun l => ~ isShebang l) lines) in
  linesOf buf = filter (fun l => ~ isShebang l) lines
  /\ Forall (fun l => ~ isShebang l) (linesOf buf)
  /\ buf = joinLines (linesOf buf).
Proof.
  intros Hn buf.
  assert (linesOf buf = filter (fun l => ~ isShebang l) lines) as ->.
  { apply linesOf_joinLines. rewrite Forall_forall in Hn. apply Forall_forall.
    intros l [_ Hl]%list_elem_of_filter. by apply Hn. }
  split; [done|]. split; [|done].
  apply Forall_forall. by intros l [? _]%list_elem_of_filter.
Qed.

(** C10: a fragment read from a file is made of the scanned lines of the
    file that do not begin with [#!], wherever such a line stands in the
    file, each followed by a newline; this holds for [readSourceFile] of
    both drivers. *)
Theorem C10_shebang_lines_removed (filename : string) (w w' : World) (buf : string) :
  readSourceFile filename w = Ret buf w'
  \/ Goscripts.readSourceFile filename w = Ret buf w' ->
  exists data,
    files w !! filename = Some data
    /\ buf = joinLines (filter (fun l => ~ isShebang l) (scanFile data).1)
    /\ linesOf buf = filter (fun l => ~ isShebang l) (scanFile data).1
    /\ Forall (fun l => ~ isShebang l) (linesOf buf)
    /\ buf = joinLines (linesOf buf).
Proof.
  intros H.
  assert (exists data lines,
    files w !! filename = Some data /\ scanFile data = (lines, None)
    /\ buf = joinLines (filter (fun l => ~ isShebang l) lines) /\ w' = w)
    as (data & lines & Hf & Hs & -> & _).
  { destruct H as [H|H];
      [by apply readSourceFile_Ret|by apply Goscripts_readSourceFile_Ret]. }
  exists data. rewrite Hs. cbn [fst].
  split; [done|]. split; [done|].
  apply fragment_lines. generalize (scanFile_noNewline data). by rewrite Hs.
Qed.

Lemma C10_shebang_lines_removed_witness :
  exists data,
    files (withFiles {["/tmp/s.go" := sampleScript]}) !! "/tmp/s.go" = Some data
    /\ "package main" +:+ nl +:+ "func main() {}" +:+ nl
       = joinLines (filter (fun l => ~ isShebang l) (scanFile data).1)
    /\ linesOf ("package main" +:+ nl +:+ "func main() {}" +:+ nl)
       = filter (fun l => ~ isShebang l) (scanFile data).1
    /\ Forall (fun l => ~ isShebang l)
         (linesOf ("package main" +:+ nl +:+ "func main() {}" +:+ nl))
    /\ "package main" +:+ nl +:+ "func main() {}" +:+ nl
       = joinLines (linesOf ("package main" +:+ nl +:+ "func main() {}" +:+ nl)).
Proof.
  apply (C10_shebang_lines_removed "/tmp/s.go"
           (withFiles {["/tmp/s.go" := sampleScript]})
           (withFiles {["/tmp/s.go" := sampleScript]})).
  left. vm_compute. reflexivity.
Defined.

(** ** Formatting *)

Lemma TrimSpace_formatting_failed :
  TrimSpace "Code formatting failed" = "Code formatting failed".
Proof. vm_compute. reflexivity. Qed.

Lemma formatCode_ok tc buf formatted w :
  format_Source tc buf = inr formatted -> formatCode tc buf w = Ret formatted w.
Proof. intros H. unfold formatCode. rewrite H. reflexivity. Qed.

(** C4: when the formatter fails on a rendered source, [formatCode] keeps
    the rendering unchanged and returns normally, so the run goes on to
    compilation; but the failure is written to the error stream at once
    (level 1 of [check]) and nothing is added to [savedErrors], the list
    of the messages deferred to the end of the run. *)
Theorem C4_format_failure_reported_at_once (tc : Toolchain) (buf e : string) (w : World) :
  format_Source tc buf = inl e ->
  formatCode tc buf w
    = Ret buf (add_stderr (Plain ("Code formatting failed" +:+ nl +:+ e +:+ nl)) w)
  /\ savedErrors (world_of (formatCode tc buf w)) = savedErrors w
  /\ stderr (world_of (formatCode tc buf w))
     = stderr w ++ [Plain ("Code formatting failed" +:+ nl +:+ e +:+ nl)].
Proof.
  intros H.
  assert (formatCode tc buf w
    = Ret buf (add_stderr (Plain ("Code formatting failed" +:+ nl +:+ e +:+ nl)) w)) as ->.
  { unfold formatCode. rewrite H. unfold bind. rewrite check_report.
    unfold checkMessage. rewrite TrimSpace_formatting_failed. reflexivity. }
  done.
Qed.

Lemma C4_format_failure_reported_at_once_witness :
  formatCode tcNoFormat "x := (" emptyWorld
    = Ret "x := (" (add_stderr (Plain ("Code formatting failed" +:+ nl
                      +:+ "1:1: expected declaration" +:+ nl)) emptyWorld)
  /\ savedErrors (world_of (formatCode tcNoFormat "x := (" emptyWorld))
     = savedErrors emptyWorld
  /\ stderr (world_of (formatCode tcNoFormat "x := (" emptyWorld))
     = stderr emptyWorld ++ [Plain ("Code formatting failed" +:+ nl
                      +:+ "1:1: expected declaration" +:+ nl)].
Proof.
  apply (C4_format_failure_reported_at_once tcNoFormat "x := ("
           "1:1: expected declaration" emptyWorld).
  reflexivity.
Defined.

(** ** Fetching and building *)

Lemma countEvents_app p h1 h2 :
  countEvents p (h1 ++ h2) = countEvents p h1 + countEvents p h2.
Proof. induction h1 as [|e h1 IH]; simpl; [done|]. rewrite IH. lia. Qed.

Lemma untilBuild_app_build h bin src rest :
  countEvents isBuild h = 0 ->
  untilBuild (h ++ EvBuild bin src :: rest) = h.
Proof.
  induction h as [|e h IH]; simpl; [done|].
  destruct (isBuild e); [done|]. intros H. by rewrite IH.
Qed.

Lemma untilBuild_no_build h : countEvents isBuild h = 0 -> untilBuild h = h.
Proof.
  induction h as [|e h IH]; simpl; [done|].
  destruct (isBuild e); [done|]. intros H. by rewrite IH.
Qed.

Lemma readUserImports_pure tc projectDir w :
  exists u, readUserImports tc projectDir w = Ret u w.
Proof.
  unfold readUserImports, bind, checkFileExists, os_Open, gets.
  case_bool_decide as Hf; [|by eexists].
  destruct (files w !! _) as [data|]; [|by destruct Hf].
  rewrite check_nil. by eexists.
Qed.

(** One fetch: [goGet] either returns, having run a successful [go get]
    after at most one tidy, or exits with status 1. *)
Lemma goGet_cases tc projectDir pkg w :
  exists w' pre,
    countEvents isFetch pre = 0 /\ countEvents isBuild pre = 0
    /\ ((goGet tc projectDir pkg w = Ret tt w'
         /\ history w' = history w ++ pre ++ [EvGet pkg]
         /\ cmdErr (go_get tc (history w ++ pre) pkg) = None)
        \/ (goGet tc projectDir pkg w = Exit 1 w'
            /\ history w' = history w ++ pre ++ [EvGet pkg])
        \/ (goGet tc projectDir pkg w = Exit 1 w'
            /\ history w' = history w ++ pre)).
Proof.
  unfold goGet, bind, gets.
  destruct (stat_go_mod tc (history w)) as [e|t].
  { rewrite check_fatal. eexists _, []. split; [done|]. split; [done|].
    right. right. split; [done|]. simpl. by rewrite app_nil_r. }
  rewrite check_nil.
  assert (forall w1 pre, countEvents isFetch pre = 0 -> countEvents isBuild pre = 0 ->
    history w1 = history w ++ pre ->
    exists w',
      (((let* r := run_go_get tc pkg in
         check (cmdErr r) 2 (errOut (errText (cmdErr r)) (cmdOut r)) >>
         (let* userImports := readUserImports tc projectDir in
          writeUserImports tc projectDir
            (<[Base pkg := pkg]> (default ∅ userImports)))) w1 = Ret tt w'
        /\ history w' = history w ++ pre ++ [EvGet pkg]
        /\ cmdErr (go_get tc (history w ++ pre) pkg) = None)
       \/ ((let* r := run_go_get tc pkg in
         check (cmdErr r) 2 (errOut (errText (cmdErr r)) (cmdOut r)) >>
         (let* userImports := readUserImports tc projectDir in
          writeUserImports tc projectDir
            (<[Base pkg := pkg]> (default ∅ userImports)))) w1 = Exit 1 w'
        /\ history w' = history w ++ pre ++ [EvGet pkg]))) as Hget.
  { intros w1 pre _ _ Hh. unfold bind, run_go_get, gets, modify, ret. simpl.
    rewrite Hh. destruct (go_get tc (history w ++ pre) pkg) as [out|err out]; simpl.
    - destruct (readUserImports_pure tc projectDir (add_event (EvGet pkg) w1))
        as [u ->].
      eexists. left. split; [reflexivity|]. simpl. rewrite Hh.
      by rewrite <- app_assoc.
    - eexists. right. split; [reflexivity|]. simpl. rewrite Hh.
      by rewrite <- app_assoc. }
  destruct (t <? time_Now tc (history w) - week_ns)%Z; simpl.
  - unfold goTidy, run_go_mod_tidy, bind, gets, modify, ret. simpl.
    destruct (go_mod_tidy tc (history w)) as [out|err out]; simpl.
    + destruct (Hget (add_event EvTidy w) [EvTidy]) as [w' H]; [done..|].
      exists w', [EvTidy]. split; [done|]. split; [done|].
      destruct H as [H|H]; [left|right; left]; exact H.
    + eexists _, [EvTidy]. split; [done|]. split; [done|].
      right. right. split; reflexivity.
  - destruct (Hget w []) as [w' H]; [done..|by rewrite app_nil_r|].
    exists w', []. split; [done|]. split; [done|].
    destruct H as [H|H]; [left|right; left]; exact H.
Qed.

Lemma fetchesOk_app tc h evs1 evs2 :
  fetchesOk tc h (evs1 ++ evs2)
  = fetchesOk tc h evs1 && fetchesOk tc (h ++ evs1) evs2.
Proof.
  revert h. induction evs1 as [|e evs1 IH]; intros h; simpl.
  - by rewrite app_nil_r.
  - rewrite IH, <- app_assoc. simpl. by rewrite andb_assoc.
Qed.

Lemma fetchesOk_no_fetch tc h evs :
  countEvents isFetch evs = 0 -> fetchesOk tc h evs = true.
Proof.
  revert h. induction evs as [|e evs IH]; intros h; simpl; [done|].
  destruct e; simpl; try done; intros H; by rewrite IH.
Qed.

Lemma bind_Ret {A B} (m : M A) (k : A -> M B) w a w' :
  m w = Ret a w' -> bind m k w = k a w'.
Proof. unfold bind. by intros ->. Qed.

Lemma bind_Exit {A B} (m : M A) (k : A -> M B) w c w' :
  m w = Exit c w' -> bind m k w = Exit c w'.
Proof. unfold bind. by intros ->. Qed.

(** The loop of lines 340-343 over the packages of one diagnostic. *)
Lemma fetchBatch_cases tc projectDir pkgs w :
  exists w' evs,
    history w' = history w ++ evs
    /\ countEvents isFetch evs <= length pkgs
    /\ countEvents isBuild evs = 0
    /\ ((forM_ pkgs (fun m => goGet tc projectDir (TrimSpace m)) w = Ret tt w'
         /\ fetchesOk tc (history w) evs = true)
        \/ forM_ pkgs (fun m => goGet tc projectDir (TrimSpace m)) w = Exit 1 w').
Proof.
  revert w. induction pkgs as [|m pkgs IH]; intros w.
  - exists w, []. rewrite app_nil_r. simpl. repeat split; try done. by left.
  - cbn [forM_].
    destruct (goGet_cases tc projectDir (TrimSpace m) w)
      as (w1 & pre & Hf & Hb & [(Hg & Hh & Hok)|[(Hg & Hh)|(Hg & Hh)]]).
    + rewrite (bind_Ret _ _ _ _ _ Hg).
      destruct (IH w1) as (w2 & evs & Hh2 & Hf2 & Hb2 & Hcase).
      exists w2, ((pre ++ [EvGet (TrimSpace m)]) ++ evs).
      rewrite Hh2, Hh, !countEvents_app, Hf, Hb, Hb2. simpl.
      split; [by rewrite <- !app_assoc|]. split; [lia|]. split; [done|].
      destruct Hcase as [[Hr Hok2] | Hr]; [left|by right].
      split; [done|]. rewrite !fetchesOk_app, fetchesOk_no_fetch by done.
      simpl. rewrite Hok, bool_decide_true by done. simpl.
      by rewrite Hh in Hok2.
    + rewrite (bind_Exit _ _ _ _ _ Hg).
      exists w1, (pre ++ [EvGet (TrimSpace m)]).
      rewrite !countEvents_app, Hf, Hb. simpl.
      split; [done|]. split; [lia|]. split; [done|]. by right.
    + rewrite (bind_Exit _ _ _ _ _ Hg).
      exists w1, pre. rewrite Hf, Hb.
      split; [done|]. split; [lia|]. split; [done|]. by right.
Qed.

(** One level of [compileBinary] whose build fails asking for packages. *)
Lemma compileBinary_retry tc projectDir fuel src bin w err out :
  go_build tc (history w) (files w) bin src = BuildFail err out ->
  goGetMatches out <> [] ->
  compileBinary tc projectDir (S fuel) src bin w
  = (forM_ (goGetMatches out) (fun m => goGet tc projectDir (TrimSpace m)) >>
     compileBinary tc projectDir fuel src bin >> ret true)
      (add_event (EvBuild bin src) w).
Proof.
  intros Hb Hm. cbn [compileBinary].
  unfold bind at 1. unfold run_go_build, bind at 1, gets.
  unfold bind at 1. rewrite Hb. unfold modify, bind at 1, bind at 1, ret.
  destruct (goGetMatches out); [done|]. reflexivity.
Qed.

Lemma compileBinary_built tc projectDir fuel src bin w binary :
  go_build tc (history w) (files w) bin src = BuildOk binary ->
  compileBinary tc projectDir (S fuel) src bin w
  = Ret true (set_files (fun fs => <[bin := binary]> fs)
                (add_event (EvBuild bin src) w)).
Proof.
  intros Hb. cbn [compileBinary].
  unfold bind at 1. unfold run_go_build, bind at 1, gets.
  unfold bind at 1. rewrite Hb. reflexivity.
Qed.

Lemma compileBinary_failed tc projectDir fuel src bin w err out :
  go_build tc (history w) (files w) bin src = BuildFail err out ->
  goGetMatches out = [] ->
  compileBinary tc projectDir (S fuel) src bin w
  = Ret false (add_stderr (checkMessage out err) (add_event (EvBuild bin src) w)).
Proof.
  intros Hb Hm. cbn [compileBinary].
  unfold bind at 1. unfold run_go_build, bind at 1, gets.
  unfold bind at 1. rewrite Hb. unfold modify, ret, bind at 1, bind at 1.
  cbv beta iota. rewrite Hm. reflexivity.
Qed.

(** The events of a run of [compileBinary] begin with its build. *)
Lemma compileBinary_events tc projectDir fuel src bin w :
  exists rest,
    history (world_of (compileBinary tc projectDir fuel src bin w))
    = history w ++ rest
    /\ (rest = [] \/ exists rest', rest = EvBuild bin src :: rest').
Proof.
  revert w. induction fuel as [|fuel IH]; intros w.
  - exists []. rewrite app_nil_r. split; [done|by left].
  - destruct (go_build tc (history w) (files w) bin src) as [binary|err out] eqn:Hb.
    { rewrite (compileBinary_built _ _ _ _ _ _ _ Hb).
      exists [EvBuild bin src]. split; [done|right; by exists []]. }
    destruct (goGetMatches out) as [|m ms] eqn:Hm.
    { rewrite (compileBinary_failed _ _ _ _ _ _ _ _ Hb Hm).
      exists [EvBuild bin src]. split; [done|right; by exists []]. }
    rewrite (compileBinary_retry _ _ _ _ _ _ _ _ Hb) by (by rewrite Hm).
    destruct (fetchBatch_cases tc projectDir (goGetMatches out)
                (add_event (EvBuild bin src) w))
      as (w1 & evs & Hh & _ & _ & [[Hr _] | Hr]).
    + rewrite (bind_Ret _ _ _ _ _ Hr).
      destruct (IH w1) as (rest & Hrest & _).
      exists (EvBuild bin src :: evs ++ rest). split; [|right; by eexists].
      unfold bind.
      destruct (compileBinary tc projectDir fuel src bin w1) as [a w2|c w2|e w2|w2];
        simpl in *; rewrite Hrest, Hh; simpl; by rewrite <- !app_assoc.
    + rewrite (bind_Exit _ _ _ _ _ Hr).
      exists (EvBuild bin src :: evs). split; [|right; by eexists].
      simpl. rewrite Hh. simpl. by rewrite <- !app_assoc.
Qed.

Lemma remove_dups_NoDup_id (l : list string) : NoDup l -> remove_dups l = l.
Proof.
  induction 1 as [|x l Hx _ IH]; simpl; [done|].
  destruct (decide_rel elem_of x l); [done|]. by rewrite IH.
Qed.

Lemma eventsSince_app {A} w (o : Outcome A) evs :
  history (world_of o) = history w ++ evs -> eventsSince w o = evs.
Proof. intros H. unfold eventsSince. rewrite H. apply drop_app_length. Qed.

(** The first round of [compileBinary] after a build that asks for
    packages: the batch of fetches, then either the end of the run or the
    retry. *)
Lemma compileBinary_first_round tc projectDir fuel src bin w err out :
  go_build tc (history w) (files w) bin src = BuildFail err out ->
  goGetMatches out <> [] ->
  exists batch rest,
    eventsSince w (compileBinary tc projectDir (S fuel) src bin w)
      = EvBuild bin src :: batch ++ rest
    /\ firstBatch (EvBuild bin src :: batch ++ rest) = batch
    /\ countEvents isFetch batch <= length (goGetMatches out)
    /\ countEvents isBuild batch = 0
    /\ (fetchesOk tc (history w ++ [EvBuild bin src]) batch = true
        \/ (rest = [] /\ exists w',
              compileBinary tc projectDir (S fuel) src bin w = Exit 1 w')).
Proof.
  intros Hb Hm. rewrite (compileBinary_retry _ _ _ _ _ _ _ _ Hb Hm).
  destruct (fetchBatch_cases tc projectDir (goGetMatches out)
              (add_event (EvBuild bin src) w))
    as (w1 & evs & Hh & Hf & Hnb & [[Hr Hok] | Hr]).
  - rewrite (bind_Ret _ _ _ _ _ Hr).
    destruct (compileBinary_events tc projectDir fuel src bin w1)
      as (rest & Hrest & Hshape).
    exists evs, rest. split; [|split; [|split; [done|split; [done|by left]]]].
    + apply eventsSince_app. unfold bind.
      destruct (compileBinary tc projectDir fuel src bin w1) as [a w2|c w2|e w2|w2];
        simpl in *; rewrite Hrest, Hh; simpl; by rewrite <- !app_assoc.
    + simpl. destruct Hshape as [-> | [rest' ->]].
      * rewrite app_nil_r. by apply untilBuild_no_build.
      * by apply untilBuild_app_build.
  - rewrite (bind_Exit _ _ _ _ _ Hr).
    exists evs, []. rewrite app_nil_r.
    split; [|split; [|split; [done|split; [done|right; eauto]]]].
    + apply eventsSince_app. simpl. rewrite Hh. simpl. by rewrite <- app_assoc.
    + simpl. by apply untilBuild_no_build.
Qed.

(** C1, as amended: after a failed build whose diagnostic has one or more
    [go get <path>] occurrences, the fetch attempts made before the build is
    retried are at most as many as the occurrences (so at most as many as
    the distinct paths when no path occurs twice), and when a fetch of the
    batch fails the run ends with exit status 1 after that single build,
    whatever the fuel: the recursion does not go on. *)
Theorem C1_fetches_bounded_by_occurrences (tc : Toolchain) (projectDir : string)
    (fuel : nat) (src bin : string) (w : World) (err out : string) :
  go_build tc (history w) (files w) bin src = BuildFail err out ->
  goGetMatches out <> [] ->
  fetchesBeforeRetry (eventsSince w (compileBinary tc projectDir (S fuel) src bin w))
    <= length (goGetMatches out)
  /\ (NoDup (missingPackages out) ->
      fetchesBeforeRetry (eventsSince w (compileBinary tc projectDir (S fuel) src bin w))
        <= distinctMissing out)
  /\ (fetchesOk tc (history w ++ [EvBuild bin src])
        (firstBatch (eventsSince w (compileBinary tc projectDir (S fuel) src bin w)))
      = false ->
      exists w',
        compileBinary tc projectDir (S fuel) src bin w = Exit 1 w'
        /\ countEvents isBuild
             (eventsSince w (compileBinary tc projectDir (S fuel) src bin w)) = 1).
Proof.
  intros Hb Hm.
  destruct (compileBinary_first_round tc projectDir fuel src bin w err out Hb Hm)
    as (batch & rest & Hev & Hfirst & Hf & Hnb & Hcase).
  unfold fetchesBeforeRetry. rewrite Hev, Hfirst.
  split; [done|]. split.
  - intros Hnd. unfold distinctMissing. rewrite remove_dups_NoDup_id by done.
    unfold missingPackages. by rewrite length_fmap.
  - intros Hfail. destruct Hcase as [Hok | [-> [w' Hexit]]].
    + by rewrite Hok in Hfail.
    + exists w'. split; [done|]. rewrite app_nil_r. simpl. by rewrite Hnb.
Qed.

Lemma C1_fetches_bounded_by_occurrences_witness :
  fetchesBeforeRetry
    (eventsSince emptyWorld (compileBinary tcOffline "/p" 1 "/p/src/a.go" "/p/bin/a" emptyWorld))
    <= length (goGetMatches diagOnce)
  /\ (NoDup (missingPackages diagOnce) ->
      fetchesBeforeRetry
        (eventsSince emptyWorld (compileBinary tcOffline "/p" 1 "/p/src/a.go" "/p/bin/a" emptyWorld))
        <= distinctMissing diagOnce)
  /\ (fetchesOk tcOffline (history emptyWorld ++ [EvBuild "/p/bin/a" "/p/src/a.go"])
        (firstBatch
           (eventsSince emptyWorld
              (compileBinary tcOffline "/p" 1 "/p/src/a.go" "/p/bin/a" emptyWorld)))
      = false ->
      exists w',
        compileBinary tcOffline "/p" 1 "/p/src/a.go" "/p/bin/a" emptyWorld = Exit 1 w'
        /\ countEvents isBuild
             (eventsSince emptyWorld
                (compileBinary tcOffline "/p" 1 "/p/src/a.go" "/p/bin/a" emptyWorld)) = 1).
Proof.
  apply (C1_fetches_bounded_by_occurrences tcOffline "/p" 0 "/p/src/a.go" "/p/bin/a"
           emptyWorld "exit status 1" diagOnce).
  - reflexivity.
  - vm_compute. discriminate.
Defined.

(** The claim as first stated fails when a path occurs twice in the
    diagnostic: one distinct path, two fetch attempts before the retry. *)
Lemma C1_counterexample :
  go_build tcTwice (history emptyWorld) (files emptyWorld) "/p/bin/a" "/p/src/a.go"
    = BuildFail "exit status 1" diagTwice
  /\ missingPackages diagTwice = ["example.com/m"; "example.com/m"]
  /\ distinctMissing diagTwice = 1
  /\ eventsSince emptyWorld (compileBinary tcTwice "/p" 2 "/p/src/a.go" "/p/bin/a" emptyWorld)
     = [EvBuild "/p/bin/a" "/p/src/a.go"; EvGet "example.com/m";
        EvGet "example.com/m"; EvBuild "/p/bin/a" "/p/src/a.go"]
  /\ ~ (fetchesBeforeRetry
          (eventsSince emptyWorld
             (compileBinary tcTwice "/p" 2 "/p/src/a.go" "/p/bin/a" emptyWorld))
        <= distinctMissing diagTwice).
Proof.
  split; [reflexivity|]. split; [vm_compute; reflexivity|].
  split; [vm_compute; reflexivity|]. split; [vm_compute; reflexivity|].
  assert (fetchesBeforeRetry
            (eventsSince emptyWorld
               (compileBinary tcTwice "/p" 2 "/p/src/a.go" "/p/bin/a" emptyWorld)) = 2)
    as -> by (vm_compute; reflexivity).
  assert (distinctMissing diagTwice = 1) as -> by (vm_compute; reflexivity).
  lia.
Qed.

(** A fetch that fails ends the run at once, for every fuel. *)
Example offline_build_exits fuel :
  exists w',
    compileBinary tcOffline "/p" (S fuel) "/p/src/a.go" "/p/bin/a" emptyWorld = Exit 1 w'
    /\ history w' = [EvBuild "/p/bin/a" "/p/src/a.go"; EvGet "example.com/m"].
Proof.
  rewrite (compileBinary_retry tcOffline "/p" fuel _ _ emptyWorld "exit status 1" diagOnce);
    [|reflexivity|by vm_compute].
  eexists. split; [vm_compute; reflexivity|reflexivity].
Qed.

(** ** Paths *)

Lemma projectPath_inj projectDir a b :
  projectDir +:+ a = projectDir +:+ b -> a = b.
Proof. apply (inj (String.app projectDir)). Qed.

Lemma srcPath_softPath projectDir name name' :
  srcPath projectDir name = softPath projectDir name' -> name' = name +:+ ".go".
Proof.
  unfold srcPath, softPath. intros H%projectPath_inj.
  by apply (inj (String.app "/src/")) in H.
Qed.

Lemma srcPath_neq_softPath projectDir name :
  srcPath projectDir name <> softPath projectDir name.
Proof.
  intros H%srcPath_softPath. apply (f_equal String.length) in H.
  rewrite length_append in H. simpl in H. lia.
Qed.

Lemma srcPath_neq_binPath projectDir name name' :
  srcPath projectDir name <> binPath projectDir name'.
Proof. unfold srcPath, binPath. by intros H%projectPath_inj. Qed.

Lemma softPath_neq_binPath projectDir name name' :
  softPath projectDir name <> binPath projectDir name'.
Proof. unfold softPath, binPath. by intros H%projectPath_inj. Qed.

Lemma srcPath_neq_imports projectDir name :
  srcPath projectDir name <> projectDir +:+ "/imports.json".
Proof. unfold srcPath. by intros H%projectPath_inj. Qed.

Lemma softPath_neq_imports projectDir name :
  softPath projectDir name <> projectDir +:+ "/imports.json".
Proof. unfold softPath. by intros H%projectPath_inj. Qed.

Lemma binPath_neq_imports projectDir name :
  binPath projectDir name <> projectDir +:+ "/imports.json".
Proof. unfold binPath. by intros H%projectPath_inj. Qed.

(** ** What a computation leaves unchanged *)

Lemma preserves_bind {A B} (R : World -> World -> Prop) (m : M A) (k : A -> M B) :
  (forall w1 w2 w3, R w1 w2 -> R w2 w3 -> R w1 w3) ->
  preserves R m -> (forall a, preserves R (k a)) -> preserves R (bind m k).
Proof.
  intros Htrans Hm Hk w. unfold bind. specialize (Hm w).
  destruct (m w) as [a w'|c w'|e w'|w']; simpl in *; [|done..].
  eapply Htrans; [exact Hm|apply Hk].
Qed.

Lemma keepsFile_trans p w1 w2 w3 :
  keepsFile p w1 w2 -> keepsFile p w2 w3 -> keepsFile p w1 w3.
Proof. unfold keepsFile. congruence. Qed.

Lemma keepsSaved_trans w1 w2 w3 :
  keepsSaved w1 w2 -> keepsSaved w2 w3 -> keepsSaved w1 w3.
Proof. unfold keepsSaved. congruence. Qed.

Lemma check_keepsFile p e errLevel customMsg :
  preserves (keepsFile p) (check e errLevel customMsg).
Proof.
  intros w. unfold check. destruct e as [msg|]; [|done].
  repeat (case_match; try done).
Qed.

Lemma readUserImports_keepsFile tc projectDir p :
  preserves (keepsFile p) (readUserImports tc projectDir).
Proof.
  intros w. destruct (readUserImports_pure tc projectDir w) as [u ->]. done.
Qed.

Lemma goTidy_keepsFile tc p : preserves (keepsFile p) (goTidy tc).
Proof.
  intros w. unfold goTidy, run_go_mod_tidy, bind, gets, modify, ret. simpl.
  by destruct (go_mod_tidy tc (history w)).
Qed.

Lemma goGet_keepsFile tc projectDir pkg p :
  p <> projectDir +:+ "/imports.json" ->
  preserves (keepsFile p) (goGet tc projectDir pkg).
Proof.
  intros Hp w. unfold goGet, bind at 1, gets.
  destruct (stat_go_mod tc (history w)) as [e|t]; [done|].
  apply preserves_bind; [apply keepsFile_trans|apply check_keepsFile|intros _].
  apply preserves_bind; [apply keepsFile_trans| |intros _].
  { unfold when. case_match; [apply goTidy_keepsFile|done]. }
  apply preserves_bind; [apply keepsFile_trans| |intros r].
  { intros w1. done. }
  apply preserves_bind; [apply keepsFile_trans|apply check_keepsFile|intros _].
  apply preserves_bind; [apply keepsFile_trans|apply readUserImports_keepsFile|intros u].
  intros w1. unfold writeUserImports, bind, modify, ret, keepsFile. simpl.
  by rewrite lookup_insert_ne.
Qed.

Lemma forM_preserves {A} (R : World -> World -> Prop) (l : list A) (f : A -> M unit) :
  (forall w, R w w) ->
  (forall w1 w2 w3, R w1 w2 -> R w2 w3 -> R w1 w3) ->
  (forall x, preserves R (f x)) -> preserves R (forM_ l f).
Proof.
  intros Hrefl Htrans Hf. induction l as [|x l IH]; simpl.
  - intros w. apply Hrefl.
  - apply preserves_bind; auto.
Qed.

Lemma compileBinary_keepsFile tc projectDir fuel src bin p :
  p <> bin -> p <> projectDir +:+ "/imports.json" ->
  preserves (keepsFile p) (compileBinary tc projectDir fuel src bin).
Proof.
  intros Hbin Hp. induction fuel as [|fuel IH]; [done|].
  cbn [compileBinary].
  apply preserves_bind; [apply keepsFile_trans| |intros r].
  { intros w. unfold run_go_build, bind, gets, modify, ret, keepsFile. simpl.
    destruct (go_build tc (history w) (files w) bin src); simpl; [|done].
    by rewrite lookup_insert_ne. }
  destruct r as [binary|err out]; [done|].
  case_match.
  - apply preserves_bind; [apply keepsFile_trans| |intros _].
    { apply forM_preserves; [done|apply keepsFile_trans|].
      intros m. by apply goGet_keepsFile. }
    apply preserves_bind; [apply keepsFile_trans|exact IH|done].
  - apply preserves_bind; [apply keepsFile_trans|apply check_keepsFile|].
    intros []; done.
Qed.

(** ** Directory entries *)

Lemma prefix_append pre r : String.prefix pre (pre +:+ r) = true.
Proof.
  induction pre as [|c pre IH]; [by destruct r|].
  rewrite append_cons. simpl. by destruct (ascii_dec c c).
Qed.

Lemma dropChars_append pre r : dropChars (String.length pre) (pre +:+ r) = r.
Proof. induction pre as [|c pre IH]; [done|]. by rewrite append_cons. Qed.

Lemma prefix_inv pre s :
  String.prefix pre s = true -> s = pre +:+ dropChars (String.length pre) s.
Proof.
  revert s. induction pre as [|c pre IH]; intros s; [done|].
  destruct s as [|d s]; [done|]. simpl.
  destruct (ascii_dec c d) as [->|]; [|done].
  intros H. rewrite append_cons. f_equal. by apply IH.
Qed.

Lemma entryName_Some dir path e :
  entryName dir path = Some e
  <-> path = dir +:+ "/" +:+ e /\ e <> "" /\ all_chars notSlash e = true.
Proof.
  unfold entryName, HasPrefix. split.
  - destruct (String.prefix (dir +:+ "/") path) eqn:Hp; [|done].
    apply prefix_inv in Hp. rewrite length_append in Hp. simpl in Hp.
    case_bool_decide as Hne; [|done]. simpl.
    destruct (all_chars notSlash _) eqn:Hs; [|done].
    intros [= <-]. by rewrite <- append_assoc.
  - intros (-> & Hne & Hs). rewrite <- append_assoc, prefix_append.
    replace (String.length dir + 1) with (String.length (dir +:+ "/"))
      by (rewrite length_append; done).
    rewrite dropChars_append. by rewrite bool_decide_true, Hs.
Qed.

Lemma elem_of_ReadDir dir fs e :
  e ∈ ReadDir dir fs
  <-> is_Some (fs !! (dir +:+ "/" +:+ e)) /\ e <> "" /\ all_chars notSlash e = true.
Proof.
  unfold ReadDir. rewrite list_elem_of_omap. split.
  - intros (path & Hin & (-> & Hne & Hs)%entryName_Some).
    apply list_elem_of_fmap in Hin as ([path data] & -> & Hin%elem_of_map_to_list).
    simpl in *. eauto.
  - intros ([data Hd] & Hne & Hs). exists (dir +:+ "/" +:+ e). split.
    + apply list_elem_of_fmap. exists (dir +:+ "/" +:+ e, data).
      split; [done|]. by apply elem_of_map_to_list.
    + by apply entryName_Some.
Qed.

Lemma elem_of_sortStrings e l : e ∈ sortStrings l <-> e ∈ l.
Proof. unfold sortStrings. by rewrite merge_sort_Permutation. Qed.

Lemma src_entry projectDir name :
  (projectDir +:+ "/src") +:+ "/" +:+ name = softPath projectDir name.
Proof. unfold softPath. by rewrite append_assoc. Qed.

Lemma src_go_entry projectDir name :
  (projectDir +:+ "/src") +:+ "/" +:+ name +:+ ".go" = srcPath projectDir name.
Proof. unfold srcPath. by rewrite append_assoc. Qed.

Lemma Active_files projectDir w name :
  Active projectDir w name
  <-> is_Some (files w !! srcPath projectDir name)
      /\ all_chars notSlash name = true
      /\ is_Some (files w !! binPath projectDir name).
Proof.
  unfold Active. rewrite elem_of_ReadDir, src_go_entry, all_chars_append.
  split.
  - intros [(Hs & _ & Hn%andb_true_iff) Hb]. by destruct Hn.
  - intros (Hs & Hn & Hb). rewrite Hn. split; [|done].
    split; [done|]. split; [by destruct name|done].
Qed.

(** ** Delete and restore *)

Lemma os_Rename_ok oldpath newpath data w :
  files w !! oldpath = Some data ->
  os_Rename oldpath newpath w
  = Ret None (set_files (fun fs => <[newpath := data]> (delete oldpath fs)) w).
Proof. intros H. unfold os_Rename. by rewrite H. Qed.

Lemma os_Remove_ok path data w :
  files w !! path = Some data ->
  os_Remove path w = Ret None (set_files (delete path) w).
Proof. intros H. unfold os_Remove. by rewrite H. Qed.

Lemma goTidy_cases tc w :
  goTidy tc w = Ret tt (add_event EvTidy w)
  \/ exists m, goTidy tc w = Exit 1 (add_stderr m (add_event EvTidy w)).
Proof.
  unfold goTidy, run_go_mod_tidy, bind, gets, modify, ret. cbn [history].
  destruct (go_mod_tidy tc (history w)) as [out|err out]; cbn [cmdErr].
  - left. by rewrite check_nil.
  - right. rewrite check_fatal. by eexists.
Qed.

Lemma deleteCommand_run tc projectDir name content w :
  files w !! srcPath projectDir name = Some content ->
  is_Some (files w !! binPath projectDir name) ->
  exists w',
    files w' = deletedFiles projectDir name content (files w)
    /\ stdout w' = stdout w
    /\ (deleteCommand tc projectDir name w = Ret tt w'
        \/ deleteCommand tc projectDir name w = Exit 1 w').
Proof.
  intros Hs [b Hb]. unfold deleteCommand. rewrite !append_assoc.
  fold (softPath projectDir name) (srcPath projectDir name) (binPath projectDir name).
  erewrite bind_Ret; [|by apply os_Rename_ok].
  erewrite bind_Ret; [|apply check_nil].
  erewrite bind_Ret; cycle 1.
  { eapply os_Remove_ok. cbn [files set_files].
    rewrite lookup_insert_ne by apply softPath_neq_binPath.
    rewrite lookup_delete_ne by apply srcPath_neq_binPath. exact Hb. }
  erewrite bind_Ret; [|apply check_nil].
  set (w2 := set_files (delete (binPath projectDir name)) _).
  destruct (goTidy_cases tc w2) as [Ht | [m Ht]]; rewrite Ht.
  - exists (add_event EvTidy w2). split; [done|]. split; [done|]. by left.
  - exists (add_stderr m (add_event EvTidy w2)).
    split; [done|]. split; [done|]. by right.
Qed.

Lemma deletedFiles_src projectDir name content fs :
  deletedFiles projectDir name content fs !! srcPath projectDir name = None.
Proof.
  unfold deletedFiles.
  rewrite lookup_delete_ne by (apply not_eq_sym, srcPath_neq_binPath).
  rewrite lookup_insert_ne by (apply not_eq_sym, srcPath_neq_softPath).
  apply lookup_delete_eq.
Qed.

Lemma deletedFiles_soft projectDir name content fs :
  deletedFiles projectDir name content fs !! softPath projectDir name = Some content.
Proof.
  unfold deletedFiles.
  rewrite lookup_delete_ne by (apply not_eq_sym, softPath_neq_binPath).
  apply lookup_insert_eq.
Qed.

Lemma deletedFiles_bin projectDir name content fs :
  deletedFiles projectDir name content fs !! binPath projectDir name = None.
Proof. apply lookup_delete_eq. Qed.

Lemma restoreCommand_run tc projectDir fuel name content w :
  files w !! softPath projectDir name = Some content ->
  restoreCommand tc projectDir fuel name w
  = (compileBinary tc projectDir fuel (srcPath projectDir name) (binPath projectDir name)
       >> ret tt)
      (set_files (fun fs => restoredFiles projectDir name content fs) w).
Proof.
  intros Hs. unfold restoreCommand. rewrite !append_assoc.
  fold (softPath projectDir name) (srcPath projectDir name) (binPath projectDir name).
  erewrite bind_Ret; [|by apply os_Rename_ok].
  erewrite bind_Ret; [|apply check_nil]. reflexivity.
Qed.

Lemma world_of_bind_ret {A B} (m : M A) (b : B) w :
  world_of ((m >> ret b) w) = world_of (m w).
Proof. unfold bind, ret. by destruct (m w). Qed.

Lemma restoreCommand_source tc projectDir fuel name content w :
  files w !! softPath projectDir name = Some content ->
  files (world_of (restoreCommand tc projectDir fuel name w)) !! srcPath projectDir name
    = Some content
  /\ files (world_of (restoreCommand tc projectDir fuel name w)) !! softPath projectDir name
    = None.
Proof.
  intros Hs. rewrite (restoreCommand_run _ _ _ _ _ _ Hs), world_of_bind_ret.
  split.
  - rewrite (compileBinary_keepsFile tc projectDir fuel _ _ (srcPath projectDir name));
      [|apply srcPath_neq_binPath|apply srcPath_neq_imports].
    apply lookup_insert_eq.
  - rewrite (compileBinary_keepsFile tc projectDir fuel _ _ (softPath projectDir name));
      [|apply softPath_neq_binPath|apply softPath_neq_imports].
    cbn [files set_files]. unfold restoredFiles.
    rewrite lookup_insert_ne by apply srcPath_neq_softPath.
    apply lookup_delete_eq.
Qed.

Lemma restoreCommand_built tc projectDir fuel name content binary w :
  files w !! softPath projectDir name = Some content ->
  go_build tc (history w) (restoredFiles projectDir name content (files w))
    (binPath projectDir name) (srcPath projectDir name) = BuildOk binary ->
  exists w',
    restoreCommand tc projectDir (S fuel) name w = Ret tt w'
    /\ files w' = <[binPath projectDir name := binary]>
                    (restoredFiles projectDir name content (files w)).
Proof.
  intros Hs Hb. rewrite (restoreCommand_run _ _ _ _ _ _ Hs).
  erewrite bind_Ret; [|by apply compileBinary_built].
  eexists. split; reflexivity.
Qed.

Lemma restoreCommand_not_built tc projectDir fuel name content err out w :
  files w !! softPath projectDir name = Some content ->
  go_build tc (history w) (restoredFiles projectDir name content (files w))
    (binPath projectDir name) (srcPath projectDir name) = BuildFail err out ->
  goGetMatches out = [] ->
  exists w',
    restoreCommand tc projectDir (S fuel) name w = Ret tt w'
    /\ files w' = restoredFiles projectDir name content (files w).
Proof.
  intros Hs Hb Hm. rewrite (restoreCommand_run _ _ _ _ _ _ Hs).
  erewrite bind_Ret; [|by apply compileBinary_failed].
  eexists. split; reflexivity.
Qed.

(** C3, as amended: for an active command, [deleteCommand] leaves the
    source, byte for byte, under the name without extension and no binary;
    from any world with those files [restoreCommand] puts the same bytes
    back under the name with the extension, whatever the build does.  The
    command is active again when the toolchain builds the restored source;
    when that build fails, its diagnostic naming no package, the restore
    returns all the same and the command has its source and no binary. *)
Theorem C3_delete_restore_roundtrip (tc : Toolchain) (projectDir name content : string)
    (w w1 : World) (fuel : nat) :
  Active projectDir w name ->
  files w !! srcPath projectDir name = Some content ->
  files w1 = files (world_of (deleteCommand tc projectDir name w)) ->
  SoftDeleted projectDir w1 name
  /\ files w1 !! softPath projectDir name = Some content
  /\ files (world_of (restoreCommand tc projectDir fuel name w1)) !! srcPath projectDir name
     = Some content
  /\ files (world_of (restoreCommand tc projectDir fuel name w1)) !! softPath projectDir name
     = None
  /\ (forall binary,
        go_build tc (history w1) (restoredFiles projectDir name content (files w1))
          (binPath projectDir name) (srcPath projectDir name) = BuildOk binary ->
        exists w2,
          restoreCommand tc projectDir (S fuel) name w1 = Ret tt w2
          /\ Active projectDir w2 name
          /\ files w2 !! srcPath projectDir name = Some content)
  /\ (forall err out,
        go_build tc (history w1) (restoredFiles projectDir name content (files w1))
          (binPath projectDir name) (srcPath projectDir name) = BuildFail err out ->
        goGetMatches out = [] ->
        exists w2,
          restoreCommand tc projectDir (S fuel) name w1 = Ret tt w2
          /\ files w2 !! srcPath projectDir name = Some content
          /\ files w2 !! binPath projectDir name = None
          /\ ~ Active projectDir w2 name).
Proof.
  intros Hact Hsrc Hw1.
  apply Active_files in Hact as (_ & Hname & Hbin).
  destruct (deleteCommand_run tc projectDir name content w Hsrc Hbin)
    as (w' & Hfiles & _ & Hrun).
  assert (files w1 = deletedFiles projectDir name content (files w)) as Hfs.
  { rewrite Hw1. by destruct Hrun as [-> | ->]. }
  assert (files w1 !! softPath projectDir name = Some content) as Hsoft.
  { rewrite Hfs. apply deletedFiles_soft. }
  split.
  { unfold SoftDeleted. rewrite Hfs, deletedFiles_src, deletedFiles_soft, deletedFiles_bin.
    eauto. }
  split; [done|].
  destruct (restoreCommand_source tc projectDir fuel name content w1 Hsoft) as [H1 H2].
  split; [done|]. split; [done|]. split.
  - intros binary Hb.
    destruct (restoreCommand_built tc projectDir fuel name content binary w1 Hsoft Hb)
      as (w2 & Hr & Hf2).
    exists w2. split; [done|].
    assert (files w2 !! srcPath projectDir name = Some content) as Hs2.
    { rewrite Hf2. rewrite lookup_insert_ne by (apply not_eq_sym, srcPath_neq_binPath).
      apply lookup_insert_eq. }
    split; [|done]. apply Active_files.
    rewrite Hs2, Hf2, lookup_insert_eq. eauto.
  - intros err out Hb Hm.
    destruct (restoreCommand_not_built tc projectDir fuel name content err out w1
                Hsoft Hb Hm) as (w2 & Hr & Hf2).
    exists w2. split; [done|].
    assert (files w2 !! binPath projectDir name = None) as Hb2.
    { rewrite Hf2. unfold restoredFiles.
      rewrite lookup_insert_ne by apply srcPath_neq_binPath.
      rewrite lookup_delete_ne by apply softPath_neq_binPath.
      rewrite Hfs. apply deletedFiles_bin. }
    split; [rewrite Hf2; apply lookup_insert_eq|]. split; [done|].
    intros (_ & _ & Hbin2)%Active_files. rewrite Hb2 in Hbin2. by destruct Hbin2.
Qed.

Lemma helloWorld_Active : Active "/p" helloWorld "hello".
Proof. apply Active_files. vm_compute. eauto. Qed.

Lemma C3_delete_restore_roundtrip_witness :
  let w1 := world_of (deleteCommand tcBuilds "/p" "hello" helloWorld) in
  SoftDeleted "/p" w1 "hello"
  /\ files w1 !! softPath "/p" "hello" = Some helloSource
  /\ files (world_of (restoreCommand tcBuilds "/p" 1 "hello" w1)) !! srcPath "/p" "hello"
     = Some helloSource
  /\ files (world_of (restoreCommand tcBuilds "/p" 1 "hello" w1)) !! softPath "/p" "hello"
     = None
  /\ (forall binary,
        go_build tcBuilds (history w1) (restoredFiles "/p" "hello" helloSource (files w1))
          (binPath "/p" "hello") (srcPath "/p" "hello") = BuildOk binary ->
        exists w2,
          restoreCommand tcBuilds "/p" 2 "hello" w1 = Ret tt w2
          /\ Active "/p" w2 "hello"
          /\ files w2 !! srcPath "/p" "hello" = Some helloSource)
  /\ (forall err out,
        go_build tcBuilds (history w1) (restoredFiles "/p" "hello" helloSource (files w1))
          (binPath "/p" "hello") (srcPath "/p" "hello") = BuildFail err out ->
        goGetMatches out = [] ->
        exists w2,
          restoreCommand tcBuilds "/p" 2 "hello" w1 = Ret tt w2
          /\ files w2 !! srcPath "/p" "hello" = Some helloSource
          /\ files w2 !! binPath "/p" "hello" = None
          /\ ~ Active "/p" w2 "hello").
Proof.
  apply (C3_delete_restore_roundtrip tcBuilds "/p" "hello" helloSource helloWorld
           (world_of (deleteCommand tcBuilds "/p" "hello" helloWorld)) 1).
  - apply Active_files. vm_compute. eauto.
  - vm_compute. reflexivity.
  - reflexivity.
Defined.

(** The claim as first stated fails when the restored source does not
    build: the delete and the restore both return, the source is back,
    byte for byte, and the command is not active, for it has no binary. *)
Lemma C3_counterexample :
  Active "/p" helloWorld "hello"
  /\ exists w1 w2,
       deleteCommand tcBroken "/p" "hello" helloWorld = Ret tt w1
       /\ restoreCommand tcBroken "/p" 1 "hello" w1 = Ret tt w2
       /\ files w2 !! srcPath "/p" "hello" = Some helloSource
       /\ files w2 !! binPath "/p" "hello" = None
       /\ ~ Active "/p" w2 "hello".
Proof.
  split; [apply helloWorld_Active|].
  eexists. eexists. split; [vm_compute; reflexivity|].
  split; [vm_compute; reflexivity|].
  split; [vm_compute; reflexivity|].
  split; [vm_compute; reflexivity|].
  intros (_ & _ & [b Hbin])%Active_files. vm_compute in Hbin. discriminate Hbin.
Qed.

(** The round trip on the sample project, run. *)
Example hello_roundtrip :
  let w1 := world_of (deleteCommand tcBuilds "/p" "hello" helloWorld) in
  let w2 := world_of (restoreCommand tcBuilds "/p" 2 "hello" w1) in
  map_to_list (files w1) = [(softPath "/p" "hello", helloSource)]
  /\ files w2 = helloFiles.
Proof. split; vm_compute; reflexivity. Qed.

(** ** Suffixes *)

Lemma chars_rev_app s acc : chars (String.rev_app s acc) = rev (chars s) ++ chars acc.
Proof.
  revert acc. induction s as [|c s IH]; intros acc; [done|].
  simpl String.rev_app. rewrite IH. change (chars (String c s)) with (c :: chars s).
  change (chars (String c acc)) with (c :: chars acc).
  simpl rev. by rewrite <- app_assoc.
Qed.

Lemma chars_rev s : chars (String.rev s) = rev (chars s).
Proof. unfold String.rev. rewrite chars_rev_app. apply app_nil_r. Qed.

Lemma rev_rev s : String.rev (String.rev s) = s.
Proof. apply chars_inj. by rewrite !chars_rev, rev_involutive. Qed.

Lemma rev_append a b : String.rev (a +:+ b) = String.rev b +:+ String.rev a.
Proof.
  apply chars_inj. by rewrite chars_rev, !chars_append, rev_app_distr, !chars_rev.
Qed.

Lemma HasSuffix_inv s suf : HasSuffix s suf = true -> exists a, s = a +:+ suf.
Proof.
  unfold HasSuffix. intros H%prefix_inv.
  exists (String.rev (dropChars (String.length (String.rev suf)) (String.rev s))).
  rewrite <- (rev_rev s) at 1. rewrite H at 1. by rewrite rev_append, rev_rev.
Qed.

Lemma HasSuffix_append a suf : HasSuffix (a +:+ suf) suf = true.
Proof. unfold HasSuffix. rewrite rev_append. apply prefix_append. Qed.

Lemma substring_prefix a b : String.substring 0 (String.length a) (a +:+ b) = a.
Proof.
  induction a as [|c a IH]; [by destruct b|].
  rewrite append_cons. simpl. by rewrite IH.
Qed.

Lemma dropRight_append a suf : dropRight (String.length suf) (a +:+ suf) = a.
Proof.
  unfold dropRight. rewrite length_append.
  replace (String.length a + String.length suf - String.length suf)
    with (String.length a) by lia.
  apply substring_prefix.
Qed.

Lemma classify_Runnable e name : classify e = Runnable name -> e = name +:+ ".go".
Proof.
  unfold classify. destruct (HasSuffix e ".go") eqn:Hs; [|done]. simpl.
  apply HasSuffix_inv in Hs as [a ->].
  change 3 with (String.length ".go"). rewrite dropRight_append. by intros [= ->].
Qed.

Lemma classify_RequiresRestore e :
  HasSuffix e ".go" = false -> classify e = RequiresRestore e.
Proof. unfold classify. by intros ->. Qed.

(** ** Listing *)

Lemma forM_Print_stdout {A} (l : list A) (f : A -> string) w :
  forM_ l (fun x => fmt_Print (f x)) w
  = Ret tt (add_stdout (foldr (fun x acc => f x +:+ acc) "" l) w).
Proof.
  revert w. induction l as [|x l IH]; intros w; simpl.
  - unfold ret, add_stdout. destruct w. simpl. by rewrite append_nil_r.
  - unfold bind, fmt_Print, modify. rewrite IH. f_equal.
    unfold add_stdout. simpl. by rewrite append_assoc.
Qed.

Lemma main_list_run projectDir w :
  main_list projectDir w
  = Ret tt (add_stdout (listingText (listing projectDir w)) w).
Proof.
  unfold main_list, getSourceList, bind at 1, bind at 1, gets.
  unfold bind at 1. rewrite check_nil. unfold ret.
  rewrite forM_Print_stdout. unfold listingText, listing.
  f_equal. f_equal. by rewrite foldr_fmap.
Qed.

Lemma listing_RequiresRestore projectDir w name :
  name <> "" -> all_chars notSlash name = true ->
  HasSuffix name ".go" = false ->
  is_Some (files w !! softPath projectDir name) ->
  RequiresRestore name ∈ listing projectDir w.
Proof.
  intros Hne Hs Hgo Hf. unfold listing.
  rewrite <- (classify_RequiresRestore name Hgo).
  apply list_elem_of_fmap_2, elem_of_sortStrings, elem_of_ReadDir.
  by rewrite src_entry.
Qed.

Lemma listing_Runnable projectDir w name :
  Runnable name ∈ listing projectDir w ->
  is_Some (files w !! srcPath projectDir name).
Proof.
  unfold listing. intros (e & He & Hin)%list_elem_of_fmap.
  symmetry in He. apply classify_Runnable in He as ->.
  apply elem_of_sortStrings, elem_of_ReadDir in Hin as (Hf & _).
  by rewrite src_go_entry in Hf.
Qed.

(** ** Export *)

Lemma main_export_run tc projectDir argv0 name content lines w :
  files w !! srcPath projectDir name = Some content ->
  scanFile content = (lines, None) ->
  is_Some (files w !! binPath projectDir name) ->
  exists w',
    (main_export tc projectDir argv0 name w = Ret tt w'
     \/ main_export tc projectDir argv0 name w = Exit 1 w')
    /\ files w' = deletedFiles projectDir name content (files w)
    /\ stdout w' = (stdout w +:+ shebang argv0 +:+ nl)
                   +:+ joinLines (filter (fun l => ~ isShebang l) lines).
Proof.
  intros Hsrc Hscan Hbin. unfold main_export. fold (srcPath projectDir name).
  erewrite bind_Ret; [|by eapply readSourceFile_read].
  erewrite bind_Ret; [|reflexivity].
  erewrite bind_Ret; [|reflexivity].
  erewrite bind_Ret; [|apply check_nil].
  set (w0 := add_stdout _ (add_stdout _ w)).
  destruct (deleteCommand_run tc projectDir name content w0 Hsrc Hbin)
    as (w' & Hf & Hout & Hrun).
  exists w'. split; [done|]. split; [done|]. by rewrite Hout.
Qed.

(** For an active command whose name does not end in [.go] and whose
    source the line scanner reads without error, export
    prints the interpreter line and then the source (its own [#!] lines
    left out), and deletes the command: the binary is gone, the source is
    kept without its extension, and the listing shows the name as
    requiring a restore and no longer as a runnable command. *)
Lemma export_then_soft_deleted (tc : Toolchain) (projectDir argv0 name content : string)
    (lines : list string) (w : World) :
  name <> "" -> HasSuffix name ".go" = false ->
  Active projectDir w name ->
  files w !! srcPath projectDir name = Some content ->
  scanFile content = (lines, None) ->
  exists w',
    (main_export tc projectDir argv0 name w = Ret tt w'
     \/ main_export tc projectDir argv0 name w = Exit 1 w')
    /\ stdout w' = (stdout w +:+ shebang argv0 +:+ nl)
                   +:+ joinLines (filter (fun l => ~ isShebang l) lines)
    /\ SoftDeleted projectDir w' name
    /\ files w' !! softPath projectDir name = Some content
    /\ RequiresRestore name ∈ listing projectDir w'
    /\ (Runnable name ∉ listing projectDir w')
    /\ main_list projectDir w'
       = Ret tt (add_stdout (listingText (listing projectDir w')) w').
Proof.
  intros Hne Hgo Hact Hsrc Hscan.
  apply Active_files in Hact as (_ & Hname & Hbin).
  destruct (main_export_run tc projectDir argv0 name content lines w Hsrc Hscan Hbin)
    as (w' & Hrun & Hf & Hout).
  assert (files w' !! softPath projectDir name = Some content) as Hsoft
    by (rewrite Hf; apply deletedFiles_soft).
  assert (files w' !! srcPath projectDir name = None) as Hgone
    by (rewrite Hf; apply deletedFiles_src).
  exists w'. split; [done|]. split; [done|]. split.
  { unfold SoftDeleted. rewrite Hgone, Hsoft, Hf, deletedFiles_bin. eauto. }
  split; [done|]. split.
  { apply listing_RequiresRestore; rewrite ?Hsoft; eauto. }
  split.
  { intros [x Hx]%listing_Runnable. by rewrite Hgone in Hx. }
  apply main_list_run.
Qed.

Example export_hello :
  exists w',
    (main_export tcBuilds "/p" "goscript" "hello" helloWorld = Ret tt w'
     \/ main_export tcBuilds "/p" "goscript" "hello" helloWorld = Exit 1 w')
    /\ stdout w' = (stdout helloWorld +:+ shebang "goscript" +:+ nl)
                   +:+ joinLines (filter (fun l => ~ isShebang l)
                         ["package main"; "func main() { println(42) }"])
    /\ SoftDeleted "/p" w' "hello"
    /\ files w' !! softPath "/p" "hello" = Some helloSource
    /\ RequiresRestore "hello" ∈ listing "/p" w'
    /\ (Runnable "hello" ∉ listing "/p" w')
    /\ main_list "/p" w' = Ret tt (add_stdout (listingText (listing "/p" w')) w').
Proof.
  apply (export_then_soft_deleted tcBuilds "/p" "goscript" "hello" helloSource
           ["package main"; "func main() { println(42) }"] helloWorld).
  - done.
  - vm_compute. reflexivity.
  - apply Active_files. vm_compute. eauto.
  - vm_compute. reflexivity.
  - vm_compute. reflexivity.
Qed.

(** The export of a command named [x.go], run: its source, renamed to
    that name, is listed as the runnable command [x]. *)
Example export_x_go :
  Active "/p" dotGoWorld "x.go"
  /\ (exists w',
       main_export tcBuilds "/p" "goscript" "x.go" dotGoWorld = Ret tt w'
       /\ listing "/p" w' = [Runnable "x"]
       /\ (RequiresRestore "x.go" ∉ listing "/p" w')
       /\ main_list "/p" w' = Ret tt (add_stdout ("x" +:+ nl) w')).
Proof.
  split; [apply Active_files; vm_compute; eauto|].
  eexists. split; [vm_compute; reflexivity|].
  assert (listing "/p" (world_of (main_export tcBuilds "/p" "goscript" "x.go" dotGoWorld))
          = [Runnable "x"]) as Hl by (vm_compute; reflexivity).
  split; [exact Hl|]. split.
  - intros H. vm_compute in H. apply list_elem_of_singleton in H. discriminate.
  - vm_compute. reflexivity.
Qed.

Lemma softPath_dot_go projectDir base :
  softPath projectDir (base +:+ ".go") = srcPath projectDir base.
Proof. reflexivity. Qed.

Lemma classify_dot_go base : classify (base +:+ ".go") = Runnable base.
Proof.
  unfold classify. rewrite HasSuffix_append. simpl.
  change 3 with (String.length ".go"). by rewrite dropRight_append.
Qed.

(** C8, where the code falls short of it: for an active command whose
    name ends in [.go], export prints the source and renames it, but the
    renamed source still has the extension: the listing shows it as a
    runnable command, not as requiring a restore, and a recompile would
    build it. *)
Theorem C8_export_leaves_dot_go_runnable (tc : Toolchain)
    (projectDir argv0 base content : string) (lines : list string) (w : World) :
  Active projectDir w (base +:+ ".go") ->
  files w !! srcPath projectDir (base +:+ ".go") = Some content ->
  scanFile content = (lines, None) ->
  exists w',
    (main_export tc projectDir argv0 (base +:+ ".go") w = Ret tt w'
     \/ main_export tc projectDir argv0 (base +:+ ".go") w = Exit 1 w')
    /\ stdout w' = (stdout w +:+ shebang argv0 +:+ nl)
                   +:+ joinLines (filter (fun l => ~ isShebang l) lines)
    /\ SoftDeleted projectDir w' (base +:+ ".go")
    /\ Runnable base ∈ listing projectDir w'
    /\ (RequiresRestore (base +:+ ".go") ∉ listing projectDir w')
    /\ (base +:+ ".go") ∈ goEntries projectDir w'.
Proof.
  intros Hact Hsrc Hscan.
  apply Active_files in Hact as (_ & Hname & Hbin).
  destruct (main_export_run tc projectDir argv0 _ content lines w Hsrc Hscan Hbin)
    as (w' & Hrun & Hf & Hout).
  assert (files w' !! softPath projectDir (base +:+ ".go") = Some content) as Hsoft
    by (rewrite Hf; apply deletedFiles_soft).
  assert ((base +:+ ".go") ∈ ReadDir (projectDir +:+ "/src") (files w')) as Hentry.
  { apply elem_of_ReadDir. rewrite src_entry, Hsoft.
    split; [eauto|]. split; [by destruct base|done]. }
  exists w'. split; [done|]. split; [done|]. split.
  { unfold SoftDeleted. rewrite Hsoft, Hf, deletedFiles_src, deletedFiles_bin. eauto. }
  split; [|split].
  - unfold listing. rewrite <- (classify_dot_go base).
    by apply list_elem_of_fmap_2, elem_of_sortStrings.
  - unfold listing. intros (e & He & _)%list_elem_of_fmap.
    unfold classify in He. destruct (HasSuffix e ".go") eqn:Hs; [done|].
    simpl in He. injection He as <-. by rewrite HasSuffix_append in Hs.
  - unfold goEntries. apply list_elem_of_filter.
    split; [apply HasSuffix_append|by apply elem_of_sortStrings].
Qed.

Lemma C8_export_leaves_dot_go_runnable_witness :
  exists w',
    (main_export tcBuilds "/p" "goscript" ("x" +:+ ".go") dotGoWorld = Ret tt w'
     \/ main_export tcBuilds "/p" "goscript" ("x" +:+ ".go") dotGoWorld = Exit 1 w')
    /\ stdout w' = (stdout dotGoWorld +:+ shebang "goscript" +:+ nl)
                   +:+ joinLines (filter (fun l => ~ isShebang l)
                         ["package main"; "func main() { println(42) }"])
    /\ SoftDeleted "/p" w' ("x" +:+ ".go")
    /\ Runnable "x" ∈ listing "/p" w'
    /\ (RequiresRestore ("x" +:+ ".go") ∉ listing "/p" w')
    /\ ("x" +:+ ".go") ∈ goEntries "/p" w'.
Proof.
  apply (C8_export_leaves_dot_go_runnable tcBuilds "/p" "goscript" "x" helloSource
           ["package main"; "func main() { println(42) }"] dotGoWorld).
  - apply Active_files. vm_compute. eauto.
  - vm_compute. reflexivity.
  - vm_compute. reflexivity.
Defined.

(** A source with a line of 64 KiB is not exported: the scanner fails, and
    the run exits before anything is printed or renamed. *)
Example export_line_too_long :
  match main_export tcBuilds "/p" "goscript" "big" (withFiles longFiles) with
  | Exit c w' =>
      c = 1%Z /\ stdout w' = "" /\ history w' = []
      /\ stderr w' = [AsFormat (ErrTooLong +:+ nl)]
      /\ bool_decide (files w' = longFiles) = true
  | _ => False
  end.
Proof. vm_compute. repeat split. Qed.

(** ** Temporary commands *)

Lemma cleanTemporaryFiles_run projectDir name w :
  exists w',
    cleanTemporaryFiles projectDir name w = Ret tt w'
    /\ files w' = delete (binPath projectDir name)
                    (delete (srcPath projectDir name) (files w))
    /\ history w' = history w.
Proof.
  unfold cleanTemporaryFiles.
  fold (srcPath projectDir name) (binPath projectDir name).
  unfold bind at 1, checkFileExists at 1, gets.
  destruct (files w !! srcPath projectDir name) as [data|] eqn:Hs.
  - rewrite bool_decide_true by eauto. unfold when at 1.
    erewrite bind_Ret; cycle 1.
    { erewrite bind_Ret; [|by eapply os_Remove_ok].
      erewrite bind_Ret; [|apply check_nil]. reflexivity. }
    unfold bind at 1, checkFileExists at 1, gets. cbn [files set_files].
    rewrite lookup_delete_ne by apply srcPath_neq_binPath.
    destruct (files w !! binPath projectDir name) as [b|] eqn:Hb.
    + rewrite bool_decide_true by eauto. unfold when.
      erewrite bind_Ret; cycle 1.
      { eapply os_Remove_ok. cbn [files set_files].
        rewrite lookup_delete_ne by apply srcPath_neq_binPath. exact Hb. }
      erewrite bind_Ret; [|apply check_nil]. eexists. split; [reflexivity|]. done.
    + rewrite bool_decide_false by (by intros [? ?]). unfold when, ret.
      eexists. split; [reflexivity|]. cbn [files set_files history].
      split; [|done]. symmetry. apply delete_id.
      by rewrite lookup_delete_ne by apply srcPath_neq_binPath.
  - rewrite bool_decide_false by (by intros [? ?]). unfold when at 1.
    erewrite bind_Ret; [|reflexivity].
    unfold bind at 1, checkFileExists at 1, gets.
    rewrite (delete_id (files w) (srcPath projectDir name)) by done.
    destruct (files w !! binPath projectDir name) as [b|] eqn:Hb.
    + rewrite bool_decide_true by eauto. unfold when.
      erewrite bind_Ret; [|by eapply os_Remove_ok].
      erewrite bind_Ret; [|apply check_nil]. eexists. split; [reflexivity|]. done.
    + rewrite bool_decide_false by (by intros [? ?]). unfold when, ret.
      eexists. split; [reflexivity|]. split; [|done].
      symmetry. by apply delete_id.
Qed.

Lemma cleanTemporaryFiles_removes projectDir name w :
  exists w',
    cleanTemporaryFiles projectDir name w = Ret tt w'
    /\ files w' !! srcPath projectDir name = None
    /\ files w' !! binPath projectDir name = None.
Proof.
  destruct (cleanTemporaryFiles_run projectDir name w) as (w' & Hr & Hf & _).
  exists w'. split; [done|]. rewrite Hf. split.
  - rewrite lookup_delete_ne by (apply not_eq_sym, srcPath_neq_binPath).
    apply lookup_delete_eq.
  - apply lookup_delete_eq.
Qed.

(** C2, where the code falls short of it: a one-liner run without a name
    is saved under a generated name; the build asks for a module, the
    fetch fails, [check] at level 2 exits inside [goGet], and the
    generated source file stays on disk, whatever the fuel. *)
Theorem C2_fetch_failure_leaves_source (fuel : nat) :
  exists w',
    main_build tcOffline "/p" (S fuel) oneLiner tmplWorld = Exit 1 w'
    /\ files w' !! srcPath "/p" "gocmd-42"
       = Some ("package main" +:+ nl +:+ "m.Hello()")
    /\ history w' = [EvBuild (binPath "/p" "gocmd-42") (srcPath "/p" "gocmd-42");
                     EvGet "example.com/m"].
Proof.
  unfold main_build.
  erewrite bind_Ret; [|vm_compute; reflexivity].
  erewrite bind_Ret; [|vm_compute; reflexivity].
  cbn [name oneLiner]. rewrite bool_decide_true by done.
  erewrite bind_Ret; [|vm_compute; reflexivity].
  erewrite bind_Exit; cycle 1.
  { erewrite compileBinary_retry; [|vm_compute; reflexivity|by vm_compute].
    vm_compute. reflexivity. }
  eexists. split; [reflexivity|]. split; vm_compute; reflexivity.
Qed.

Lemma keepsStore_refl w : keepsStore w w.
Proof. done. Qed.

Lemma keepsStore_trans w1 w2 w3 :
  keepsStore w1 w2 -> keepsStore w2 w3 -> keepsStore w1 w3.
Proof. unfold keepsStore. intros [-> ->] [-> ->]. done. Qed.

Lemma check_keepsStore e errLevel customMsg :
  preserves keepsStore (check e errLevel customMsg).
Proof.
  intros w. unfold check. destruct e as [msg|]; [|done].
  repeat (case_match; try done).
Qed.

Lemma readSourceFile_keepsStore filename : preserves keepsStore (readSourceFile filename).
Proof.
  unfold readSourceFile.
  apply preserves_bind; [apply keepsStore_trans|done|intros [err data]].
  apply preserves_bind; [apply keepsStore_trans|apply check_keepsStore|intros _].
  destruct (scanFile data) as [lines scanErr].
  apply preserves_bind; [apply keepsStore_trans|apply check_keepsStore|done].
Qed.

Lemma assembleSourceFile_keepsStore tc projectDir code :
  preserves keepsStore (assembleSourceFile tc projectDir code).
Proof.
  unfold assembleSourceFile.
  apply preserves_bind; [apply keepsStore_trans|done|intros isFile].
  apply preserves_bind; [apply keepsStore_trans| |intros code'].
  { destruct isFile; [apply readSourceFile_keepsStore|done]. }
  apply preserves_bind; [apply keepsStore_trans| |intros u].
  { intros w. by destruct (readUserImports_pure tc projectDir w) as [? ->]. }
  apply preserves_bind; [apply keepsStore_trans|done|intros base].
  apply preserves_bind; [apply keepsStore_trans|done|intros _].
  apply preserves_bind; [apply keepsStore_trans| |intros buf].
  { unfold processTemplate.
    apply preserves_bind; [apply keepsStore_trans|done|intros [err tmpl]].
    apply preserves_bind; [apply keepsStore_trans|apply check_keepsStore|intros _].
    case_match.
    apply preserves_bind; [apply keepsStore_trans|apply check_keepsStore|done]. }
  unfold formatCode. case_match.
  apply preserves_bind; [apply keepsStore_trans|apply check_keepsStore|].
  intros []; done.
Qed.

Lemma chooseSource_keepsStore tc projectDir fl :
  preserves keepsStore (chooseSource tc projectDir fl).
Proof.
  unfold chooseSource. repeat case_bool_decide.
  - apply readSourceFile_keepsStore.
  - apply assembleSourceFile_keepsStore.
  - apply readSourceFile_keepsStore.
  - done.
Qed.

(** Where the code does clean up: when no build of the toolchain asks for
    a package, a run under a generated name either ends before anything is
    written or ends with neither the generated source nor its binary. *)
Lemma main_build_cleans tc projectDir fuel fl w :
  name fl = "" ->
  (forall h fs b s err out,
      go_build tc h fs b s = BuildFail err out -> goGetMatches out = []) ->
  let tmp := "gocmd-" +:+ formatInt (time_Now tc (history w)) in
  let o := main_build tc projectDir (S fuel) fl w in
  files (world_of o) = files w
  \/ (files (world_of o) !! srcPath projectDir tmp = None
      /\ files (world_of o) !! binPath projectDir tmp = None).
Proof.
  intros Hname Hbuild tmp o.
  assert (forall (c : Z) w4, exists w5,
    (when true (cleanTemporaryFiles projectDir tmp) >> @os_Exit unit c) w4 = Exit c w5
    /\ files w5 !! srcPath projectDir tmp = None
    /\ files w5 !! binPath projectDir tmp = None) as Hclean.
  { intros c w4.
    destruct (cleanTemporaryFiles_removes projectDir tmp w4) as (w5 & Hr & H1 & H2).
    exists w5. unfold when. erewrite bind_Ret; [|exact Hr]. done. }
  assert (exists o', o = o'
    /\ (files (world_of o') = files w
        \/ (files (world_of o') !! srcPath projectDir tmp = None
            /\ files (world_of o') !! binPath projectDir tmp = None)))
    as (o' & -> & H); [|exact H].
  subst o. unfold main_build.
  destruct (chooseSource_keepsStore tc projectDir fl w) as [Hfiles Hhist].
  destruct (chooseSource tc projectDir fl w) as [buf w1|c w1|e w1|w1] eqn:Hch;
    simpl in Hfiles, Hhist; cycle 1.
  { erewrite bind_Exit; [|exact Hch]. eexists. split; [reflexivity|by left]. }
  { unfold bind at 1. rewrite Hch. eexists. split; [reflexivity|by left]. }
  { unfold bind at 1. rewrite Hch. eexists. split; [reflexivity|by left]. }
  erewrite bind_Ret; [|exact Hch].
  erewrite bind_Ret; [|reflexivity].
  rewrite Hname, bool_decide_true by done. rewrite Hhist. fold tmp.
  fold (srcPath projectDir tmp) (binPath projectDir tmp).
  erewrite bind_Ret; [|reflexivity].
  set (w2 := set_files _ w1).
  assert (exists compiled w3,
    compileBinary tc projectDir (S fuel) (srcPath projectDir tmp)
      (binPath projectDir tmp) w2 = Ret compiled w3) as (compiled & w3 & Hc).
  { destruct (go_build tc (history w2) (files w2) (binPath projectDir tmp)
                (srcPath projectDir tmp)) as [binary|err out] eqn:Hb.
    - eexists _, _. by apply compileBinary_built.
    - eexists _, _. eapply compileBinary_failed; [done|by eapply Hbuild]. }
  erewrite bind_Ret; [|exact Hc].
  destruct compiled; cbn [negb].
  - destruct (execCode fl).
    + erewrite bind_Ret; [|reflexivity].
      destruct (run_child tc _ _ _ _) as [err|exitCode|].
      * erewrite bind_Ret; [|reflexivity].
        destruct (Hclean 1%Z (add_stderr (Plain (err +:+ nl))
                    (add_event (EvRun (binPath projectDir tmp) (subprocessArgs fl)) w3)))
          as (w5 & -> & H1 & H2).
        eexists. split; [reflexivity|by right].
      * destruct (Hclean exitCode
                    (add_event (EvRun (binPath projectDir tmp) (subprocessArgs fl)) w3))
          as (w5 & -> & H1 & H2).
        eexists. split; [reflexivity|by right].
      * destruct (Hclean 1%Z
                    (add_event (EvRun (binPath projectDir tmp) (subprocessArgs fl)) w3))
          as (w5 & -> & H1 & H2).
        eexists. split; [reflexivity|by right].
    + destruct (cleanTemporaryFiles_removes projectDir tmp w3) as (w5 & Hr & H1 & H2).
      unfold when. rewrite Hr. eexists. split; [reflexivity|by right].
  - destruct (Hclean 1%Z w3) as (w5 & -> & H1 & H2).
    eexists. split; [reflexivity|by right].
Qed.

(** ** White space *)

Lemma allSpace_app a b : allSpace a -> allSpace b -> allSpace (a +:+ b).
Proof.
  induction 1 as [|r s Hr _ IH]; intros Hb; [done|].
  rewrite append_assoc. constructor; auto.
Qed.

Lemma allSpace_single r : r ∈ spaceRunes -> allSpace r.
Proof. intros H. rewrite <- (append_nil_r r). by constructor; [|constructor]. Qed.

Lemma length_rev s : String.length (String.rev s) = String.length s.
Proof.
  assert (forall l, String.length (text l) = length l) as Hl.
  { induction l as [|c l IH]; simpl; [done|]. by rewrite IH. }
  rewrite <- (text_chars (String.rev s)), chars_rev, Hl, length_rev.
  by rewrite <- Hl, text_chars.
Qed.

Lemma rev_empty s : String.rev s = "" -> s = "".
Proof. intros H%(f_equal String.length). rewrite length_rev in H. by destruct s. Qed.

Lemma leadingSpaceWidth_rune s n :
  leadingSpaceWidth s = S n ->
  exists r, r ∈ spaceRunes /\ s = r +:+ dropChars (S n) s.
Proof.
  unfold leadingSpaceWidth.
  destruct (find _ spaceRunes) as [r|] eqn:Hf; [|done].
  apply find_some in Hf as [Hin Hp]. intros <-.
  exists r. split; [by apply list_elem_of_In|by apply prefix_inv].
Qed.

Lemma trailingSpaceWidth_rune x n :
  trailingSpaceWidth x = S n ->
  exists r, r ∈ spaceRunes /\ x = String.rev r +:+ dropChars (S n) x.
Proof.
  unfold trailingSpaceWidth.
  destruct (find _ spaceRunes) as [r|] eqn:Hf; [|done].
  apply find_some in Hf as [Hin Hp]. intros <-.
  exists r. split; [by apply list_elem_of_In|].
  rewrite <- (length_rev r). by apply prefix_inv.
Qed.

(** What [TrimLeftSpace] removes is white space. *)
Lemma trimLeft_allSpace fuel s :
  exists p, allSpace p /\ s = p +:+ trimWith leadingSpaceWidth fuel s.
Proof.
  revert s. induction fuel as [|fuel IH]; intros s.
  - exists "". split; [constructor|done].
  - cbn [trimWith]. destruct (leadingSpaceWidth s) as [|n] eqn:Hw.
    + exists "". split; [constructor|done].
    + apply leadingSpaceWidth_rune in Hw as (r & Hr & Hs).
      destruct (IH (dropChars (S n) s)) as (p & Hp & Heq).
      exists (r +:+ p). split; [by constructor|].
      rewrite append_assoc, <- Heq. exact Hs.
Qed.

(** A text that [TrimRightSpace] removes entirely is white space. *)
Lemma trimRight_allSpace fuel x :
  trimWith trailingSpaceWidth fuel x = "" -> allSpace (String.rev x).
Proof.
  revert x. induction fuel as [|fuel IH]; intros x.
  - simpl. intros ->. constructor.
  - cbn [trimWith]. destruct (trailingSpaceWidth x) as [|n] eqn:Hw.
    + intros ->. constructor.
    + apply trailingSpaceWidth_rune in Hw as (r & Hr & Hx). intros Ht.
      rewrite Hx, rev_append, rev_rev.
      apply allSpace_app; [by apply IH|by apply allSpace_single].
Qed.

Lemma leadingSpaceWidth_allSpace r s :
  r ∈ spaceRunes -> leadingSpaceWidth (r +:+ s) = String.length r.
Proof.
  intros Hr. unfold spaceRunes in Hr. cbn in Hr.
  repeat (apply elem_of_cons in Hr as [-> | Hr]; [by destruct s|]).
  by apply elem_of_nil in Hr.
Qed.

Lemma trimLeft_of_allSpace s fuel :
  allSpace s -> String.length s <= fuel -> trimWith leadingSpaceWidth fuel s = "".
Proof.
  intros Hs. revert fuel. induction Hs as [|r s Hr Hs IH]; intros fuel Hfuel.
  - by destruct fuel.
  - assert (0 < String.length r) as Hlen.
    { unfold spaceRunes in Hr. cbn in Hr.
      repeat (apply elem_of_cons in Hr as [-> | Hr]; [simpl; lia|]).
      by apply elem_of_nil in Hr. }
    rewrite length_append in Hfuel.
    destruct fuel as [|fuel]; [lia|]. cbn [trimWith].
    rewrite leadingSpaceWidth_allSpace by done.
    destruct (String.length r) as [|n] eqn:Hn; [lia|].
    rewrite <- Hn, dropChars_append. apply IH. lia.
Qed.

(** [TrimSpace] leaves nothing exactly of the texts that are white space. *)
Lemma TrimSpace_empty s : TrimSpace s = "" <-> allSpace s.
Proof.
  unfold TrimSpace, TrimRightSpace, TrimLeftSpace. split.
  - intros H%rev_empty%trimRight_allSpace. rewrite rev_rev in H.
    destruct (trimLeft_allSpace (String.length s) s) as (p & Hp & Heq).
    rewrite Heq. by apply allSpace_app.
  - intros Hs. by rewrite (trimLeft_of_allSpace s (String.length s) Hs).
Qed.

(** ** Forwarding the terminal input *)

Lemma notNewline_false c : notNewline c = false -> c = newline.
Proof. unfold notNewline. intros H%negb_false_iff. by apply Ascii.eqb_eq. Qed.

Lemma completeLinesFrom_end cur l :
  noNewline l -> completeLinesFrom cur l = [].
Proof.
  revert cur. induction l as [|c l IH]; intros cur Hl; [done|].
  unfold noNewline in Hl. rewrite all_chars_cons in Hl.
  apply andb_true_iff in Hl as [Hc Hl]. simpl. unfold notNewline in Hc.
  destruct (Ascii.eqb c newline); [done|]. by apply IH.
Qed.

Lemma completeLinesFrom_line cur l rest :
  noNewline l ->
  completeLinesFrom cur (l +:+ String newline rest)
  = (cur +:+ l +:+ nl) :: completeLinesFrom "" rest.
Proof.
  revert cur. induction l as [|c l IH]; intros cur Hl.
  - by rewrite append_nil_l.
  - unfold noNewline in Hl. rewrite all_chars_cons in Hl.
    apply andb_true_iff in Hl as [Hc Hl]. rewrite append_cons. simpl.
    unfold notNewline in Hc. destruct (Ascii.eqb c newline); [done|].
    rewrite IH by done. by rewrite append_assoc.
Qed.

(** [ReadString] either yields the next complete line or meets the end. *)
Lemma ReadString_cases input :
  (exists line rest,
      Goscripts.ReadString input = (line, None, rest)
      /\ completeLines input = line :: completeLines rest
      /\ String.length rest < String.length input)
  \/ (exists line,
      Goscripts.ReadString input = (line, Some "EOF", "")
      /\ completeLines input = []).
Proof.
  unfold Goscripts.ReadString.
  destruct (span notNewline input) as [l rest] eqn:Hs.
  apply span_spec in Hs as (-> & Hl & Hrest).
  destruct rest as [|c rest].
  - right. exists l. split; [done|]. rewrite append_nil_r.
    by apply completeLinesFrom_end.
  - left. apply notNewline_false in Hrest as ->.
    exists (l +:+ nl), rest. split; [done|]. split.
    + unfold completeLines. by rewrite completeLinesFrom_line.
    + rewrite length_append. simpl. lia.
Qed.

Lemma length_zero s : (String.length s =? 0)%nat = true <-> s = "".
Proof. destruct s; simpl; split; done. Qed.

(** The loop of the forwarding goroutine. *)
Lemma forwardInput_lines fuel stdin cmdStdin :
  String.length stdin < fuel ->
  exists pre rest,
    completeLines stdin = pre ++ rest
    /\ Forall (fun l => ~ allSpace l) pre
    /\ match rest with [] => True | b :: _ => allSpace b end
    /\ Goscripts.forwardInput fuel stdin cmdStdin = cmdStdin +:+ concatStrings pre.
Proof.
  revert stdin cmdStdin. induction fuel as [|fuel IH]; intros stdin cmdStdin Hfuel; [lia|].
  cbn [Goscripts.forwardInput].
  destruct (ReadString_cases stdin)
    as [(line & rest & -> & Hlines & Hlen) | (line & -> & Hlines)].
  - rewrite bool_decide_false by (by intros H; apply H). simpl orb.
    destruct (String.length (TrimSpace line) =? 0)%nat eqn:Hblank.
    + exists [], (line :: completeLines rest).
      split; [done|]. split; [constructor|]. split.
      * by apply TrimSpace_empty, length_zero.
      * by rewrite append_nil_r.
    + destruct (IH rest (cmdStdin +:+ line)) as (pre & rest' & Hr & Hpre & Hb & Hf);
        [lia|].
      exists (line :: pre), rest'. split; [by rewrite Hlines, Hr|]. split.
      * constructor; [|done]. intros Hs%TrimSpace_empty%length_zero. congruence.
      * split; [done|]. rewrite Hf. simpl. by rewrite append_assoc.
  - rewrite bool_decide_true by done. simpl orb.
    exists [], []. rewrite Hlines. split; [done|]. split; [constructor|].
    split; [done|]. by rewrite append_nil_r.
Qed.

(** C9, as amended: in the piped execution the parent forwards the
    newline-terminated lines of the terminal input one by one, and stops
    at the first line made of white space only or, when there is none, at
    the end of the input; what follows the last newline is read and not
    forwarded.  What the child prints is captured whole and printed once
    [CombinedOutput] has returned. *)
Theorem C9_piped_passthrough (child : Goscripts.Child) (stdin : string) (w : World) :
  exists pre rest,
    completeLines stdin = pre ++ rest
    /\ Forall (fun l => ~ allSpace l) pre
    /\ match rest with [] => True | b :: _ => allSpace b end
    /\ (forall fuel, String.length stdin < fuel ->
          Goscripts.forwardInput fuel stdin "" = concatStrings pre)
    /\ Goscripts.execPiped child stdin w
       = Ret tt (add_stdout (childReport (child (concatStrings pre))) w).
Proof.
  destruct (forwardInput_lines (S (String.length stdin)) stdin "")
    as (pre & rest & Hl & Hpre & Hb & Hf); [lia|].
  exists pre, rest. split; [done|]. split; [done|]. split; [done|]. split.
  - intros fuel Hfuel.
    destruct (forwardInput_lines fuel stdin "" Hfuel)
      as (pre' & rest' & Hl' & Hpre' & Hb' & ->).
    rewrite append_nil_l. f_equal.
    clear Hf. rewrite Hl in Hl'. clear Hl.
    revert pre' Hl' Hpre'. induction Hpre as [|l pre Hl _ IH]; intros pre' Hl' Hpre'.
    + destruct Hpre' as [|l' pre' Hl'' _]; [done|].
      simpl in Hl'. destruct rest as [|b rest]; [done|].
      injection Hl' as -> _. by destruct Hl''.
    + destruct Hpre' as [|l' pre' Hl'' Hpre'].
      * simpl in Hl'. destruct rest' as [|b rest']; [done|].
        injection Hl' as <- _. by destruct Hl.
      * simpl in Hl'. injection Hl' as <- Hl'. f_equal. by apply IH.
  - unfold Goscripts.execPiped. rewrite Hf, append_nil_l.
    by destruct (child (concatStrings pre)).
Qed.

(** The claim as first stated fails for an input whose last line has no
    newline: no line of it is blank, and the forwarding stops before the
    input ends; the last line is read and not forwarded. *)
Lemma C9_counterexample :
  let stdin := "one" +:+ nl +:+ "two" in
  linesOf stdin = ["one"; "two"]
  /\ Forall (fun l => ~ allSpace l) (linesOf stdin)
  /\ Goscripts.forwardInput (S (String.length stdin)) stdin "" = "one" +:+ nl
  /\ Goscripts.forwardInput (S (String.length stdin)) stdin "" <> stdin
  /\ Goscripts.execPiped echoChild stdin emptyWorld
     = Ret tt (add_stdout ("one" +:+ nl) emptyWorld).
Proof.
  assert (forall l, TrimSpace l <> "" -> ~ allSpace l) as Hblank.
  { intros l Hl Hs. by apply TrimSpace_empty in Hs. }
  split; [vm_compute; reflexivity|]. split.
  { change (linesOf ("one" +:+ nl +:+ "two")) with ["one"; "two"].
    repeat constructor; apply Hblank; vm_compute; discriminate. }
  split; [vm_compute; reflexivity|]. split; [vm_compute; discriminate|].
  vm_compute. reflexivity.
Qed.

(** Two lines, a blank line, and a line that is never forwarded. *)
Example forward_until_blank :
  Goscripts.forwardInput 64
    ("one" +:+ nl +:+ "two" +:+ nl +:+ "  " +:+ nl +:+ "three" +:+ nl) ""
  = "one" +:+ nl +:+ "two" +:+ nl.
Proof. vm_compute. reflexivity. Qed.

(** A child that echoes what it is fed: the printed text is those two lines. *)
Example echo_until_blank :
  Goscripts.execPiped echoChild
    ("one" +:+ nl +:+ "two" +:+ nl +:+ nl +:+ "three" +:+ nl) emptyWorld
  = Ret tt (add_stdout ("one" +:+ nl +:+ "two" +:+ nl) emptyWorld).
Proof. vm_compute. reflexivity. Qed.

(** ** Nothing is ever deferred *)

Ltac keeps_saved_step :=
  apply preserves_bind; [apply keepsSaved_trans| |intros ?].

Lemma check_keepsSaved e errLevel customMsg :
  errLevel <> 0%Z -> preserves keepsSaved (check e errLevel customMsg).
Proof.
  intros Hl w. unfold check. destruct e as [msg|]; [|done].
  destruct (errLevel =? 0)%Z eqn:H0; [by apply Z.eqb_eq in H0|].
  repeat (case_match; try done).
Qed.

Lemma readSourceFile_keepsSaved filename : preserves keepsSaved (readSourceFile filename).
Proof.
  unfold readSourceFile. keeps_saved_step; [done|]. case_match.
  keeps_saved_step; [by apply check_keepsSaved|]. case_match.
  keeps_saved_step; [by apply check_keepsSaved|done].
Qed.

Lemma readUserImports_keepsSaved tc projectDir :
  preserves keepsSaved (readUserImports tc projectDir).
Proof. intros w. by destruct (readUserImports_pure tc projectDir w) as [? ->]. Qed.

Lemma goTidy_keepsSaved tc : preserves keepsSaved (goTidy tc).
Proof. intros w. by destruct (goTidy_cases tc w) as [-> | [m ->]]. Qed.

Lemma goGet_keepsSaved tc projectDir pkg :
  preserves keepsSaved (goGet tc projectDir pkg).
Proof.
  unfold goGet. keeps_saved_step; [done|]. case_match.
  keeps_saved_step; [by apply check_keepsSaved|].
  keeps_saved_step.
  { unfold when. destruct (_ <? _)%Z; [apply goTidy_keepsSaved|done]. }
  keeps_saved_step; [done|].
  keeps_saved_step; [by apply check_keepsSaved|].
  keeps_saved_step; [apply readUserImports_keepsSaved|].
  unfold writeUserImports.
  keeps_saved_step; [by apply check_keepsSaved|].
  keeps_saved_step; [done|].
  keeps_saved_step; [by apply check_keepsSaved|done].
Qed.

Lemma compileBinary_keepsSaved tc projectDir fuel src bin :
  preserves keepsSaved (compileBinary tc projectDir fuel src bin).
Proof.
  induction fuel as [|fuel IH]; [done|]. cbn [compileBinary].
  keeps_saved_step.
  { intros w. unfold run_go_build, bind, gets, modify, ret. simpl.
    by destruct (go_build tc (history w) (files w) bin src). }
  case_match; [done|]. case_match.
  - keeps_saved_step.
    { apply forM_preserves; [done|apply keepsSaved_trans|].
      intros m. apply goGet_keepsSaved. }
    keeps_saved_step; [exact IH|done].
  - keeps_saved_step; [by apply check_keepsSaved|]. by case_match.
Qed.

Lemma assembleSourceFile_keepsSaved tc projectDir code :
  preserves keepsSaved (assembleSourceFile tc projectDir code).
Proof.
  unfold assembleSourceFile. keeps_saved_step; [done|].
  keeps_saved_step; [case_match; [apply readSourceFile_keepsSaved|done]|].
  keeps_saved_step; [apply readUserImports_keepsSaved|].
  keeps_saved_step; [done|]. keeps_saved_step; [done|].
  keeps_saved_step.
  { unfold processTemplate. keeps_saved_step; [done|]. case_match.
    keeps_saved_step; [by apply check_keepsSaved|]. case_match.
    keeps_saved_step; [by apply check_keepsSaved|done]. }
  unfold formatCode. case_match.
  keeps_saved_step; [by apply check_keepsSaved|]. by destruct (negb _).
Qed.

Lemma cleanTemporaryFiles_keepsSaved projectDir name :
  preserves keepsSaved (cleanTemporaryFiles projectDir name).
Proof.
  assert (forall p, preserves keepsSaved
            (let* err := os_Remove p in check err 1 "" >> ret tt)) as Hrm.
  { intros p. keeps_saved_step.
    - intros w. unfold os_Remove. by case_match.
    - keeps_saved_step; [by apply check_keepsSaved|done]. }
  unfold cleanTemporaryFiles. keeps_saved_step; [done|].
  keeps_saved_step; [unfold when; case_match; [apply Hrm|done]|].
  keeps_saved_step; [done|]. unfold when. case_match; [apply Hrm|done].
Qed.

(** No run of the end of [main] records a message for the end of the run:
    every call of [check] there is at level 1 or 2. *)
Lemma main_build_keepsSaved tc projectDir fuel fl :
  preserves keepsSaved (main_build tc projectDir fuel fl).
Proof.
  unfold main_build. keeps_saved_step.
  { unfold chooseSource. repeat case_bool_decide.
    - apply readSourceFile_keepsSaved.
    - apply assembleSourceFile_keepsSaved.
    - apply readSourceFile_keepsSaved.
    - done. }
  keeps_saved_step; [done|].
  match goal with |- context [if bool_decide (name fl = "") then ?x else ?y] =>
    destruct (if bool_decide (name fl = "") then x else y) as [nm isTemporary]
  end.
  keeps_saved_step.
  { unfold writeSourceFile. keeps_saved_step; [done|].
    keeps_saved_step; [by apply check_keepsSaved|].
    keeps_saved_step; [by apply check_keepsSaved|done]. }
  keeps_saved_step; [apply compileBinary_keepsSaved|].
  assert (forall b n, preserves keepsSaved (when b (cleanTemporaryFiles projectDir n)))
    as Hclean.
  { intros [] n; [apply cleanTemporaryFiles_keepsSaved|done]. }
  match goal with |- context [negb ?c] => destruct c end; cbn [negb].
  - destruct (execCode fl); [|apply Hclean].
    keeps_saved_step; [done|].
    match goal with r : ChildResult |- _ => destruct r end.
    + keeps_saved_step; [done|]. keeps_saved_step; [apply Hclean|done].
    + keeps_saved_step; [apply Hclean|done].
    + keeps_saved_step; [apply Hclean|done].
  - keeps_saved_step; [apply Hclean|done].
Qed.

(** A whole run on a fragment the formatter rejects: the message is on the
    error stream, nothing is deferred, and the unformatted source is built
    and run. *)
Example format_failure_run :
  main_build tcNoFormat "/p" 2 oneLiner tmplWorld
  = Exit 0
      {| files := files tmplWorld; ImportsMap := ∅; stdout := "";
         stderr := [Plain ("Code formatting failed" +:+ nl
                           +:+ "1:1: expected declaration" +:+ nl)];
         savedErrors := [];
         history := [EvBuild (binPath "/p" "gocmd-42") (srcPath "/p" "gocmd-42");
                     EvRun (binPath "/p" "gocmd-42") []] |}.
Proof. vm_compute. reflexivity. Qed.

(** ** Further runs *)


(** A restore whose first build asks for a module: the module is fetched,
    the user table is rewritten, the build is retried, and the command is
    active again with its source unchanged. *)
Example restore_with_fetch :
  let w1 := world_of (deleteCommand tcBuilds "/p" "hello" helloWorld) in
  exists w2,
    restoreCommand tcTwice "/p" 2 "hello" w1 = Ret tt w2
    /\ files w2 = <["/p/imports.json" := "{}"]> helloFiles
    /\ history w2
       = [EvTidy; EvBuild (binPath "/p" "hello") (srcPath "/p" "hello");
          EvGet "example.com/m"; EvGet "example.com/m";
          EvBuild (binPath "/p" "hello") (srcPath "/p" "hello")].
Proof. eexists. split; [vm_compute; reflexivity|]. split; vm_compute; reflexivity. Qed.

Lemma goGet_tcStuck projectDir pkg w :
  exists w', goGet tcStuck projectDir pkg w = Ret tt w'.
Proof.
  unfold goGet. erewrite bind_Ret; [|reflexivity]. cbn [stat_go_mod tcStuck mkToolchain].
  erewrite bind_Ret; [|apply check_nil].
  erewrite bind_Ret; [|reflexivity].
  erewrite bind_Ret; [|reflexivity].
  erewrite bind_Ret; [|apply check_nil].
  destruct (readUserImports_pure tcStuck projectDir
              (add_event (EvGet pkg) w)) as [u Hu].
  erewrite bind_Ret; [|exact Hu]. by eexists.
Qed.

(** The recursion of [compileBinary] is bounded only by a fetch that
    fails or a build that stops asking: with a toolchain that keeps asking
    for a module that every fetch claims to provide, no amount of fuel is
    enough. *)
Example compileBinary_unbounded projectDir fuel src bin w :
  exists w', compileBinary tcStuck projectDir fuel src bin w = OutOfFuel w'.
Proof.
  revert w. induction fuel as [|fuel IH]; intros w; [by eexists|].
  rewrite (compileBinary_retry tcStuck projectDir fuel src bin w "exit status 1" diagOnce);
    [|reflexivity|by vm_compute].
  assert (goGetMatches diagOnce = ["example.com/m"]) as -> by (vm_compute; reflexivity).
  cbn [forM_].
  destruct (goGet_tcStuck projectDir (TrimSpace "example.com/m")
              (add_event (EvBuild bin src) w)) as [w1 Hg].
  erewrite bind_Ret; cycle 1.
  { erewrite bind_Ret; [|exact Hg]. reflexivity. }
  destruct (IH w1) as [w2 Hw2]. unfold bind at 1. rewrite Hw2. by eexists.
Qed.

(** ** The fuel of the text functions is enough

    The scans over a text take the length of the text as fuel; each step
    consumes a byte or more, so more fuel gives the same result. *)

Lemma pkgMatches_fuel code fuel :
  String.length code <= fuel -> findAllFrom matchWordDot fuel code = pkgMatches code.
Proof. apply findAllFrom_fuel. apply matchWordDot_shorter. Qed.

Lemma matchGoGet_shorter s k rest :
  matchGoGet s = Some (k, rest) -> String.length rest < String.length s.
Proof.
  unfold matchGoGet, HasPrefix.
  destruct (String.prefix "go get " s) eqn:Hp; [|done].
  apply prefix_inv in Hp. change (String.length "go get ") with 7 in Hp.
  destruct (span notNewline (dropChars 7 s)) as [a b] eqn:Hs.
  apply span_length in Hs. destruct a as [|c a]; [done|].
  intros [= <- <-]. rewrite Hp, length_append, Hs. simpl. lia.
Qed.

Lemma goGetMatches_fuel out fuel :
  String.length out <= fuel -> findAllFrom matchGoGet fuel out = goGetMatches out.
Proof. apply findAllFrom_fuel. apply matchGoGet_shorter. Qed.

Lemma scanLines_fuel fuel data :
  String.length data <= fuel -> scanLines fuel data = scanFile data.
Proof.
  unfold scanFile. revert data. induction fuel as [fuel IH] using lt_wf_ind.
  intros data Hle. destruct data as [|c data]; [by destruct fuel|].
  destruct fuel as [|fuel]; [simpl in Hle; lia|].
  cbn [scanLines String.length].
  destruct (span notNewline (String c data)) as [raw rest] eqn:Hs.
  destruct (tooLong raw); [done|].
  apply span_length in Hs. simpl in Hs, Hle.
  set (rest' := match rest with String _ r => r | "" => "" end).
  assert (String.length rest' <= String.length data) as Hr.
  { subst rest'. destruct rest as [|d r]; simpl in *; lia. }
  rewrite (IH fuel) by lia.
  by rewrite (IH (String.length data)) by lia.
Qed.

Lemma dropChars_length n s : String.length (dropChars n s) = String.length s - n.
Proof.
  revert s. induction n as [|n IH]; intros [|c s]; simpl; auto with lia.
Qed.

Lemma trimWith_fuel width fuel s :
  width "" = 0 -> String.length s <= fuel ->
  trimWith width fuel s = trimWith width (String.length s) s.
Proof.
  intros Hw. revert s. induction fuel as [fuel IH] using lt_wf_ind.
  intros s Hle. destruct s as [|c s].
  { destruct fuel; simpl; [done|]. by rewrite Hw. }
  destruct fuel as [|fuel]; [simpl in Hle; lia|].
  cbn [trimWith String.length]. simpl in Hle.
  destruct (width (String c s)) as [|n]; [done|].
  assert (String.length (dropChars (S n) (String c s)) <= String.length s) as Hd.
  { rewrite dropChars_length. simpl. lia. }
  rewrite (IH fuel) by lia.
  by rewrite (IH (String.length s)) by lia.
Qed.

Lemma TrimLeftSpace_fuel fuel s :
  String.length s <= fuel -> trimWith leadingSpaceWidth fuel s = TrimLeftSpace s.
Proof. by apply trimWith_fuel. Qed.

Lemma TrimRightSpace_fuel fuel s :
  String.length s <= fuel ->
  String.rev (trimWith trailingSpaceWidth fuel (String.rev s)) = TrimRightSpace s.
Proof.
  intros Hle. unfold TrimRightSpace. f_equal.
  rewrite trimWith_fuel by (by rewrite ?length_rev). by rewrite length_rev.
Qed.

(** * Further properties of the code *)

(** ** Cleaning up, on any store *)

Lemma set_files_id f w : f (files w) = files w -> set_files f w = w.
Proof.
  intros H. destruct w as [fs im out err saved h].
  unfold set_files. simpl in *. by rewrite H.
Qed.

Lemma set_files_set_files f g w :
  set_files f (set_files g w) = set_files (fun fs => f (g fs)) w.
Proof. reflexivity. Qed.

Lemma os_Remove_missing path w :
  files w !! path = None -> os_Remove path w = Ret (Some (errNotExist "remove" path)) w.
Proof. intros H. unfold os_Remove. by rewrite H. Qed.

Lemma removeIfExists path w :
  (let* exists_ := checkFileExists path in
   when exists_ (let* err := os_Remove path in check err 1 "" >> ret tt)) w
  = Ret tt (set_files (delete path) w).
Proof.
  unfold bind at 1, checkFileExists, gets.
  destruct (files w !! path) as [data|] eqn:Hf.
  - rewrite bool_decide_true by eauto. unfold when.
    erewrite bind_Ret; [|by eapply os_Remove_ok].
    erewrite bind_Ret; [|apply check_nil]. reflexivity.
  - rewrite bool_decide_false by (by intros [? ?]). unfold when, ret.
    by rewrite set_files_id by (by apply delete_id).
Qed.

Lemma removeIfExists_then {B} path (k : M B) w :
  (let* exists_ := checkFileExists path in
   when exists_ (let* err := os_Remove path in check err 1 "" >> ret tt) >> k) w
  = k (set_files (delete path) w).
Proof.
  pose proof (removeIfExists path w) as H. unfold bind at 1 in H.
  unfold bind at 1, bind at 1. destruct (checkFileExists path w); try done.
  by rewrite H.
Qed.

(** X1: [cleanTemporaryFiles] always returns; it removes the source and the
    binary of the name, whichever of them exist, changes no other file,
    prints nothing and runs no command; so cleaning twice is cleaning
    once. *)
Theorem cleanTemporaryFiles_effect (projectDir name : string) (w : World) :
  cleanTemporaryFiles projectDir name w
  = Ret tt (set_files (fun fs => delete (binPath projectDir name)
                                   (delete (srcPath projectDir name) fs)) w)
  /\ (cleanTemporaryFiles projectDir name >> cleanTemporaryFiles projectDir name) w
     = cleanTemporaryFiles projectDir name w
  /\ forall p, p <> srcPath projectDir name -> p <> binPath projectDir name ->
       files (world_of (cleanTemporaryFiles projectDir name w)) !! p = files w !! p.
Proof.
  assert (forall w0, cleanTemporaryFiles projectDir name w0
    = Ret tt (set_files (fun fs => delete (binPath projectDir name)
                                     (delete (srcPath projectDir name) fs)) w0)) as Hrun.
  { intros w0. unfold cleanTemporaryFiles.
    fold (srcPath projectDir name) (binPath projectDir name).
    rewrite removeIfExists_then. by rewrite removeIfExists. }
  split; [apply Hrun|]. split.
  - erewrite bind_Ret; [|apply Hrun]. rewrite !Hrun. f_equal.
    rewrite set_files_set_files. destruct w as [fs im out err saved h].
    unfold set_files. simpl. f_equal.
    rewrite (delete_id (delete _ (delete _ fs)) (srcPath projectDir name)).
    + apply delete_id, lookup_delete_eq.
    + rewrite lookup_delete_ne by (apply not_eq_sym, srcPath_neq_binPath).
      apply lookup_delete_eq.
  - intros p Hs Hb. rewrite Hrun. simpl.
    by rewrite !lookup_delete_ne.
Qed.

(** ** Delete and restore, on any store *)

Lemma os_Rename_missing oldpath newpath w :
  files w !! oldpath = None ->
  os_Rename oldpath newpath w
  = Ret (Some ("rename " +:+ oldpath +:+ " " +:+ newpath
               +:+ ": no such file or directory")) w.
Proof. intros H. unfold os_Rename. by rewrite H. Qed.

Lemma softPath_go projectDir name :
  softPath projectDir name +:+ ".go" = srcPath projectDir name.
Proof. unfold softPath, srcPath. by rewrite !append_assoc. Qed.

(** The store of the program after a delete, whatever it held. *)
Lemma deleteCommand_store (tc : Toolchain) (projectDir name : string) (w : World) :
  let o := deleteCommand tc projectDir name w in
  files (world_of o)
  = delete (binPath projectDir name)
      match files w !! srcPath projectDir name with
      | Some content =>
          <[softPath projectDir name := content]> (delete (srcPath projectDir name) (files w))
      | None => files w
      end
  /\ history (world_of o) = history w ++ [EvTidy]
  /\ stdout (world_of o) = stdout w
  /\ (exists tidyError,
       stderr (world_of o)
       = stderr w
         ++ match files w !! srcPath projectDir name with
            | Some _ => []
            | None => [AsFormat (("rename " +:+ srcPath projectDir name +:+ " "
                         +:+ softPath projectDir name
                         +:+ ": no such file or directory") +:+ nl)]
            end
         ++ match files w !! binPath projectDir name with
            | Some _ => []
            | None => [AsFormat (errNotExist "remove" (binPath projectDir name) +:+ nl)]
            end
         ++ tidyError)
  /\ match cmdErr (go_mod_tidy tc (history w)) with
     | None => o = Ret tt (world_of o)
     | Some _ => o = Exit 1 (world_of o)
     end.
Proof.
  intros o. subst o. unfold deleteCommand.
  fold (softPath projectDir name) (binPath projectDir name).
  rewrite softPath_go.
  set (renameMsg := "rename " +:+ srcPath projectDir name +:+ " "
                    +:+ softPath projectDir name +:+ ": no such file or directory").
  assert (exists w1,
    (let* err := os_Rename (srcPath projectDir name) (softPath projectDir name) in
     check err 1 "" >> ret tt) w = Ret tt w1
    /\ files w1 = match files w !! srcPath projectDir name with
                  | Some content =>
                      <[softPath projectDir name := content]>
                        (delete (srcPath projectDir name) (files w))
                  | None => files w
                  end
    /\ history w1 = history w /\ stdout w1 = stdout w
    /\ stderr w1 = stderr w ++ match files w !! srcPath projectDir name with
                               | Some _ => []
                               | None => [AsFormat (renameMsg +:+ nl)]
                               end) as (w1 & Hr1 & Hf1 & Hh1 & Ho1 & He1).
  { destruct (files w !! srcPath projectDir name) as [content|] eqn:Hs.
    - erewrite bind_Ret; [|by apply os_Rename_ok].
      erewrite bind_Ret; [|apply check_nil].
      eexists. split; [reflexivity|]. simpl. by rewrite app_nil_r.
    - erewrite bind_Ret; [|by apply os_Rename_missing].
      erewrite bind_Ret; [|apply check_report].
      eexists. split; [reflexivity|]. repeat split; reflexivity. }
  assert (files w1 !! binPath projectDir name = files w !! binPath projectDir name) as Hb1.
  { rewrite Hf1. destruct (files w !! srcPath projectDir name); [|done].
    rewrite lookup_insert_ne by apply softPath_neq_binPath.
    by rewrite lookup_delete_ne by apply srcPath_neq_binPath. }
  assert (exists w2,
    (let* err := os_Remove (binPath projectDir name) in check err 1 "" >> ret tt) w1
      = Ret tt w2
    /\ files w2 = delete (binPath projectDir name) (files w1)
    /\ history w2 = history w1 /\ stdout w2 = stdout w1
    /\ stderr w2 = stderr w1 ++ match files w !! binPath projectDir name with
                                | Some _ => []
                                | None => [AsFormat (errNotExist "remove"
                                             (binPath projectDir name) +:+ nl)]
                                end) as (w2 & Hr2 & Hf2 & Hh2 & Ho2 & He2).
  { rewrite <- Hb1. destruct (files w1 !! binPath projectDir name) as [b|] eqn:Hb.
    - erewrite bind_Ret; [|by eapply os_Remove_ok].
      erewrite bind_Ret; [|apply check_nil].
      eexists. split; [reflexivity|]. simpl. by rewrite app_nil_r.
    - erewrite bind_Ret; [|by apply os_Remove_missing].
      erewrite bind_Ret; [|apply check_report].
      eexists. split; [reflexivity|]. simpl. by rewrite delete_id. }
  assert (forall k : M unit,
    (let* err := os_Rename (srcPath projectDir name) (softPath projectDir name) in
     check err 1 "" >>
     let* err := os_Remove (binPath projectDir name) in
     check err 1 "" >> k) w = k w2) as Hk.
  { intros k. revert Hr1 Hr2. unfold bind.
    destruct (os_Rename _ _ w) as [e1 w0| | |]; try done.
    destruct (check e1 1 "" w0) as [b1 w0'| | |]; try done.
    unfold ret. intros [= ->].
    destruct (os_Remove _ w1) as [e2 w0''| | |]; try done.
    destruct (check e2 1 "" w0'') as [b2 w0'''| | |]; try done.
    by intros [= ->]. }
  rewrite Hk.
  unfold goTidy, run_go_mod_tidy, bind, gets, modify, ret. cbn [history add_event].
  destruct (go_mod_tidy tc (history w2)) as [out|err out] eqn:Ht; cbn [cmdErr].
  - rewrite check_nil. cbn [world_of files history stdout stderr add_event].
    split; [by rewrite Hf2, Hf1|]. split; [by rewrite Hh2, Hh1|].
    split; [by rewrite Ho2, Ho1|]. split.
    + exists []. by rewrite He2, He1, app_nil_r, <- app_assoc.
    + rewrite <- Hh1, <- Hh2, Ht. done.
  - rewrite check_fatal.
    cbn [world_of files history stdout stderr add_event add_stderr].
    split; [by rewrite Hf2, Hf1|]. split; [by rewrite Hh2, Hh1|].
    split; [by rewrite Ho2, Ho1|]. split.
    + eexists. rewrite He2, He1, <- !app_assoc. reflexivity.
    + rewrite <- Hh1, <- Hh2, Ht. done.
Qed.

(** X2: the delete of a command, whatever the store holds: afterwards
    there is no source under the name with the extension and no binary;
    the source, when there was one, stands under the name without the
    extension, over what stood there; a missing file is reported on the
    error stream and the run goes on; [go mod tidy] is run in every case,
    and the command ends normally when it succeeds, even if nothing was
    there to delete, and with status 1 when it fails. *)
Theorem deleteCommand_any_store (tc : Toolchain) (projectDir name : string) (w : World) :
  let o := deleteCommand tc projectDir name w in
  files (world_of o) !! srcPath projectDir name = None
  /\ files (world_of o) !! softPath projectDir name
     = match files w !! srcPath projectDir name with
       | Some content => Some content
       | None => files w !! softPath projectDir name
       end
  /\ files (world_of o) !! binPath projectDir name = None
  /\ history (world_of o) = history w ++ [EvTidy]
  /\ stdout (world_of o) = stdout w
  /\ (exists tidyError,
       stderr (world_of o)
       = stderr w
         ++ match files w !! srcPath projectDir name with
            | Some _ => []
            | None => [AsFormat (("rename " +:+ srcPath projectDir name +:+ " "
                         +:+ softPath projectDir name
                         +:+ ": no such file or directory") +:+ nl)]
            end
         ++ match files w !! binPath projectDir name with
            | Some _ => []
            | None => [AsFormat (errNotExist "remove" (binPath projectDir name) +:+ nl)]
            end
         ++ tidyError)
  /\ match cmdErr (go_mod_tidy tc (history w)) with
     | None => exists w', o = Ret tt w'
     | Some _ => exists w', o = Exit 1 w'
     end.
Proof.
  intros o.
  destruct (deleteCommand_store tc projectDir name w) as (Hf & Hh & Ho & He & Hend).
  fold o in Hf, Hh, Ho, He, Hend.
  pose proof (srcPath_neq_softPath projectDir name) as Hss.
  pose proof (srcPath_neq_binPath projectDir name name) as Hsb.
  pose proof (softPath_neq_binPath projectDir name name) as Hfb.
  split; [|split; [|split; [|split; [done|split; [done|split; [done|]]]]]].
  - rewrite Hf, lookup_delete_ne by (by apply not_eq_sym).
    destruct (files w !! srcPath projectDir name) eqn:Hs; [|done].
    rewrite lookup_insert_ne by (by apply not_eq_sym). apply lookup_delete_eq.
  - rewrite Hf, lookup_delete_ne by (by apply not_eq_sym).
    destruct (files w !! srcPath projectDir name) eqn:Hs; [|done].
    apply lookup_insert_eq.
  - rewrite Hf. apply lookup_delete_eq.
  - destruct (cmdErr (go_mod_tidy tc (history w))); eauto.
Qed.

(** X3: the restore of a command: without a soft-deleted source the run ends
    with status 1 before anything is renamed or built; with one, its
    content becomes the source of the command, replacing a source of that
    name written since the delete, whatever the build then does. *)
Theorem restoreCommand_any_store (tc : Toolchain) (projectDir name : string)
    (fuel : nat) (w : World) :
  match files w !! softPath projectDir name with
  | None =>
      restoreCommand tc projectDir fuel name w
      = Exit 1 (add_stderr (AsFormat (("rename " +:+ softPath projectDir name +:+ " "
                  +:+ srcPath projectDir name +:+ ": no such file or directory") +:+ nl)) w)
  | Some old =>
      files (world_of (restoreCommand tc projectDir fuel name w)) !! srcPath projectDir name
        = Some old
      /\ files (world_of (restoreCommand tc projectDir fuel name w)) !! softPath projectDir name
        = None
  end.
Proof.
  destruct (files w !! softPath projectDir name) as [old|] eqn:Hs.
  - by apply restoreCommand_source.
  - unfold restoreCommand.
    fold (softPath projectDir name) (binPath projectDir name). rewrite softPath_go.
    erewrite bind_Ret; [|by apply os_Rename_missing].
    erewrite bind_Exit; [|apply check_fatal]. reflexivity.
Qed.

(** ** The source list *)

Lemma NoDup_omap_inj {A B} (f : A -> option B) (l : list A) :
  (forall x y z, f x = Some z -> f y = Some z -> x = y) ->
  NoDup l -> NoDup (omap f l).
Proof.
  intros Hinj. induction 1 as [|x l Hx _ IH]; simpl; [constructor|].
  destruct (f x) as [z|] eqn:Hz; [|done]. constructor; [|done].
  intros (y & Hy & Hfy)%list_elem_of_omap.
  by rewrite (Hinj x y z Hz Hfy) in Hx.
Qed.

Lemma ReadDir_NoDup dir fs : NoDup (ReadDir dir fs).
Proof.
  unfold ReadDir. apply NoDup_omap_inj; [|apply NoDup_fst_map_to_list].
  intros x y z [-> _]%entryName_Some [-> _]%entryName_Some. done.
Qed.

(** X4: [getSourceList] returns the names of the files directly in the
    source directory, each once, in ascending byte order; it changes no
    file, runs no command and prints nothing on the standard output, and
    when the list is not empty it changes nothing at all. *)
Theorem getSourceList_sorted (projectDir : string) (w : World) :
  exists cmds w',
    getSourceList projectDir w = Ret cmds w'
    /\ files w' = files w /\ history w' = history w /\ stdout w' = stdout w
    /\ (cmds <> [] -> w' = w)
    /\ Sorted String.le cmds
    /\ NoDup cmds
    /\ forall e, e ∈ cmds
         <-> is_Some (files w !! (projectDir +:+ "/src/" +:+ e))
             /\ e <> "" /\ all_chars notSlash e = true.
Proof.
  exists (sortStrings (ReadDir (projectDir +:+ "/src") (files w))), w.
  split; [reflexivity|]. do 4 (split; [done|]).
  split; [apply Sorted_merge_sort, _|]. split.
  - unfold sortStrings. rewrite merge_sort_Permutation. apply ReadDir_NoDup.
  - intros e. rewrite elem_of_sortStrings, elem_of_ReadDir.
    by rewrite append_assoc.
Qed.

(** ** What [compileBinary] returns *)

Lemma compileBinary_outcomes tc projectDir fuel src bin w :
  exists w',
    (exists ok, compileBinary tc projectDir fuel src bin w = Ret ok w')
    \/ compileBinary tc projectDir fuel src bin w = Exit 1 w'
    \/ compileBinary tc projectDir fuel src bin w = OutOfFuel w'.
Proof.
  revert w. induction fuel as [|fuel IH]; intros w; [eauto|].
  destruct (go_build tc (history w) (files w) bin src) as [binary|err out] eqn:Hb.
  { rewrite (compileBinary_built _ _ _ _ _ _ _ Hb). eauto. }
  destruct (goGetMatches out) as [|m ms] eqn:Hm.
  { rewrite (compileBinary_failed _ _ _ _ _ _ _ _ Hb Hm). eauto. }
  rewrite (compileBinary_retry _ _ _ _ _ _ _ _ Hb) by (by rewrite Hm).
  destruct (fetchBatch_cases tc projectDir (goGetMatches out)
              (add_event (EvBuild bin src) w))
    as (w1 & evs & _ & _ & _ & [[Hr _] | Hr]).
  - rewrite (bind_Ret _ _ _ _ _ Hr).
    destruct (IH w1) as (w2 & [[ok H] | [H | H]]); unfold bind; rewrite H; eauto.
  - rewrite (bind_Exit _ _ _ _ _ Hr). eauto.
Qed.

(** X5: once a build has asked for packages, [compileBinary] never reports a
    failure: the result of the retry is dropped (line 344), so the call
    returns true whatever the retried build did, unless the run ends
    inside a fetch or the retries do not end. *)
Theorem compileBinary_retry_reports_success (tc : Toolchain) (projectDir : string)
    (fuel : nat) (src bin : string) (w : World) (err out : string) :
  go_build tc (history w) (files w) bin src = BuildFail err out ->
  goGetMatches out <> [] ->
  exists w',
    compileBinary tc projectDir (S fuel) src bin w = Ret true w'
    \/ compileBinary tc projectDir (S fuel) src bin w = Exit 1 w'
    \/ compileBinary tc projectDir (S fuel) src bin w = OutOfFuel w'.
Proof.
  intros Hb Hm. rewrite (compileBinary_retry _ _ _ _ _ _ _ _ Hb Hm).
  destruct (fetchBatch_cases tc projectDir (goGetMatches out)
              (add_event (EvBuild bin src) w))
    as (w1 & evs & _ & _ & _ & [[Hr _] | Hr]).
  - rewrite (bind_Ret _ _ _ _ _ Hr).
    destruct (compileBinary_outcomes tc projectDir fuel src bin w1)
      as (w2 & [[ok H] | [H | H]]); unfold bind; rewrite H; eauto.
  - rewrite (bind_Exit _ _ _ _ _ Hr). eauto.
Qed.

Lemma compileBinary_retry_reports_success_witness :
  exists w',
    compileBinary tcRetryFails "/p" 2 "/p/src/a.go" "/p/bin/a" emptyWorld = Ret true w'
    \/ compileBinary tcRetryFails "/p" 2 "/p/src/a.go" "/p/bin/a" emptyWorld = Exit 1 w'
    \/ compileBinary tcRetryFails "/p" 2 "/p/src/a.go" "/p/bin/a" emptyWorld = OutOfFuel w'.
Proof.
  apply (compileBinary_retry_reports_success tcRetryFails "/p" 1 "/p/src/a.go" "/p/bin/a"
           emptyWorld "exit status 1" diagOnce).
  - reflexivity.
  - vm_compute. discriminate.
Defined.

(** The retried build fails, its diagnostic is printed, and the call still
    returns true: a named one-liner whose build fails in this way ends
    normally, with its source saved and no binary. *)
Example failed_retry_ends_normally :
  exists w',
    main_build tcRetryFails "/p" 2 namedLiner tmplWorld = Ret tt w'
    /\ files w' !! binPath "/p" "tool" = None
    /\ is_Some (files w' !! srcPath "/p" "tool")
    /\ stderr w' = [Plain ("a.go:3:1: syntax error" +:+ nl +:+ "exit status 1" +:+ nl)].
Proof.
  eexists. split; [vm_compute; reflexivity|].
  split; [vm_compute; reflexivity|]. split; [|vm_compute; reflexivity].
  vm_compute. eauto.
Qed.

(** ** Retries without end *)

Lemma goGet_succeeds tc projectDir pkg w :
  (forall h, exists t, stat_go_mod tc h = inr t) ->
  (forall h, cmdErr (go_mod_tidy tc h) = None) ->
  (forall h p, cmdErr (go_get tc h p) = None) ->
  exists w', goGet tc projectDir pkg w = Ret tt w'.
Proof.
  intros Hstat Htidy Hget. unfold goGet.
  erewrite bind_Ret; [|reflexivity].
  destruct (Hstat (history w)) as [t ->].
  erewrite bind_Ret; [|apply check_nil].
  assert (exists w1, when (t <? time_Now tc (history w) - week_ns)%Z (goTidy tc) w
                     = Ret tt w1) as [w1 Hw1].
  { destruct (_ <? _)%Z; simpl; [|by eexists].
    unfold goTidy, run_go_mod_tidy, bind, gets, modify, ret. simpl.
    rewrite Htidy, check_nil. by eexists. }
  erewrite bind_Ret; [|exact Hw1].
  erewrite bind_Ret; [|reflexivity].
  rewrite Hget. erewrite bind_Ret; [|apply check_nil].
  destruct (readUserImports_pure tc projectDir (add_event (EvGet pkg) w1)) as [u Hu].
  erewrite bind_Ret; [|exact Hu]. by eexists.
Qed.

Lemma fetchBatch_succeeds tc projectDir pkgs w :
  (forall h, exists t, stat_go_mod tc h = inr t) ->
  (forall h, cmdErr (go_mod_tidy tc h) = None) ->
  (forall h p, cmdErr (go_get tc h p) = None) ->
  exists w' evs,
    forM_ pkgs (fun m => goGet tc projectDir (TrimSpace m)) w = Ret tt w'
    /\ history w' = history w ++ evs /\ countEvents isBuild evs = 0.
Proof.
  intros Hstat Htidy Hget.
  assert (forall w0, exists w', forM_ pkgs (fun m => goGet tc projectDir (TrimSpace m)) w0
                                = Ret tt w') as Hok.
  { induction pkgs as [|m pkgs IH]; intros w0; simpl; [by eexists|].
    destruct (goGet_succeeds tc projectDir (TrimSpace m) w0 Hstat Htidy Hget) as [w1 H1].
    erewrite bind_Ret; [|exact H1]. apply IH. }
  destruct (Hok w) as [w' Hw'].
  destruct (fetchBatch_cases tc projectDir pkgs w)
    as (w1 & evs & Hh & _ & Hnb & [[Hr _] | Hr]); rewrite Hw' in Hr; [|done].
  injection Hr as <-. by exists w', evs.
Qed.

(** X6: nothing bounds the retries of [compileBinary]: with a toolchain whose
    build of the source asks for a package every time while every fetch
    succeeds, the call does not return; each unit of fuel is used up by
    one more build. *)
Theorem compileBinary_retries_without_bound (tc : Toolchain) (projectDir src bin : string)
    (fuel : nat) (w : World) :
  (forall h fs, exists err out,
      go_build tc h fs bin src = BuildFail err out /\ goGetMatches out <> []) ->
  (forall h, exists t, stat_go_mod tc h = inr t) ->
  (forall h, cmdErr (go_mod_tidy tc h) = None) ->
  (forall h p, cmdErr (go_get tc h p) = None) ->
  exists w' evs,
    compileBinary tc projectDir fuel src bin w = OutOfFuel w'
    /\ history w' = history w ++ evs
    /\ countEvents isBuild evs = fuel.
Proof.
  intros Hbuild Hstat Htidy Hget. revert w.
  induction fuel as [|fuel IH]; intros w.
  { exists w, []. by rewrite app_nil_r. }
  destruct (Hbuild (history w) (files w)) as (err & out & Hb & Hm).
  rewrite (compileBinary_retry _ _ _ _ _ _ _ _ Hb Hm).
  destruct (fetchBatch_succeeds tc projectDir (goGetMatches out)
              (add_event (EvBuild bin src) w) Hstat Htidy Hget)
    as (w1 & evs & Hr & Hh & Hnb).
  erewrite bind_Ret; [|exact Hr].
  destruct (IH w1) as (w2 & evs2 & Hc & Hh2 & Hn2).
  unfold bind at 1. rewrite Hc.
  exists w2, (EvBuild bin src :: evs ++ evs2). split; [done|]. split.
  - rewrite Hh2, Hh. simpl. by rewrite <- !app_assoc.
  - simpl. rewrite countEvents_app, Hnb, Hn2. done.
Qed.

Lemma compileBinary_retries_without_bound_witness :
  exists w' evs,
    compileBinary tcStuck "/p" 3 "/p/src/a.go" "/p/bin/a" emptyWorld = OutOfFuel w'
    /\ history w' = history emptyWorld ++ evs
    /\ countEvents isBuild evs = 3.
Proof.
  apply (compileBinary_retries_without_bound tcStuck "/p" "/p/src/a.go" "/p/bin/a"
           3 emptyWorld).
  - intros h fs. exists "exit status 1", diagOnce.
    split; [reflexivity|vm_compute; discriminate].
  - intros h. by exists 0%Z.
  - reflexivity.
  - reflexivity.
Defined.

(** ** The commands a fetch runs *)

Lemma TrimSpace_stat_message :
  TrimSpace "Could not stat go.mod file." = "Could not stat go.mod file.".
Proof. vm_compute. reflexivity. Qed.

(** The part of [goGet] that follows the tidy. *)
Lemma goGet_fetch tc projectDir pkg w :
  exists w',
    history w' = history w ++ [EvGet pkg]
    /\ ((let* r := run_go_get tc pkg in
         check (cmdErr r) 2 (errOut (errText (cmdErr r)) (cmdOut r)) >>
         (let* userImports := readUserImports tc projectDir in
          writeUserImports tc projectDir
            (<[Base pkg := pkg]> (default ∅ userImports)))) w = Ret tt w'
        /\ cmdErr (go_get tc (history w) pkg) = None
        \/ (let* r := run_go_get tc pkg in
         check (cmdErr r) 2 (errOut (errText (cmdErr r)) (cmdOut r)) >>
         (let* userImports := readUserImports tc projectDir in
          writeUserImports tc projectDir
            (<[Base pkg := pkg]> (default ∅ userImports)))) w = Exit 1 w'
        /\ cmdErr (go_get tc (history w) pkg) <> None).
Proof.
  unfold bind, run_go_get, gets, modify, ret. simpl.
  destruct (go_get tc (history w) pkg) as [out|err out]; simpl.
  - destruct (readUserImports_pure tc projectDir (add_event (EvGet pkg) w)) as [u ->].
    eexists. split; [|left; split; reflexivity]. done.
  - eexists. split; [|right; split; [reflexivity|done]]. done.
Qed.

Lemma goTidy_run tc w :
  (cmdErr (go_mod_tidy tc (history w)) = None
   /\ goTidy tc w = Ret tt (add_event EvTidy w))
  \/ (cmdErr (go_mod_tidy tc (history w)) <> None
      /\ exists m, goTidy tc w = Exit 1 (add_stderr m (add_event EvTidy w))).
Proof.
  unfold goTidy, run_go_mod_tidy, bind, gets, modify, ret. cbn [history].
  destruct (go_mod_tidy tc (history w)) as [out|err out]; cbn [cmdErr].
  - left. by rewrite check_nil.
  - right. rewrite check_fatal. split; [done|by eexists].
Qed.

(** Each listed event is one of two. *)
Ltac one_of_two :=
  repeat match goal with
         | |- Forall _ (_ :: _) => constructor; [by (left + right)|]
         | |- Forall _ [] => constructor
         end.

Lemma goGet_events tc projectDir pkg w :
  exists evs,
    history (world_of (goGet tc projectDir pkg w)) = history w ++ evs
    /\ Forall (fun e => e = EvTidy \/ e = EvGet pkg) evs.
Proof.
  unfold goGet. erewrite bind_Ret; [|reflexivity].
  destruct (stat_go_mod tc (history w)) as [e|t].
  { erewrite bind_Exit; [|apply check_fatal].
    exists []. split; [by rewrite app_nil_r|constructor]. }
  erewrite bind_Ret; [|apply check_nil].
  destruct (t <? time_Now tc (history w) - week_ns)%Z; cbn [when].
  - destruct (goTidy_run tc w) as [[_ Ht] | [_ [m Ht]]].
    + erewrite bind_Ret; [|exact Ht].
      destruct (goGet_fetch tc projectDir pkg (add_event EvTidy w))
        as (w' & Hh & [[-> _] | [-> _]]);
        exists [EvTidy; EvGet pkg]; simpl; rewrite Hh; simpl;
        (split; [by rewrite <- app_assoc|]); one_of_two.
    + erewrite bind_Exit; [|exact Ht].
      exists [EvTidy]. split; [done|]. one_of_two.
  - erewrite bind_Ret; [|reflexivity].
    destruct (goGet_fetch tc projectDir pkg w)
      as (w' & Hh & [[-> _] | [-> _]]);
      exists [EvGet pkg]; simpl; rewrite Hh; (split; [done|]); one_of_two.
Qed.

(** X7: [goGet] ends with status 1, having run nothing, when the module
    file cannot be examined.  Otherwise it runs [go mod tidy] first
    exactly when the module file is more than a week old; when that tidy
    fails it ends with status 1 and [go get] is not run; in every other
    case [go get] is run once, after the tidy if there was one, and the
    call returns when it succeeds and ends with status 1 when it fails. *)
Theorem goGet_tidies_only_when_stale (tc : Toolchain) (projectDir pkg : string) (w : World) :
  match stat_go_mod tc (history w) with
  | inl e =>
      goGet tc projectDir pkg w
      = Exit 1 (add_stderr (Plain ("Could not stat go.mod file." +:+ nl +:+ e +:+ nl)) w)
  | inr t =>
      let stale := (t <? time_Now tc (history w) - week_ns)%Z in
      let before := history w ++ (if stale then [EvTidy] else []) in
      if stale && bool_decide (cmdErr (go_mod_tidy tc (history w)) <> None)
      then exists w', goGet tc projectDir pkg w = Exit 1 w'
                      /\ history w' = history w ++ [EvTidy]
      else
        history (world_of (goGet tc projectDir pkg w)) = before ++ [EvGet pkg]
        /\ match cmdErr (go_get tc before pkg) with
           | None => exists w', goGet tc projectDir pkg w = Ret tt w'
           | Some _ => exists w', goGet tc projectDir pkg w = Exit 1 w'
           end
  end.
Proof.
  unfold goGet. erewrite bind_Ret; [|reflexivity].
  destruct (stat_go_mod tc (history w)) as [e|t].
  { erewrite bind_Exit; [|apply check_fatal]. unfold checkMessage.
    rewrite bool_decide_true by done. by rewrite TrimSpace_stat_message. }
  cbv zeta. erewrite bind_Ret; [|apply check_nil].
  destruct (t <? time_Now tc (history w) - week_ns)%Z; cbn [when andb].
  - destruct (goTidy_run tc w) as [[Hok Ht] | [Hfail [m Ht]]].
    + rewrite bool_decide_false by (by intros H; apply H).
      erewrite bind_Ret; [|exact Ht].
      destruct (goGet_fetch tc projectDir pkg (add_event EvTidy w))
        as (w' & Hh & [[Hr Hg] | [Hr Hg]]); rewrite Hr; cbn [world_of];
        (split; [exact Hh|]); cbn [history add_event] in Hg.
      * rewrite Hg. by exists w'.
      * destruct (cmdErr (go_get tc _ pkg)); [by exists w'|done].
    + rewrite bool_decide_true by done.
      erewrite bind_Exit; [|exact Ht]. by eexists.
  - erewrite bind_Ret; [|reflexivity]. rewrite app_nil_r.
    destruct (goGet_fetch tc projectDir pkg w)
      as (w' & Hh & [[Hr Hg] | [Hr Hg]]); rewrite Hr; cbn [world_of];
      (split; [exact Hh|]).
    + rewrite Hg. by exists w'.
    + destruct (cmdErr (go_get tc _ pkg)); [by exists w'|done].
Qed.

(** ** Recompiling every command *)

Lemma buildsOnly_app allowed evs1 evs2 :
  buildsOnly allowed evs1 -> buildsOnly allowed evs2 -> buildsOnly allowed (evs1 ++ evs2).
Proof. apply Forall_app_2. Qed.

Lemma buildsOnly_mono (P Q : string -> string -> Prop) evs :
  (forall b s, P b s -> Q b s) -> buildsOnly P evs -> buildsOnly Q evs.
Proof.
  intros H Hevs. eapply Forall_impl; [exact Hevs|]. intros [b s| | |]; simpl; auto.
Qed.

Lemma forM_events {A} (P : Event -> Prop) (l : list A) (f : A -> M unit) w :
  (forall x w0, x ∈ l ->
     exists evs, history (world_of (f x w0)) = history w0 ++ evs /\ Forall P evs) ->
  exists evs, history (world_of (forM_ l f w)) = history w ++ evs /\ Forall P evs.
Proof.
  revert w. induction l as [|x l IH]; intros w Hf; simpl.
  { exists []. split; [by rewrite app_nil_r|constructor]. }
  destruct (Hf x w) as (evs1 & Hh1 & He1); [by left|].
  unfold bind. destruct (f x w) as [[] w1|c w1|e w1|w1]; simpl in Hh1;
    [|exists evs1; split; [exact Hh1|exact He1]..].
  destruct (IH w1) as (evs2 & Hh2 & He2).
  { intros y w0 Hy. apply Hf. by right. }
  exists (evs1 ++ evs2). rewrite Hh2, Hh1, <- app_assoc. split; [done|].
  by apply Forall_app_2.
Qed.

Lemma fetchBatch_events tc projectDir pkgs w :
  exists evs,
    history (world_of (forM_ pkgs (fun m => goGet tc projectDir (TrimSpace m)) w))
    = history w ++ evs
    /\ buildsOnly (fun _ _ => False) evs.
Proof.
  apply forM_events. intros m w0 _.
  destruct (goGet_events tc projectDir (TrimSpace m) w0) as (evs1 & Hh1 & He1).
  exists evs1. split; [done|].
  eapply Forall_impl; [exact He1|]. by intros e [-> | ->].
Qed.

(** The commands [compileBinary] runs: builds of its own source, fetches
    and tidies. *)
Lemma compileBinary_buildsOnly tc projectDir fuel src bin w :
  exists evs,
    history (world_of (compileBinary tc projectDir fuel src bin w)) = history w ++ evs
    /\ buildsOnly (fun b s => b = bin /\ s = src) evs.
Proof.
  revert w. induction fuel as [|fuel IH]; intros w.
  { exists []. split; [by rewrite app_nil_r|constructor]. }
  destruct (go_build tc (history w) (files w) bin src) as [binary|err out] eqn:Hb.
  { rewrite (compileBinary_built _ _ _ _ _ _ _ Hb).
    exists [EvBuild bin src]. split; [done|]. by repeat constructor. }
  destruct (goGetMatches out) as [|m ms] eqn:Hm.
  { rewrite (compileBinary_failed _ _ _ _ _ _ _ _ Hb Hm).
    exists [EvBuild bin src]. split; [done|]. by repeat constructor. }
  rewrite (compileBinary_retry _ _ _ _ _ _ _ _ Hb) by (by rewrite Hm).
  destruct (fetchBatch_events tc projectDir (goGetMatches out)
              (add_event (EvBuild bin src) w)) as (evs1 & Hh1 & He1).
  apply (buildsOnly_mono _ (fun b s => b = bin /\ s = src)) in He1; [|done].
  unfold bind at 1.
  destruct (forM_ _ _ _) as [[] w1|c w1|e w1|w1]; simpl in Hh1;
    [|exists (EvBuild bin src :: evs1); simpl; rewrite Hh1; simpl;
      rewrite <- app_assoc; split; [done|by constructor]..].
  destruct (IH w1) as (evs2 & Hh2 & He2).
  exists (EvBuild bin src :: evs1 ++ evs2). split.
  - rewrite world_of_bind_ret, Hh2, Hh1. simpl. by rewrite <- !app_assoc.
  - constructor; [done|]. by apply buildsOnly_app.
Qed.

Lemma dropRight_go name : dropRight 3 (name +:+ ".go") = name.
Proof. change 3 with (String.length ".go"). apply dropRight_append. Qed.

(** The loop of [recompileCommands] over a list of entries. *)
Lemma recompileLoop_events tc projectDir fuel l w :
  exists evs,
    history (world_of (forM_ l (fun name =>
      if negb (HasSuffix name ".go") then ret tt
      else
        let* compiled := compileBinary tc projectDir fuel
                           (projectDir +:+ "/src/" +:+ name)
                           (projectDir +:+ "/bin/" +:+ dropRight 3 name) in
        if negb compiled then os_Exit 1 else ret tt) w))
    = history w ++ evs
    /\ buildsOnly (fun b s => exists e, e ∈ l /\ HasSuffix e ".go" = true
                     /\ EvBuild b s = buildOf projectDir e) evs.
Proof.
  apply forM_events. intros x w0 Hx.
  destruct (HasSuffix x ".go") eqn:Hgo; simpl.
  - destruct (compileBinary_buildsOnly tc projectDir fuel
                (projectDir +:+ "/src/" +:+ x)
                (projectDir +:+ "/bin/" +:+ dropRight 3 x) w0) as (evs & Hh & He).
    exists evs. split.
    + unfold bind. destruct (compileBinary _ _ _ _ _ _) as [[] w1|c w1|e w1|w1]; done.
    + eapply buildsOnly_mono; [|exact He]. intros b s [-> ->].
      exists x. done.
  - exists []. split; [by rewrite app_nil_r|constructor].
Qed.

Lemma getSourceList_run projectDir w :
  getSourceList projectDir w
  = Ret (sortStrings (ReadDir (projectDir +:+ "/src") (files w))) w.
Proof. reflexivity. Qed.

(** X8: whatever the toolchain answers and however the run ends,
    [recompileCommands] builds nothing but commands whose source, with its
    extension, is in the source directory, each into the binary of its
    name; a soft-deleted source is never built, and no program is run. *)
Theorem recompileCommands_builds_only_sources (tc : Toolchain) (projectDir : string)
    (fuel : nat) (w : World) :
  buildsOnly
    (fun bin src => exists name,
       src = srcPath projectDir name /\ bin = binPath projectDir name
       /\ is_Some (files w !! srcPath projectDir name))
    (eventsSince w (recompileCommands tc projectDir fuel w)).
Proof.
  unfold recompileCommands. erewrite bind_Ret; [|apply getSourceList_run].
  destruct (recompileLoop_events tc projectDir fuel
              (sortStrings (ReadDir (projectDir +:+ "/src") (files w))) w)
    as (evs & Hh & He).
  rewrite (eventsSince_app _ _ _ Hh).
  eapply buildsOnly_mono; [|exact He].
  intros b s (e & Hin & Hgo & Hbs).
  apply elem_of_sortStrings, elem_of_ReadDir in Hin as (Hf & _).
  apply HasSuffix_inv in Hgo as [name ->].
  unfold buildOf in Hbs. rewrite dropRight_go in Hbs. injection Hbs as -> ->.
  exists name. rewrite src_go_entry in Hf. done.
Qed.

Lemma recompileLoop_all_built tc projectDir fuel l w :
  (forall h fs b s, exists binary, go_build tc h fs b s = BuildOk binary) ->
  exists w',
    forM_ l (fun name =>
      if negb (HasSuffix name ".go") then ret tt
      else
        let* compiled := compileBinary tc projectDir (S fuel)
                           (projectDir +:+ "/src/" +:+ name)
                           (projectDir +:+ "/bin/" +:+ dropRight 3 name) in
        if negb compiled then os_Exit 1 else ret tt) w = Ret tt w'
    /\ history w' = history w
         ++ (buildOf projectDir <$> filter (fun e => HasSuffix e ".go" = true) l)
    /\ (forall p, is_Some (files w !! p) -> is_Some (files w' !! p))
    /\ (forall e, e ∈ l -> HasSuffix e ".go" = true ->
          is_Some (files w' !! (projectDir +:+ "/bin/" +:+ dropRight 3 e)))
    /\ stdout w' = stdout w /\ stderr w' = stderr w.
Proof.
  intros Hbuild. revert w. induction l as [|x l IH]; intros w; simpl.
  { exists w. rewrite app_nil_r. split; [done|]. split; [done|]. split; [done|].
    split; [|done]. by intros e ?%elem_of_nil. }
  rewrite filter_cons. destruct (HasSuffix x ".go") eqn:Hgo; simpl.
  - destruct (Hbuild (history w) (files w) (projectDir +:+ "/bin/" +:+ dropRight 3 x)
                (projectDir +:+ "/src/" +:+ x)) as [binary Hb].
    erewrite bind_Ret; cycle 1.
    { erewrite bind_Ret; [|by apply compileBinary_built]. reflexivity. }
    destruct (IH (set_files (fun fs => <[projectDir +:+ "/bin/" +:+ dropRight 3 x := binary]> fs)
                   (add_event (EvBuild (projectDir +:+ "/bin/" +:+ dropRight 3 x)
                                 (projectDir +:+ "/src/" +:+ x)) w)))
      as (w' & Hr & Hh & Hkeep & Hbin & Ho & He).
    exists w'. split; [done|].
    split.
    { rewrite Hh. simpl. by rewrite <- app_assoc. }
    split.
    { intros p Hp. apply Hkeep. simpl.
      destruct (decide (projectDir +:+ "/bin/" +:+ dropRight 3 x = p)) as [->|Hne].
      - rewrite lookup_insert_eq. eauto.
      - by rewrite lookup_insert_ne. }
    split; [|done].
    intros e [->|Hin]%elem_of_cons Hego; [|by apply Hbin].
    apply Hkeep. simpl. rewrite lookup_insert_eq. eauto.
  - erewrite bind_Ret; [|reflexivity].
    destruct (IH w) as (w' & Hr & Hh & Hkeep & Hbin & Ho & He).
    exists w'. split; [done|].
    split; [done|]. split; [done|].
    split; [|done].
    intros e [->|Hin]%elem_of_cons Hego; [congruence|by apply Hbin].
Qed.

(** X9: with a toolchain whose every build succeeds, [recompileCommands]
    builds each source of the source directory once, in ascending order of
    the names, and returns; afterwards every such command has its binary,
    and no file that was there is gone.  Nothing is printed on the
    standard output, and nothing on the error stream when the source
    directory has an entry. *)
Theorem recompileCommands_builds_every_source (tc : Toolchain) (projectDir : string)
    (fuel : nat) (w : World) :
  (forall h fs b s, exists binary, go_build tc h fs b s = BuildOk binary) ->
  exists w',
    recompileCommands tc projectDir (S fuel) w = Ret tt w'
    /\ history w' = history w ++ (buildOf projectDir <$> goEntries projectDir w)
    /\ (forall p, is_Some (files w !! p) -> is_Some (files w' !! p))
    /\ (forall name, (name +:+ ".go") ∈ ReadDir (projectDir +:+ "/src") (files w) ->
          Active projectDir w' name)
    /\ stdout w' = stdout w
    /\ (ReadDir (projectDir +:+ "/src") (files w) <> [] -> stderr w' = stderr w).
Proof.
  intros Hbuild. unfold recompileCommands.
  erewrite bind_Ret; [|apply getSourceList_run].
  destruct (recompileLoop_all_built tc projectDir fuel
              (sortStrings (ReadDir (projectDir +:+ "/src") (files w))) w Hbuild)
    as (w' & Hr & Hh & Hkeep & Hbin & Ho & He).
  exists w'. split; [done|]. split; [done|]. split; [done|]. split; [|done].
  intros name Hin. apply Active_files.
  pose proof Hin as (Hf & _ & Hs)%elem_of_ReadDir.
  rewrite src_go_entry in Hf. rewrite all_chars_append in Hs.
  apply andb_true_iff in Hs as [Hs _].
  split; [by apply Hkeep|]. split; [done|].
  specialize (Hbin (name +:+ ".go")). rewrite dropRight_go in Hbin.
  apply Hbin; [by apply elem_of_sortStrings|apply HasSuffix_append].
Qed.

Lemma recompileCommands_builds_every_source_witness :
  exists w',
    recompileCommands tcBuilds "/p" 1 helloWorld = Ret tt w'
    /\ history w' = history helloWorld ++ (buildOf "/p" <$> goEntries "/p" helloWorld)
    /\ (forall p, is_Some (files helloWorld !! p) -> is_Some (files w' !! p))
    /\ (forall name, (name +:+ ".go") ∈ ReadDir ("/p" +:+ "/src") (files helloWorld) ->
          Active "/p" w' name)
    /\ stdout w' = stdout helloWorld
    /\ (ReadDir ("/p" +:+ "/src") (files helloWorld) <> [] ->
        stderr w' = stderr helloWorld).
Proof.
  apply (recompileCommands_builds_every_source tcBuilds "/p" 0 helloWorld).
  intros h fs b s. by exists "ELF".
Defined.

(** X10: a build that fails, its diagnostic naming no package, ends
    [recompileCommands] with status 1: the commands that follow in the
    order of the names are not rebuilt. *)
Theorem recompileCommands_stops_at_failure (tc : Toolchain) (projectDir : string)
    (fuel : nat) (w : World) (skipped rest : list string) (e err out : string) :
  sortStrings (ReadDir (projectDir +:+ "/src") (files w)) = skipped ++ e :: rest ->
  Forall (fun x => HasSuffix x ".go" = false) skipped ->
  HasSuffix e ".go" = true ->
  go_build tc (history w) (files w) (projectDir +:+ "/bin/" +:+ dropRight 3 e)
    (projectDir +:+ "/src/" +:+ e) = BuildFail err out ->
  goGetMatches out = [] ->
  recompileCommands tc projectDir (S fuel) w
  = Exit 1 (add_stderr (checkMessage out err) (add_event (buildOf projectDir e) w)).
Proof.
  intros Hl Hskip Hgo Hb Hm. unfold recompileCommands.
  erewrite bind_Ret; [|apply getSourceList_run]. rewrite Hl. clear Hl.
  induction Hskip as [|x skipped Hx _ IH]; simpl.
  - rewrite Hgo. simpl.
    erewrite bind_Exit; [reflexivity|].
    erewrite bind_Ret; [|by apply compileBinary_failed]. reflexivity.
  - rewrite Hx. simpl. erewrite bind_Ret; [|reflexivity]. exact IH.
Qed.

(** ** What a fetch records *)

Lemma readUserImports_run tc projectDir w :
  readUserImports tc projectDir w = Ret (storedImports tc projectDir (files w)) w.
Proof.
  unfold readUserImports, storedImports, bind, checkFileExists, os_Open, gets.
  destruct (files w !! _) as [data|] eqn:Hf.
  - rewrite bool_decide_true by eauto. rewrite Hf. by rewrite check_nil.
  - by rewrite bool_decide_false by (by intros [? ?]).
Qed.

Lemma goGet_Ret tc projectDir pkg w w' :
  goGet tc projectDir pkg w = Ret tt w' ->
  files w' = recordedImports tc projectDir pkg (files w)
  /\ stdout w' = stdout w /\ stderr w' = stderr w.
Proof.
  unfold goGet. erewrite bind_Ret; [|reflexivity].
  destruct (stat_go_mod tc (history w)) as [e|t].
  { by erewrite bind_Exit; [|apply check_fatal]. }
  erewrite bind_Ret; [|apply check_nil].
  assert (forall w1, files w1 = files w -> stdout w1 = stdout w -> stderr w1 = stderr w ->
    (let* r := run_go_get tc pkg in
     check (cmdErr r) 2 (errOut (errText (cmdErr r)) (cmdOut r)) >>
     (let* userImports := readUserImports tc projectDir in
      writeUserImports tc projectDir
        (<[Base pkg := pkg]> (default ∅ userImports)))) w1 = Ret tt w' ->
    files w' = recordedImports tc projectDir pkg (files w)
    /\ stdout w' = stdout w /\ stderr w' = stderr w) as Hfetch.
  { intros w1 Hf Ho He. unfold bind at 1, run_go_get, bind at 1, gets.
    unfold bind at 1, modify, ret.
    destruct (go_get tc (history w1) pkg) as [out|err out]; cbn [cmdErr].
    - erewrite bind_Ret; [|apply check_nil].
      erewrite bind_Ret; [|apply readUserImports_run].
      unfold writeUserImports, bind, modify, ret. simpl.
      intros [= <-]. simpl. unfold recordedImports. by rewrite Hf, Ho, He.
    - by erewrite bind_Exit; [|apply check_fatal]. }
  destruct (t <? time_Now tc (history w) - week_ns)%Z; cbn [when].
  - destruct (goTidy_run tc w) as [[_ Ht] | [_ [m Ht]]].
    + erewrite bind_Ret; [|exact Ht]. by apply Hfetch.
    + by erewrite bind_Exit; [|exact Ht].
  - erewrite bind_Ret; [|reflexivity]. by apply Hfetch.
Qed.

(** X11: a fetch that succeeds records the package in the user's table
    under the last element of its path, over what the table held under
    that alias, and keeps the other entries; it changes the source and the
    binary of no command and prints nothing.  The tidy that comes first
    when the module file is older than a week must succeed too. *)
Theorem goGet_records_alias (tc : Toolchain) (projectDir pkg : string) (w : World) (t : Z) :
  stat_go_mod tc (history w) = inr t ->
  let pre := if (t <? time_Now tc (history w) - week_ns)%Z then [EvTidy] else [] in
  (pre = [EvTidy] -> cmdErr (go_mod_tidy tc (history w)) = None) ->
  cmdErr (go_get tc (history w ++ pre) pkg) = None ->
  exists w',
    goGet tc projectDir pkg w = Ret tt w'
    /\ files w' !! (projectDir +:+ "/imports.json")
       = Some (json_MarshalIndent tc
                 (<[Base pkg := pkg]> (default ∅ (storedImports tc projectDir (files w)))))
    /\ (forall name,
          files w' !! srcPath projectDir name = files w !! srcPath projectDir name
          /\ files w' !! softPath projectDir name = files w !! softPath projectDir name
          /\ files w' !! binPath projectDir name = files w !! binPath projectDir name)
    /\ history w' = history w ++ pre ++ [EvGet pkg]
    /\ stdout w' = stdout w /\ stderr w' = stderr w.
Proof.
  intros Hstat pre Htidy Hget.
  assert (exists w', goGet tc projectDir pkg w = Ret tt w'
                     /\ history w' = history w ++ pre ++ [EvGet pkg]) as (w' & Hr & Hh).
  { unfold goGet. erewrite bind_Ret; [|reflexivity]. rewrite Hstat.
    erewrite bind_Ret; [|apply check_nil]. subst pre.
    destruct (t <? time_Now tc (history w) - week_ns)%Z; cbn [when].
    - destruct (goTidy_run tc w) as [[_ Ht] | [Hfail _]]; [|by destruct Hfail; auto].
      erewrite bind_Ret; [|exact Ht].
      destruct (goGet_fetch tc projectDir pkg (add_event EvTidy w))
        as (w' & Hh & [[Hr _] | [_ Hfail]]); [|by destruct Hfail].
      exists w'. split; [done|]. rewrite Hh. simpl. by rewrite <- app_assoc.
    - erewrite bind_Ret; [|reflexivity]. rewrite app_nil_r in Hget.
      destruct (goGet_fetch tc projectDir pkg w)
        as (w' & Hh & [[Hr _] | [_ Hfail]]); [|by destruct Hfail].
      exists w'. split; [done|]. by rewrite Hh. }
  exists w'. split; [done|].
  destruct (goGet_Ret tc projectDir pkg w w' Hr) as (Hf & Ho & He).
  rewrite Hf. unfold recordedImports.
  split; [apply lookup_insert_eq|]. split; [|done].
  intros name.
  rewrite !lookup_insert_ne;
    [done|apply not_eq_sym, binPath_neq_imports
         |apply not_eq_sym, softPath_neq_imports|apply not_eq_sym, srcPath_neq_imports].
Qed.

Lemma goGet_records_alias_witness :
  exists w',
    goGet tcStale "/p" "github.com/bitfield/script" emptyWorld = Ret tt w'
    /\ files w' !! ("/p" +:+ "/imports.json")
       = Some (json_MarshalIndent tcStale
                 (<[Base "github.com/bitfield/script" := "github.com/bitfield/script"]>
                    (default ∅ (storedImports tcStale "/p" (files emptyWorld)))))
    /\ (forall name,
          files w' !! srcPath "/p" name = files emptyWorld !! srcPath "/p" name
          /\ files w' !! softPath "/p" name = files emptyWorld !! softPath "/p" name
          /\ files w' !! binPath "/p" name = files emptyWorld !! binPath "/p" name)
    /\ history w' = history emptyWorld ++ [EvTidy] ++ [EvGet "github.com/bitfield/script"]
    /\ stdout w' = stdout emptyWorld /\ stderr w' = stderr emptyWorld.
Proof.
  apply (goGet_records_alias tcStale "/p" "github.com/bitfield/script" emptyWorld 0).
  - reflexivity.
  - reflexivity.
  - reflexivity.
Defined.



(** Equality of stores built by inserts and deletes, key by key. *)
Ltac map_cases :=
  repeat (rewrite lookup_insert || rewrite lookup_delete);
  repeat case_decide; congruence.

(** ** Copying a file *)

Lemma absPath_absolute cwd path : HasPrefix path "/" = true -> absPath cwd path = path.
Proof. unfold absPath. by intros ->. Qed.

Lemma absPath_relative cwd path :
  HasPrefix path "/" = false -> absPath cwd path = cwd +:+ "/" +:+ path.
Proof. unfold absPath. by intros ->. Qed.

Lemma HasPrefix_append s pre r : HasPrefix s pre = true -> HasPrefix (s +:+ r) pre = true.
Proof.
  unfold HasPrefix. intros H%prefix_inv. rewrite H, append_assoc. apply prefix_append.
Qed.

Lemma copyFile_run cwd orig dest data w :
  files w !! absPath cwd orig = Some data ->
  copyFile cwd orig dest w
  = Ret tt (set_files (fun fs =>
      <[absPath cwd dest := if bool_decide (absPath cwd orig = absPath cwd dest)
                            then "" else data]> fs) w).
Proof.
  intros Hf. unfold copyFile.
  erewrite bind_Ret; cycle 1.
  { unfold gets. rewrite Hf. reflexivity. }
  erewrite bind_Ret; [|apply check_nil].
  erewrite bind_Ret; [|reflexivity].
  erewrite bind_Ret; [|apply check_nil].
  erewrite bind_Ret; [|reflexivity].
  erewrite bind_Ret; [|reflexivity].
  erewrite bind_Ret; [|apply check_nil].
  erewrite bind_Ret; [|apply check_nil].
  unfold ret. f_equal. destruct w as [fs im out err saved h].
  unfold set_files. cbn [files] in *. f_equal.
  rewrite insert_insert_eq. f_equal.
  case_bool_decide as Heq.
  - by rewrite Heq, lookup_insert_eq.
  - by rewrite lookup_insert_ne, Hf by done.
Qed.



Lemma copyFile_missing cwd orig dest w :
  files w !! absPath cwd orig = None ->
  copyFile cwd orig dest w
  = Exit 1 (add_stderr (AsFormat (errNotExist "open" orig +:+ nl)) w).
Proof.
  intros Hf. unfold copyFile.
  erewrite bind_Ret; cycle 1.
  { unfold gets. rewrite Hf. reflexivity. }
  erewrite bind_Exit; [|apply check_fatal]. reflexivity.
Qed.

(** ** Exporting a binary *)

Lemma binPath_absolute cwd projectDir name :
  HasPrefix projectDir "/" = true ->
  absPath cwd (binPath projectDir name) = binPath projectDir name.
Proof. intros H. apply absPath_absolute. unfold binPath. by apply HasPrefix_append. Qed.




Lemma export_bin_inside_store (tc : Toolchain) (projectDir cwd name : string)
    (content binary : string) (w : World) :
  HasPrefix projectDir "/" = true ->
  HasPrefix name "/" = false ->
  cwd = projectDir +:+ "/bin" \/ cwd = projectDir +:+ "/src" ->
  files w !! srcPath projectDir name = Some content ->
  files w !! binPath projectDir name = Some binary ->
  files (world_of (main_export_bin tc projectDir cwd name w))
  = deletedFiles projectDir name content (files w).
Proof.
  intros Habs Hrel Hcwd Hsrc Hbin. unfold main_export_bin.
  fold (binPath projectDir name).
  erewrite bind_Ret; cycle 1.
  { apply (copyFile_run _ _ _ binary). by rewrite binPath_absolute. }
  rewrite binPath_absolute by done. rewrite (absPath_relative _ name) by done.
  set (w1 := set_files _ w).
  pose proof (srcPath_neq_softPath projectDir name).
  pose proof (srcPath_neq_binPath projectDir name name).
  pose proof (softPath_neq_binPath projectDir name name).
  assert (cwd +:+ "/" +:+ name = binPath projectDir name
          \/ cwd +:+ "/" +:+ name = softPath projectDir name) as Hdest.
  { destruct Hcwd as [-> | ->]; [left|right]; unfold binPath, softPath;
      by rewrite !append_assoc. }
  destruct (deleteCommand_run tc projectDir name content w1) as (w' & Hf & _ & Hrun).
  { subst w1. cbn [files set_files]. rewrite lookup_insert_ne; [done|].
    destruct Hdest as [-> | ->]; by apply not_eq_sym. }
  { subst w1. cbn [files set_files].
    destruct Hdest as [-> | ->].
    - rewrite lookup_insert_eq. eauto.
    - rewrite lookup_insert_ne by done. eauto. }
  replace (files (world_of (deleteCommand tc projectDir name w1))) with (files w')
    by (by destruct Hrun as [-> | ->]).
  rewrite Hf. subst w1. cbn [files set_files]. unfold deletedFiles.
  apply map_eq. intros p. destruct Hdest as [-> | ->]; map_cases.
Qed.

(** X15: [--export-bin] run in the binary directory or in the source
    directory of the project exports nothing.  In the binary directory the
    name of the command names the binary itself, which is truncated by the
    copy and then removed: no file is left under that name.  In the source
    directory it names the soft-deleted source, which replaces the copy:
    the file under that name holds the source.  In both the command ends
    soft-deleted. *)
Theorem export_bin_inside_project (tc : Toolchain) (projectDir cwd name : string)
    (content binary : string) (w : World) :
  HasPrefix projectDir "/" = true ->
  HasPrefix name "/" = false ->
  cwd = projectDir +:+ "/bin" \/ cwd = projectDir +:+ "/src" ->
  files w !! srcPath projectDir name = Some content ->
  files w !! binPath projectDir name = Some binary ->
  let w' := world_of (main_export_bin tc projectDir cwd name w) in
  files w' !! absPath cwd name
    = (if bool_decide (cwd = projectDir +:+ "/bin") then None else Some content)
  /\ SoftDeleted projectDir w' name
  /\ files w' !! softPath projectDir name = Some content.
Proof.
  intros Habs Hrel Hcwd Hsrc Hbin w'.
  assert (files w' = deletedFiles projectDir name content (files w)) as Hf.
  { by eapply export_bin_inside_store. }
  rewrite Hf, deletedFiles_soft. split; [|split; [|done]].
  - rewrite (absPath_relative _ name) by done.
    destruct Hcwd as [-> | ->].
    + rewrite bool_decide_true by done.
      replace ((projectDir +:+ "/bin") +:+ "/" +:+ name) with (binPath projectDir name)
        by (unfold binPath; by rewrite !append_assoc).
      apply deletedFiles_bin.
    + rewrite bool_decide_false by (by intros H%projectPath_inj).
      replace ((projectDir +:+ "/src") +:+ "/" +:+ name) with (softPath projectDir name)
        by (unfold softPath; by rewrite !append_assoc).
      apply deletedFiles_soft.
  - unfold SoftDeleted. rewrite Hf, deletedFiles_src, deletedFiles_soft, deletedFiles_bin.
    eauto.
Qed.

Lemma export_bin_inside_project_witness :
  let w' := world_of (main_export_bin tcBuilds "/p" "/p/bin" "hello" helloWorld) in
  files w' !! absPath "/p/bin" "hello"
    = (if bool_decide ("/p/bin" = "/p" +:+ "/bin") then None else Some helloSource)
  /\ SoftDeleted "/p" w' "hello"
  /\ files w' !! softPath "/p" "hello" = Some helloSource.
Proof.
  apply (export_bin_inside_project tcBuilds "/p" "/p/bin" "hello" helloSource "ELF"
           helloWorld).
  - reflexivity.
  - reflexivity.
  - left. reflexivity.
  - vm_compute. reflexivity.
  - vm_compute. reflexivity.
Defined.

(** X16: [--export-bin] of a command that has no binary ends with status 1
    before anything is copied or deleted: unlike [--delete], it leaves
    the source under its name. *)
Theorem export_bin_without_binary (tc : Toolchain) (projectDir cwd name : string)
    (w : World) :
  HasPrefix projectDir "/" = true ->
  files w !! binPath projectDir name = None ->
  main_export_bin tc projectDir cwd name w
  = Exit 1 (add_stderr (AsFormat (errNotExist "open" (binPath projectDir name) +:+ nl)) w).
Proof.
  intros Habs Hbin. unfold main_export_bin. fold (binPath projectDir name).
  erewrite bind_Exit; [reflexivity|].
  apply copyFile_missing. by rewrite binPath_absolute.
Qed.

Lemma export_bin_without_binary_witness :
  main_export_bin tcBuilds "/p" "/home/u" "tool" helloWorld
  = Exit 1 (add_stderr (AsFormat (errNotExist "open" (binPath "/p" "tool") +:+ nl))
              helloWorld).
Proof.
  apply (export_bin_without_binary tcBuilds "/p" "/home/u" "tool" helloWorld).
  - reflexivity.
  - vm_compute. reflexivity.
Defined.

(** ** Scanning what was written line by line *)

Lemma span_line l rest :
  noNewline l -> span notNewline (l +:+ String newline rest) = (l, String newline rest).
Proof.
  induction l as [|c l IH]; intros Hl; [done|].
  unfold noNewline in Hl. rewrite all_chars_cons in Hl.
  apply andb_true_iff in Hl as [Hc Hl]. rewrite append_cons. simpl.
  rewrite Hc. by rewrite IH.
Qed.

Lemma scanLines_cons fuel c s :
  scanLines (S fuel) (String c s)
  = let '(raw, rest) := span notNewline (String c s) in
    if tooLong raw then ([], Some ErrTooLong)
    else
      let '(ls, err) :=
        scanLines fuel match rest with String _ rest' => rest' | "" => "" end in
      (dropCR raw :: ls, err).
Proof. reflexivity. Qed.

(** A first line that fits the scanner, and the scan of what follows. *)
Lemma scanFile_line l rest :
  noNewline l -> tooLong l = false ->
  scanFile (l +:+ nl +:+ rest)
  = (dropCR l :: (scanFile rest).1, (scanFile rest).2).
Proof.
  intros Hl Hshort. unfold scanFile at 1.
  assert (String.length (l +:+ nl +:+ rest) = S (String.length l + String.length rest))
    as -> by (rewrite !length_append; simpl; lia).
  assert (exists c s, l +:+ nl +:+ rest = String c s) as (c & s & Hcs).
  { destruct l; simpl; eauto. }
  rewrite Hcs, scanLines_cons, <- Hcs.
  unfold nl at 1. rewrite append_cons, append_nil_l.
  rewrite span_line by done. rewrite Hshort.
  rewrite scanLines_fuel by lia. by destruct (scanFile rest).
Qed.

Lemma scanFile_joinLines ls :
  Forall noNewline ls -> Forall (fun l => tooLong l = false) ls ->
  scanFile (joinLines ls) = (dropCR <$> ls, None).
Proof.
  intros Hn Hs. induction Hn as [|l ls Hl _ IH]; [done|].
  apply Forall_cons in Hs as [Hsl Hs]. simpl joinLines.
  rewrite scanFile_line by done. by rewrite IH.
Qed.

Lemma dropCR_cases l :
  dropCR l = l \/ l = dropCR l +:+ String carriage_return "".
Proof.
  unfold dropCR. destruct (String.rev l) as [|c r] eqn:Hr; [by left|].
  destruct (Ascii.eqb c carriage_return) eqn:Hc; [|by left].
  right. apply Ascii.eqb_eq in Hc as ->.
  rewrite <- (rev_rev l), Hr. apply chars_inj.
  rewrite chars_rev, chars_append, chars_rev. done.
Qed.

Lemma tooLong_shorter a b :
  String.length a <= String.length b -> tooLong b = false -> tooLong a = false.
Proof. unfold tooLong. rewrite !N.leb_gt. lia. Qed.

Lemma dropCR_short l : tooLong l = false -> tooLong (dropCR l) = false.
Proof.
  apply tooLong_shorter. destruct (dropCR_cases l) as [-> | H]; [done|].
  rewrite H at 2. rewrite length_append. lia.
Qed.

Lemma scanLines_short fuel data :
  Forall (fun l => tooLong l = false) (scanLines fuel data).1.
Proof.
  revert data. induction fuel as [|fuel IH]; intros data; [constructor|].
  destruct data as [|c data]; [constructor|]. cbn [scanLines].
  destruct (span notNewline (String c data)) as [raw rest] eqn:Hs.
  destruct (tooLong raw) eqn:Hl; [constructor|].
  specialize (IH match rest with String _ r => r | "" => "" end).
  destruct (scanLines fuel _) as [ls err]. simpl in *.
  constructor; [by apply dropCR_short|exact IH].
Qed.

Lemma HasPrefix_dropCR l :
  HasPrefix l "#!" = true -> HasPrefix (dropCR l) "#!" = true.
Proof.
  intros H. destruct (dropCR_cases l) as [-> | Hl]; [done|].
  unfold HasPrefix in *. apply prefix_inv in H.
  remember (dropCR l) as d eqn:Hd. clear Hd. rewrite H in Hl.
  change (String.length "#!") with 2 in Hl. clear H.
  destruct d as [|a [|b s]];
    cbn [String.append] in Hl; unfold carriage_return in Hl.
  - discriminate Hl.
  - discriminate Hl.
  - injection Hl as <- <- _. apply (prefix_append "#!").
Qed.

Lemma filter_filter_same (P : string -> Prop) `{forall x, Decision (P x)} (l : list string) :
  filter P (filter P l) = filter P l.
Proof.
  rewrite list_filter_filter. apply list_filter_iff. tauto.
Qed.

Lemma fmap_fixed (f : string -> string) ls :
  Forall (fun l => f l = l) ls -> f <$> ls = ls.
Proof. induction 1 as [|l ls Hl _ IH]; [done|]. by rewrite fmap_cons, Hl, IH. Qed.

(** Reading back what [--cat] and [--export] print. *)
Lemma readSourceFile_printed argv0 lines f w :
  noNewline (shebang argv0) -> tooLong (shebang argv0) = false ->
  Forall noNewline lines -> Forall (fun l => tooLong l = false) lines ->
  Forall (fun l => dropCR l = l) lines ->
  files w !! f
    = Some (shebang argv0 +:+ nl +:+ joinLines (filter (fun l => ~ isShebang l) lines)) ->
  readSourceFile f w = Ret (joinLines (filter (fun l => ~ isShebang l) lines)) w.
Proof.
  intros Hsn Hss Hn Hs Hcr Hf.
  set (kept := filter (fun l => ~ isShebang l) lines) in *.
  assert (forall P : string -> Prop, Forall P lines -> Forall P kept) as Hkept.
  { intros P HP. apply Forall_forall. intros l [_ Hl]%list_elem_of_filter.
    by apply (proj1 (Forall_forall _ _) HP). }
  erewrite readSourceFile_read; [|exact Hf|]; cycle 1.
  { rewrite scanFile_line by done. rewrite scanFile_joinLines by auto. reflexivity. }
  f_equal. f_equal. rewrite filter_cons.
  rewrite decide_False; cycle 1.
  { intros Hnot. apply Hnot. apply HasPrefix_dropCR. reflexivity. }
  rewrite (fmap_fixed dropCR kept) by auto.
  apply filter_filter_same.
Qed.

(** ** Printing a command *)

Lemma main_cat_print projectDir argv0 toCat content lines w :
  files w !! srcPath projectDir toCat = Some content ->
  scanFile content = (lines, None) ->
  main_cat projectDir argv0 toCat "" w
  = Ret tt (add_stdout (joinLines (filter (fun l => ~ isShebang l) lines))
              (add_stdout (shebang argv0 +:+ nl) w)).
Proof.
  intros Hf Hs. unfold main_cat. fold (srcPath projectDir toCat).
  erewrite bind_Ret; [|by eapply readSourceFile_read].
  rewrite bool_decide_false by (by intros H; apply H).
  erewrite bind_Ret; [|reflexivity].
  erewrite bind_Ret; [|reflexivity].
  erewrite bind_Ret; [|apply check_nil]. reflexivity.
Qed.

(** X17: [--cat] changes no file and runs no command; it prints the interpreter
    line and the source without its own [#!] lines.  When no scanned line
    of the source ends in a carriage return, that output, saved as a
    script, reads back as the same source. *)
Theorem cat_output_reads_back (projectDir argv0 toCat content : string)
    (lines : list string) (w : World) :
  files w !! srcPath projectDir toCat = Some content ->
  scanFile content = (lines, None) ->
  Forall (fun l => dropCR l = l) lines ->
  noNewline argv0 -> tooLong (shebang argv0) = false ->
  exists w' buf,
    main_cat projectDir argv0 toCat "" w = Ret tt w'
    /\ readSourceFile (srcPath projectDir toCat) w = Ret buf w
    /\ stdout w' = stdout w +:+ shebang argv0 +:+ nl +:+ buf
    /\ files w' = files w /\ history w' = history w
    /\ forall script w2,
         files w2 !! script = Some (shebang argv0 +:+ nl +:+ buf) ->
         readSourceFile script w2 = Ret buf w2.
Proof.
  intros Hf Hs Hcr Hargv Hshort.
  exists (add_stdout (joinLines (filter (fun l => ~ isShebang l) lines))
            (add_stdout (shebang argv0 +:+ nl) w)),
         (joinLines (filter (fun l => ~ isShebang l) lines)).
  split; [by apply (main_cat_print _ _ _ content)|].
  split; [by apply (readSourceFile_read _ content)|].
  split; [simpl; by rewrite !append_assoc|]. split; [done|]. split; [done|].
  intros script w2 Hscript.
  apply (readSourceFile_printed argv0 lines); try done.
  - generalize (scanFile_noNewline content). by rewrite Hs.
  - generalize (scanLines_short (String.length content) content).
    fold (scanFile content). by rewrite Hs.
Qed.

Lemma cat_output_reads_back_witness :
  exists w' buf,
    main_cat "/p" "goscript" "hello" "" helloWorld = Ret tt w'
    /\ readSourceFile (srcPath "/p" "hello") helloWorld = Ret buf helloWorld
    /\ stdout w' = stdout helloWorld +:+ shebang "goscript" +:+ nl +:+ buf
    /\ files w' = files helloWorld /\ history w' = history helloWorld
    /\ forall script w2,
         files w2 !! script = Some (shebang "goscript" +:+ nl +:+ buf) ->
         readSourceFile script w2 = Ret buf w2.
Proof.
  apply (cat_output_reads_back "/p" "goscript" "hello" helloSource
           ["package main"; "func main() { println(42) }"] helloWorld).
  - vm_compute. reflexivity.
  - vm_compute. reflexivity.
  - repeat constructor.
  - reflexivity.
  - reflexivity.
Defined.

(** A line that ends in two carriage returns loses one each time it is
    read: such a source does not read back as it was printed. *)
Example cat_output_carriage_returns :
  let cr := String carriage_return "" in
  let w := withFiles {["/p/src/dos.go" := "package main" +:+ cr +:+ cr +:+ nl]} in
  let printed := shebang "goscript" +:+ nl +:+ "package main" +:+ cr +:+ nl in
  main_cat "/p" "goscript" "dos" "" w = Ret tt (add_stdout printed w)
  /\ readSourceFile "/tmp/s.go" (withFiles {["/tmp/s.go" := printed]})
     = Ret ("package main" +:+ nl) (withFiles {["/tmp/s.go" := printed]}).
Proof. split; vm_compute; reflexivity. Qed.

(** X18: [--cat] with [--name] saves the source, without its [#!] lines, as the
    source of the new name and builds nothing: the new name is listed as
    a command although no binary was made for it. *)
Theorem cat_copy_is_not_built (projectDir argv0 toCat name content : string)
    (lines : list string) (w : World) :
  name <> "" -> all_chars notSlash name = true ->
  files w !! srcPath projectDir toCat = Some content ->
  scanFile content = (lines, None) ->
  exists w',
    main_cat projectDir argv0 toCat name w = Ret tt w'
    /\ files w' = <[srcPath projectDir name :=
                      joinLines (filter (fun l => ~ isShebang l) lines)]> (files w)
    /\ history w' = history w
    /\ stdout w' = stdout w +:+ "A copy of " +:+ toCat +:+ " was saved as " +:+ name +:+ nl
    /\ Runnable name ∈ listing projectDir w'
    /\ files w' !! binPath projectDir name = files w !! binPath projectDir name.
Proof.
  intros Hne Hslash Hf Hs. unfold main_cat. fold (srcPath projectDir toCat).
  erewrite bind_Ret; [|by eapply readSourceFile_read].
  rewrite bool_decide_true by done. fold (srcPath projectDir name).
  erewrite bind_Ret; [|reflexivity]. cbn [when].
  eexists. split; [reflexivity|]. cbn [files history stdout add_stdout set_files].
  split; [done|]. split; [done|]. split; [done|]. split.
  - unfold listing. cbn [files add_stdout set_files].
    replace (Runnable name) with (classify (name +:+ ".go")).
    + apply list_elem_of_fmap_2, elem_of_sortStrings, elem_of_ReadDir.
      rewrite src_go_entry, lookup_insert_eq, all_chars_append, Hslash.
      split; [eauto|]. split; [by destruct name|done].
    + unfold classify. rewrite HasSuffix_append. simpl.
      change 3 with (String.length ".go"). by rewrite dropRight_append.
  - rewrite lookup_insert_ne; [done|]. apply srcPath_neq_binPath.
Qed.

Lemma cat_copy_is_not_built_witness :
  exists w',
    main_cat "/p" "goscript" "hello" "hi" helloWorld = Ret tt w'
    /\ files w' = <[srcPath "/p" "hi" :=
                      joinLines (filter (fun l => ~ isShebang l)
                        ["package main"; "func main() { println(42) }"])]>
                    (files helloWorld)
    /\ history w' = history helloWorld
    /\ stdout w' = stdout helloWorld +:+ "A copy of " +:+ "hello"
                   +:+ " was saved as " +:+ "hi" +:+ nl
    /\ Runnable "hi" ∈ listing "/p" w'
    /\ files w' !! binPath "/p" "hi" = files helloWorld !! binPath "/p" "hi".
Proof.
  apply (cat_copy_is_not_built "/p" "goscript" "hello" "hi" helloSource
           ["package main"; "func main() { println(42) }"] helloWorld).
  - done.
  - reflexivity.
  - vm_compute. reflexivity.
  - vm_compute. reflexivity.
Defined.

(** ** The exit status of a run *)

(** X19: with [--exec], once the source is chosen and its build succeeds, the
    run ends with the exit status of the program it ran, also when that is
    0; the program gets the arguments left after the flags.  Under a
    generated name the source and the binary are removed first; under a
    name given with [--name] both are kept. *)
Theorem main_build_exit_status (tc : Toolchain) (projectDir : string) (fuel : nat)
    (fl : Flags) (w w1 : World) (buf binary : string) (c : Z) :
  chooseSource tc projectDir fl w = Ret buf w1 ->
  let nm := if bool_decide (name fl = "")
            then "gocmd-" +:+ formatInt (time_Now tc (history w1)) else name fl in
  let w2 := set_files (fun fs => <[srcPath projectDir nm := buf]> fs) w1 in
  go_build tc (history w2) (files w2) (binPath projectDir nm) (srcPath projectDir nm)
    = BuildOk binary ->
  execCode fl = true ->
  run_child tc (history w2 ++ [EvBuild (binPath projectDir nm) (srcPath projectDir nm)])
    (<[binPath projectDir nm := binary]> (files w2)) (binPath projectDir nm)
    (subprocessArgs fl) = Exited c ->
  exists w',
    main_build tc projectDir (S fuel) fl w = Exit c w'
    /\ history w' = history w1
         ++ [EvBuild (binPath projectDir nm) (srcPath projectDir nm);
             EvRun (binPath projectDir nm) (subprocessArgs fl)]
    /\ (name fl = "" ->
        files w' !! srcPath projectDir nm = None
        /\ files w' !! binPath projectDir nm = None)
    /\ (name fl <> "" ->
        files w' !! srcPath projectDir nm = Some buf
        /\ files w' !! binPath projectDir nm = Some binary).
Proof.
  intros Hch nm w2 Hb Hexec Hchild. unfold main_build.
  erewrite bind_Ret; [|exact Hch].
  erewrite bind_Ret; [|reflexivity].
  assert ((if bool_decide (name fl = "")
           then ("gocmd-" +:+ formatInt (time_Now tc (history w1)), true)
           else (name fl, false)) = (nm, bool_decide (name fl = ""))) as ->.
  { subst nm. by case_bool_decide. }
  fold (srcPath projectDir nm) (binPath projectDir nm).
  erewrite bind_Ret; [|reflexivity]. fold w2.
  erewrite bind_Ret; [|by apply compileBinary_built].
  cbn [negb]. rewrite Hexec.
  erewrite bind_Ret; [|reflexivity].
  cbn [history files set_files add_event]. rewrite Hchild.
  set (w3 := add_event (EvRun _ _) _).
  case_bool_decide as Hname; cbn [when].
  - destruct (cleanTemporaryFiles_run projectDir nm w3) as (w' & Hr & Hf & Hh).
    erewrite bind_Ret; [|exact Hr].
    exists w'. split; [done|]. split.
    { rewrite Hh. subst w3 w2. simpl. by rewrite <- app_assoc. }
    split; [|done]. intros _. rewrite Hf. split.
    + rewrite lookup_delete_ne by (apply not_eq_sym, srcPath_neq_binPath).
      apply lookup_delete_eq.
    + apply lookup_delete_eq.
  - erewrite bind_Ret; [|reflexivity].
    exists w3. split; [done|]. split.
    { subst w3 w2. simpl. by rewrite <- app_assoc. }
    split; [done|]. intros _. subst w3 w2. cbn [files set_files add_event]. split.
    + rewrite lookup_insert_ne by (apply not_eq_sym, srcPath_neq_binPath).
      apply lookup_insert_eq.
    + apply lookup_insert_eq.
Qed.

Lemma main_build_exit_status_witness :
  exists w',
    main_build tcExit3 "/p" 1 namedRun tmplWorld = Exit 3 w'
    /\ history w' = history tmplWorld
         ++ [EvBuild (binPath "/p" "tool") (srcPath "/p" "tool");
             EvRun (binPath "/p" "tool") ["-v"]]
    /\ (name namedRun = "" ->
        files w' !! srcPath "/p" "tool" = None /\ files w' !! binPath "/p" "tool" = None)
    /\ (name namedRun <> "" ->
        files w' !! srcPath "/p" "tool" = Some ("package main" +:+ nl +:+ "m.Hello()")
        /\ files w' !! binPath "/p" "tool" = Some "ELF").
Proof.
  apply (main_build_exit_status tcExit3 "/p" 0 namedRun tmplWorld tmplWorld
           ("package main" +:+ nl +:+ "m.Hello()") "ELF" 3).
  - vm_compute. reflexivity.
  - reflexivity.
  - reflexivity.
  - reflexivity.
Defined.

(** ** The import list of the earlier driver *)

Lemma splitOn_app sep cur a b :
  splitOn sep cur (a +:+ String sep b) = splitOn sep cur a ++ splitOn sep "" b.
Proof.
  revert cur. induction a as [|c a IH]; intros cur; simpl.
  - by rewrite Ascii.eqb_refl.
  - destruct (Ascii.eqb c sep); simpl; by rewrite IH.
Qed.

Lemma splitOn_no_sep sep cur s :
  all_chars (fun c => negb (Ascii.eqb c sep)) s = true -> splitOn sep cur s = [cur +:+ s].
Proof.
  revert cur. induction s as [|c s IH]; intros cur Hs; simpl.
  - by rewrite append_nil_r.
  - rewrite all_chars_cons in Hs. apply andb_true_iff in Hs as [Hc Hs].
    apply negb_true_iff in Hc. rewrite Hc, IH by done. by rewrite append_assoc.
Qed.

Lemma splitOn_pieces sep cur s :
  all_chars (fun c => negb (Ascii.eqb c sep)) cur = true ->
  Forall (fun x => all_chars (fun c => negb (Ascii.eqb c sep)) x = true) (splitOn sep cur s).
Proof.
  revert cur. induction s as [|c s IH]; intros cur Hcur; simpl.
  - by constructor.
  - destruct (Ascii.eqb c sep) eqn:Hc.
    + constructor; [done|]. by apply IH.
    + apply IH. rewrite all_chars_append, Hcur. simpl.
      rewrite all_chars_cons, Hc. done.
Qed.

(** X20: the import list that the earlier driver hands to the template: the
    pieces of [--imports] between commas, as they are written; when the
    code refers to [script.] and the path of that package does not occur
    in [--imports], the path is added as the last piece.  There is always
    one piece or more: without [--imports] and without a reference to
    [script.] the list is one empty import, not the empty list. *)
Theorem theImports_cases (code imports : string) :
  GoscriptsMain.theImports code imports
  = (if Contains code "script." && negb (Contains imports scriptPath)
     then (if bool_decide (imports = "") then [] else Split imports ",") ++ [scriptPath]
     else Split imports ",")
  /\ (Contains code "script." = false -> GoscriptsMain.theImports code "" = [""])
  /\ Forall (fun x => all_chars notComma x = true) (GoscriptsMain.theImports code imports)
  /\ 0 < length (GoscriptsMain.theImports code imports).
Proof.
  split; [|split; [|split]].
  - unfold GoscriptsMain.theImports. fold scriptPath.
    destruct (Contains code "script."); [|done]. cbn [andb].
    destruct (Contains imports scriptPath); [done|]. cbn [negb].
    destruct imports as [|c imports]; [done|].
    cbn [String.length Nat.ltb Nat.leb]. rewrite bool_decide_false by done.
    unfold Split. apply (splitOn_app "," "" (String c imports) scriptPath).
  - intros H. unfold GoscriptsMain.theImports. by rewrite H.
  - unfold GoscriptsMain.theImports, Split. apply splitOn_pieces. done.
  - unfold GoscriptsMain.theImports, Split.
    match goal with |- context [splitOn ?s ?c ?x] => generalize x; generalize c end.
    intros cur s. revert cur. induction s as [|c s IH]; intros cur; simpl; [lia|].
    destruct (Ascii.eqb c ","); simpl; [lia|apply IH].
Qed.

Example theImports_samples :
  GoscriptsMain.theImports "script.Echo(os.Args[1]).Stdout()" "os, fmt"
    = ["os"; " fmt"; scriptPath]
  /\ GoscriptsMain.theImports "fmt.Println(1)" "" = [""]
  /\ GoscriptsMain.theImports "script.Stdin()" "github.com/bitfield/scripts,os"
    = ["github.com/bitfield/scripts"; "os"].
Proof. repeat split; vm_compute; reflexivity. Qed.

(** ** Runs of the earlier driver *)



(** X21: in the earlier driver the program is run only when the source came
    from a file: without an input file, [--exec] or not, the run ends
    after the build, and neither the program nor the terminal input is
    looked at. *)
Theorem driver_runs_only_files (tc : Toolchain) (dir : string) (o : GoscriptsMain.Options)
    (w : World) (spawn spawn' : gmap string string -> string -> list string -> Goscripts.Child)
    (stdin stdin' : string) :
  GoscriptsMain.inputFile o = "" ->
  match GoscriptsMain.args o with
  | arg0 :: _ => files w !! arg0 = None
  | [] => True
  end ->
  GoscriptsMain.main tc dir spawn stdin o w = GoscriptsMain.main tc dir spawn' stdin' o w.
Proof.
  intros Hin Hargs. unfold GoscriptsMain.main.
  assert (exists sargs, GoscriptsMain.shebangArgs o w
                        = Ret ("", sargs, GoscriptsMain.execCode o) w) as [sargs Hsh].
  { unfold GoscriptsMain.shebangArgs. rewrite Hin.
    destruct (GoscriptsMain.args o) as [|arg0 rest]; [by eexists|].
    rewrite bool_decide_true by done.
    unfold bind, checkFileExists, gets. rewrite Hargs.
    rewrite bool_decide_false by (by intros [? ?]). by eexists. }
  rewrite !(bind_Ret _ _ _ _ _ Hsh).
  by destruct (GoscriptsMain.execCode o).
Qed.

Lemma driver_runs_only_files_witness :
  GoscriptsMain.main tcBuilds "/p" argsChild ("x" +:+ nl) execLiner tmplWorld
  = GoscriptsMain.main tcBuilds "/p" (fun _ _ _ _ => CmdOk "") "" execLiner tmplWorld.
Proof.
  apply (driver_runs_only_files tcBuilds "/p" execLiner tmplWorld).
  - reflexivity.
  - exact I.
Defined.

(** What that run does: the one-liner is rendered with the script package
    as its import, saved under the default name and built; nothing is
    printed. *)
Example exec_code_only_builds :
  GoscriptsMain.main tcBuilds "/p" argsChild ("x" +:+ nl) execLiner tmplWorld
  = Ret tt
      {| files := <["/p/bin/gocmd" := "ELF"]>
                    (<["/p/src/gocmd.go" := "package main" +:+ nl +:+ "script.Stdin().Stdout()"]>
                       (files tmplWorld));
         ImportsMap := ∅; stdout := ""; stderr := []; savedErrors := [];
         history := [EvBuild "/p/bin/gocmd" "/p/src/gocmd.go"] |}.
Proof. vm_compute. reflexivity. Qed.



(** That run, computed: the script named as first argument is built under
    the default name although [--exec] was not given, the failed build is
    reported on the standard output, and the program is run with the
    remaining arguments. *)
Example shebang_run_after_failed_build :
  exists w',
    GoscriptsMain.main tcBroken "/p" argsChild ("x" +:+ nl) shebangRun
      (withFiles {["/tmp/s.go" := sampleScript]}) = Ret tt w'
    /\ stdout w' = "exit status 1: s.go:1:1: syntax error" +:+ nl +:+ "ab" +:+ "x" +:+ nl
    /\ files w' !! "/p/src/gocmd.go"
       = Some ("package main" +:+ nl +:+ "func main() {}" +:+ nl)
    /\ files w' !! "/p/bin/gocmd" = None.
Proof. eexists. repeat split; vm_compute; reflexivity. Qed.





Lemma recompileCommands_stops_at_failure_witness :
  recompileCommands tcBroken "/p" 1 (withFiles threeFiles)
  = Exit 1 (add_stderr (checkMessage "s.go:1:1: syntax error" "exit status 1")
              (add_event (buildOf "/p" "b.go") (withFiles threeFiles))).
Proof.
  apply (recompileCommands_stops_at_failure tcBroken "/p" 0 (withFiles threeFiles)
           ["a"] ["c.go"] "b.go" "exit status 1" "s.go:1:1: syntax error").
  - vm_compute. reflexivity.
  - repeat constructor.
  - reflexivity.
  - reflexivity.
  - reflexivity.
Defined.

Lemma main_build_cleans_witness :
  let tmp := "gocmd-" +:+ formatInt (time_Now tcBuilds (history tmplWorld)) in
  let o := main_build tcBuilds "/p" 1 oneLiner tmplWorld in
  files (world_of o) = files tmplWorld
  \/ (files (world_of o) !! srcPath "/p" tmp = None
      /\ files (world_of o) !! binPath "/p" tmp = None).
Proof.
  apply (main_build_cleans tcBuilds "/p" 0 oneLiner tmplWorld).
  - reflexivity.
  - intros h fs b s err out H. discriminate H.
Defined.

(** ** The command line *)

Lemma Parse_non_flag arguments vars :
  match arguments with a :: _ => Cli.readArg a = Cli.NonFlag | [] => True end ->
  Cli.Parse arguments vars = Cli.ParseOk vars arguments.
Proof. destruct arguments as [|a rest]; [done|]. simpl. by intros ->. Qed.

Lemma readCommandLine_script flagErrorText argv0 script arguments vars args w :
  is_Some (files w !! script) ->
  Cli.Parse arguments (Cli.setString Cli.v_inputFile script Cli.defaults)
    = Cli.ParseOk vars args ->
  Cli.readCommandLine flagErrorText (argv0 :: script :: arguments) w
  = Ret (if negb (Cli.bools vars Cli.v_execCode)
         then Cli.setBool Cli.v_execCode true vars else vars, args) w.
Proof.
  intros Hf Hp. unfold Cli.readCommandLine.
  erewrite bind_Ret; cycle 1.
  { unfold checkFileExists, gets. rewrite bool_decide_true by done. reflexivity. }
  cbv iota beta. rewrite Hp. reflexivity.
Qed.

(** X23: a script named as the first argument is built and run with the
    arguments that follow it, when the first of them does not look like a
    flag; after a [--] everything is passed on, flags included. *)
Theorem script_arguments_reach_the_script (tc : Toolchain) (projectDir cwd : string)
    (flagErrorText : Cli.FlagError -> string)
    (createNewProject editCommand : string -> M unit)
    (fuel : nat) (argv0 script : string) (rest rest' : list string) (w : World) :
  is_Some (files w !! script) ->
  match rest with a :: _ => Cli.readArg a = Cli.NonFlag | [] => True end ->
  Cli.main tc projectDir cwd flagErrorText createNewProject editCommand fuel
    (argv0 :: script :: rest) w
  = main_build tc projectDir fuel (scriptRun script rest) w
  /\ Cli.main tc projectDir cwd flagErrorText createNewProject editCommand fuel
       (argv0 :: script :: "--" :: rest') w
     = main_build tc projectDir fuel (scriptRun script rest') w.
Proof.
  intros Hf Hrest. split.
  - unfold Cli.main.
    erewrite bind_Ret; cycle 1.
    { apply readCommandLine_script; [done|]. by apply Parse_non_flag. }
    reflexivity.
  - unfold Cli.main.
    erewrite bind_Ret; [|by apply readCommandLine_script]. reflexivity.
Qed.

Lemma script_arguments_reach_the_script_witness :
  Cli.main tcBuilds "/p" "/home/u" (fun _ => "") (fun _ => ret tt) (fun _ => ret tt) 1
    ["goscript"; "/tmp/s.go"; "a"; "-b"] (withFiles {["/tmp/s.go" := sampleScript]})
  = main_build tcBuilds "/p" 1 (scriptRun "/tmp/s.go" ["a"; "-b"])
      (withFiles {["/tmp/s.go" := sampleScript]})
  /\ Cli.main tcBuilds "/p" "/home/u" (fun _ => "") (fun _ => ret tt) (fun _ => ret tt) 1
       ["goscript"; "/tmp/s.go"; "--"; "-l"; "x"] (withFiles {["/tmp/s.go" := sampleScript]})
     = main_build tcBuilds "/p" 1 (scriptRun "/tmp/s.go" ["-l"; "x"])
         (withFiles {["/tmp/s.go" := sampleScript]}).
Proof.
  apply (script_arguments_reach_the_script tcBuilds "/p" "/home/u" (fun _ => "")
           (fun _ => ret tt) (fun _ => ret tt) 1 "goscript" "/tmp/s.go" ["a"; "-b"]
           ["-l"; "x"] (withFiles {["/tmp/s.go" := sampleScript]})).
  - vm_compute. eauto.
  - reflexivity.
Defined.

(** X24: an argument after the script that is a flag of the program is taken
    by the program, not passed on: [script --list] lists the commands
    and [script -v] prints the version; the script is neither built nor
    run. *)
Theorem script_flags_are_taken (tc : Toolchain) (projectDir cwd : string)
    (flagErrorText : Cli.FlagError -> string)
    (createNewProject editCommand : string -> M unit)
    (fuel : nat) (argv0 script : string) (rest : list string) (w : World) :
  is_Some (files w !! script) ->
  match rest with a :: _ => Cli.readArg a = Cli.NonFlag | [] => True end ->
  Cli.main tc projectDir cwd flagErrorText createNewProject editCommand fuel
    (argv0 :: script :: "--list" :: rest) w
  = main_list projectDir w
  /\ Cli.main tc projectDir cwd flagErrorText createNewProject editCommand fuel
       (argv0 :: script :: "-v" :: rest) w
     = Ret tt (add_stdout (Cli.version +:+ nl) w).
Proof.
  intros Hf Hrest. split.
  - unfold Cli.main.
    erewrite bind_Ret; cycle 1.
    { apply readCommandLine_script; [done|].
      change (Cli.Parse ("--list" :: rest) ?v)
        with (Cli.Parse rest (Cli.setBool Cli.v_listCommands true v)).
      by apply Parse_non_flag. }
    reflexivity.
  - unfold Cli.main.
    erewrite bind_Ret; cycle 1.
    { apply readCommandLine_script; [done|].
      change (Cli.Parse ("-v" :: rest) ?v)
        with (Cli.Parse rest (Cli.setBool Cli.v_printVersion true v)).
      by apply Parse_non_flag. }
    reflexivity.
Qed.

Lemma script_flags_are_taken_witness :
  Cli.main tcBuilds "/p" "/home/u" (fun _ => "") (fun _ => ret tt) (fun _ => ret tt) 1
    ["goscript"; "/tmp/s.go"; "--list"; "a"] (withFiles {["/tmp/s.go" := sampleScript]})
  = main_list "/p" (withFiles {["/tmp/s.go" := sampleScript]})
  /\ Cli.main tcBuilds "/p" "/home/u" (fun _ => "") (fun _ => ret tt) (fun _ => ret tt) 1
       ["goscript"; "/tmp/s.go"; "-v"; "a"] (withFiles {["/tmp/s.go" := sampleScript]})
     = Ret tt (add_stdout (Cli.version +:+ nl) (withFiles {["/tmp/s.go" := sampleScript]})).
Proof.
  apply (script_flags_are_taken tcBuilds "/p" "/home/u" (fun _ => "")
           (fun _ => ret tt) (fun _ => ret tt) 1 "goscript" "/tmp/s.go" ["a"]
           (withFiles {["/tmp/s.go" := sampleScript]})).
  - vm_compute. eauto.
  - reflexivity.
Defined.

(** ** Code kept in a file *)

(** X25: when the text given as code names an existing file, the code is what
    the file holds, read as a source file (its [#!] lines left out, every
    line ended by a newline): the imports are resolved from that text and
    the template gets that text, not the name of the file. *)
Theorem assembleSourceFile_from_file (tc : Toolchain) (projectDir code content : string)
    (lines : list string) (w : World) :
  files w !! code = Some content ->
  scanFile content = (lines, None) ->
  let body := joinLines (filter (fun l => ~ isShebang l) lines) in
  let table := mergeUserImports (storedImports tc projectDir (files w)) (ImportsMap w) in
  assembleSourceFile tc projectDir code w
  = (let* buf := processTemplate tc projectDir (resolveImports table body) body in
     formatCode tc buf) (set_ImportsMap table w).
Proof.
  intros Hf Hs body table. unfold assembleSourceFile.
  erewrite bind_Ret; cycle 1.
  { unfold checkFileExists, gets. rewrite bool_decide_true by eauto. reflexivity. }
  erewrite bind_Ret; [|by eapply readSourceFile_read]. fold body.
  erewrite bind_Ret; [|apply readUserImports_run].
  erewrite bind_Ret; [|reflexivity].
  erewrite bind_Ret; [|reflexivity]. reflexivity.
Qed.

Lemma assembleSourceFile_from_file_witness :
  let body := joinLines (filter (fun l => ~ isShebang l)
                ["#!/usr/bin/env -S goscript"; "package main"; "#!again";
                 "func main() {}"]) in
  let w := withFiles {["/tmp/s.go" := sampleScript]} in
  let table := mergeUserImports (storedImports tcBuilds "/p" (files w)) (ImportsMap w) in
  assembleSourceFile tcBuilds "/p" "/tmp/s.go" w
  = (let* buf := processTemplate tcBuilds "/p" (resolveImports table body) body in
     formatCode tcBuilds buf) (set_ImportsMap table w).
Proof.
  apply (assembleSourceFile_from_file tcBuilds "/p" "/tmp/s.go" sampleScript
           ["#!/usr/bin/env -S goscript"; "package main"; "#!again"; "func main() {}"]
           (withFiles {["/tmp/s.go" := sampleScript]})).
  - vm_compute. reflexivity.
  - vm_compute. reflexivity.
Defined.

(** ** The files a build run may change *)

Lemma keepsFile_refl p w : keepsFile p w w.
Proof. done. Qed.

Lemma keepsStore_keepsFile {A} (m : M A) p :
  preserves keepsStore m -> preserves (keepsFile p) m.
Proof. intros H w. destruct (H w) as [Hf _]. unfold keepsFile. by rewrite Hf. Qed.

Lemma cleanTemporaryFiles_keepsFile projectDir name p :
  p <> srcPath projectDir name -> p <> binPath projectDir name ->
  preserves (keepsFile p) (cleanTemporaryFiles projectDir name).
Proof.
  intros Hs Hb w. unfold cleanTemporaryFiles.
  fold (srcPath projectDir name) (binPath projectDir name).
  rewrite removeIfExists_then, removeIfExists. unfold keepsFile. simpl.
  by rewrite !lookup_delete_ne.
Qed.

(** What a run of the end of [main] writes in the store of the program:
    the source and the binary of the name it builds under, and the imports
    file. *)
Lemma main_build_keepsFile (tc : Toolchain) (projectDir : string) (fuel : nat)
    (fl : Flags) (w : World) (p : string) :
  let nm := if bool_decide (name fl = "")
            then "gocmd-" +:+ formatInt (time_Now tc (history w)) else name fl in
  p <> srcPath projectDir nm -> p <> binPath projectDir nm ->
  p <> projectDir +:+ "/imports.json" ->
  files (world_of (main_build tc projectDir fuel fl w)) !! p = files w !! p.
Proof.
  intros nm Hs Hb Hi. unfold main_build.
  destruct (chooseSource_keepsStore tc projectDir fl w) as [Hfiles Hhist].
  unfold bind at 1.
  destruct (chooseSource tc projectDir fl w) as [buf w1|c w1|e w1|w1];
    simpl in Hfiles, Hhist; [|simpl; by rewrite Hfiles..].
  rewrite <- Hfiles.
  erewrite bind_Ret; [|reflexivity].
  assert ((if bool_decide (name fl = "")
           then ("gocmd-" +:+ formatInt (time_Now tc (history w1)), true)
           else (name fl, false)) = (nm, bool_decide (name fl = ""))) as ->.
  { subst nm. rewrite Hhist. by case_bool_decide. }
  fold (srcPath projectDir nm) (binPath projectDir nm).
  change (keepsFile p w1 (world_of
    ((writeSourceFile (srcPath projectDir nm) buf >>
      (let* compiled := compileBinary tc projectDir fuel (srcPath projectDir nm)
                          (binPath projectDir nm) in
       if negb compiled
       then when (bool_decide (name fl = "")) (cleanTemporaryFiles projectDir nm) >>
            os_Exit 1
       else if execCode fl
            then let* r := run_binary tc (binPath projectDir nm) (subprocessArgs fl) in
                 match r with
                 | StartFail err =>
                     modify (add_stderr (Plain (err +:+ nl))) >>
                     when (bool_decide (name fl = ""))
                       (cleanTemporaryFiles projectDir nm) >> os_Exit 1
                 | Exited exitCode =>
                     when (bool_decide (name fl = ""))
                       (cleanTemporaryFiles projectDir nm) >> os_Exit exitCode
                 | Interrupted =>
                     when (bool_decide (name fl = ""))
                       (cleanTemporaryFiles projectDir nm) >> os_Exit 1
                 end
            else when (bool_decide (name fl = ""))
                   (cleanTemporaryFiles projectDir nm))) w1))).
  assert (forall b, preserves (keepsFile p)
            (when b (cleanTemporaryFiles projectDir nm))) as Hclean.
  { intros []; [by apply cleanTemporaryFiles_keepsFile|done]. }
  revert w1 Hfiles Hhist.
  match goal with |- forall w1, _ -> _ -> keepsFile p w1 (world_of (?m w1)) =>
    enough (preserves (keepsFile p) m) as H by (intros w1 _ _; apply H) end.
  apply preserves_bind; [apply keepsFile_trans| |intros _].
  { intros w1. unfold writeSourceFile, bind, modify, ret, keepsFile. simpl.
    by rewrite lookup_insert_ne. }
  apply preserves_bind; [apply keepsFile_trans| |intros compiled].
  { by apply compileBinary_keepsFile. }
  destruct compiled; cbn [negb].
  - destruct (execCode fl); [|apply Hclean].
    apply preserves_bind; [apply keepsFile_trans|done|intros r].
    destruct r.
    + apply preserves_bind; [apply keepsFile_trans|done|intros _].
      apply preserves_bind; [apply keepsFile_trans|apply Hclean|done].
    + apply preserves_bind; [apply keepsFile_trans|apply Hclean|done].
    + apply preserves_bind; [apply keepsFile_trans|apply Hclean|done].
  - apply preserves_bind; [apply keepsFile_trans|apply Hclean|done].
Qed.

(** X26: a run of the end of [main] that does not execute the program,
    however it ends, changes no file of the source directory and of the
    binary directory other than the source and the binary of the name it
    builds under: it touches no other command. *)
Theorem main_build_frame (tc : Toolchain) (projectDir : string) (fuel : nat)
    (fl : Flags) (w : World) (p e : string) :
  execCode fl = false ->
  p = projectDir +:+ "/src/" +:+ e \/ p = projectDir +:+ "/bin/" +:+ e ->
  let nm := if bool_decide (name fl = "")
            then "gocmd-" +:+ formatInt (time_Now tc (history w)) else name fl in
  p <> srcPath projectDir nm -> p <> binPath projectDir nm ->
  files (world_of (main_build tc projectDir fuel fl w)) !! p = files w !! p.
Proof.
  intros _ Hp nm Hs Hb. apply main_build_keepsFile; [done|done|].
  destruct Hp as [-> | ->]; by intros H%projectPath_inj.
Qed.

Lemma main_build_frame_witness :
  files (world_of (main_build tcBuilds "/p" 1 namedLiner helloWorld)) !! srcPath "/p" "hello"
  = files helloWorld !! srcPath "/p" "hello".
Proof.
  apply (main_build_frame tcBuilds "/p" 1 namedLiner helloWorld (srcPath "/p" "hello")
           "hello.go").
  - reflexivity.
  - left. reflexivity.
  - vm_compute. discriminate.
  - vm_compute. discriminate.
Defined.
